(** * FreqDemod: the demodulation pipeline of [freqdemod/demodulate.py]

    A shallow embedding of the numeric stages of class [Signal]
    (length mask, taper, forward transform, bandpass filter, edge trim,
    chunked phase fit) together with the store of named datasets they
    read and write, and the properties of these stages.

    Conventions of the embedding.
    - A Python [int] is a [Z]; a list position is a [nat].
    - A numpy [float64] is a real number ([R]): arithmetic is exact,
      rounding, overflow, [inf] and [nan] are not represented.  Where
      the source would produce [inf]/[nan] and then raise (a zero time
      step fed to [math.ceil] or [round]) the model raises directly.
    - The HDF5 file [self.f] is a finite map from dataset paths to
      datasets; every dataset carries its array and its attributes.
      h5py treats [/workup/...] and [workup/...] as the same object of
      the root group, so paths are written without the leading slash.
    - A Python exception is a [Raise e] result; the store keeps every
      write made before the exception, as the mutated file does.
    - [self.report] (advisory text) and wall-clock timing are left out. *)

From Stdlib Require Import Reals Lra Lia ZArith List Ascii String.
From stdpp Require Import gmap strings list.
Import ListNotations.

Open Scope R_scope.

(* ================================================================= *)
(** ** Numbers *)

(** [int(math.floor(x))] and [int(math.ceil(x))] for a finite [x]. *)
Definition py_floor (x : R) : Z := Zfloor x.
Definition py_ceil (x : R) : Z := Zceil x.

(** [int(round(x))] of Python 3: to the nearest integer, ties to the
    even one. *)
Definition py_round (x : R) : Z :=
  let fl := py_floor x in
  if Rlt_dec (x - IZR fl) (1 / 2) then fl
  else if Rlt_dec (1 / 2) (x - IZR fl) then (fl + 1)%Z
  else if Z.even fl then fl else (fl + 1)%Z.

(** Complex numbers as pairs (real part, imaginary part). *)
Definition C : Type := R * R.
Definition Cabs (z : C) : R := sqrt (fst z * fst z + snd z * snd z).
Definition Cscale (a : R) (z : C) : C := (a * fst z, a * snd z).
Definition Cadd (z w : C) : C := (fst z + fst w, snd z + snd w).

(** Sum of an array ([np.sum] along the last axis). *)
Definition np_sum (l : list R) : R := foldr Rplus 0 l.

(* ================================================================= *)
(** ** Exceptions and the two monads *)

Inductive exn : Type :=
| KeyError            (* a missing dataset or attribute *)
| NameExists          (* h5py: the name is already in use *)
| ValueError
| IndexError
| TypeError
| OverflowError
| ZeroDivisionError
| UnboundLocalError.

Inductive result (A : Type) : Type :=
| Ok (a : A)
| Raise (e : exn).
Arguments Ok {A} a.
Arguments Raise {A} e.

#[global] Instance result_ret : MRet result := fun A a => Ok a.
#[global] Instance result_bind : MBind result := fun A B k r =>
  match r with
  | Ok a => k a
  | Raise e => Raise e
  end.

Definition is_raise {A} (r : result A) : Prop :=
  match r with Ok _ => False | Raise _ => True end.

(* ================================================================= *)
(** ** Datasets and the store *)

Inductive array : Type :=
| ABool (l : list bool)
| AReal (l : list R)
| ACplx (l : list C).

Inductive attr : Type :=
| AStr (s : string)
| ANum (r : R)
| AInt (z : Z).

Record Dataset : Type := mkDataset {
  data : array;
  attrs : gmap string attr
}.

(** The state of a [Signal] object: the file [self.f] and what has
    been printed. *)
Record Signal : Type := mkSignal {
  f : gmap string Dataset;
  stdout : list string
}.

(** A method of [Signal]: it may raise, and it returns the state it
    leaves behind in either case. *)
Definition M (A : Type) : Type := Signal -> result A * Signal.

#[global] Instance M_ret : MRet M := fun A a st => (Ok a, st).
#[global] Instance M_bind : MBind M := fun A B k c st =>
  match c st with
  | (Ok a, st') => k a st'
  | (Raise e, st') => (Raise e, st')
  end.

Definition raise {A} (e : exn) : M A := fun st => (Raise e, st).
Definition liftR {A} (r : result A) : M A := fun st => (r, st).

Definition array_size (a : array) : Z :=
  match a with
  | ABool l => Z.of_nat (length l)
  | AReal l => Z.of_nat (length l)
  | ACplx l => Z.of_nat (length l)
  end.

(** h5py resolves a path with a leading slash from the root group,
    which is the file itself: [/workup/time/x_binarated] and
    [workup/time/x_binarated] name the same dataset. *)
Definition h5path (name : string) : string :=
  match name with
  | String "/"%char rest => rest
  | _ => name
  end.

(** [self.f.__contains__(name)] *)
Definition contains (name : string) : M bool :=
  fun st => (Ok (bool_decide (is_Some (f st !! h5path name))), st).

(** [self.f[name]] *)
Definition getitem (name : string) : M Dataset :=
  fun st => match f st !! h5path name with
            | Some d => (Ok d, st)
            | None => (Raise KeyError, st)
            end.

(** [dset.attrs[key]] *)
Definition get_attr (d : Dataset) (key : string) : result attr :=
  match attrs d !! key with
  | Some a => Ok a
  | None => Raise KeyError
  end.

(** [self.f.create_dataset(name, data=a)] and [self.f[name] = a]:
    h5py refuses a name that is already in use. *)
Definition create_dataset (name : string) (a : array) : M unit :=
  fun st => match f st !! name with
            | Some _ => (Raise NameExists, st)
            | None => (Ok tt, mkSignal (<[name := mkDataset a ∅]> (f st)) (stdout st))
            end.

(** Modelled from the spec: [update_attrs] of [freqdemod.hdf5] is not
    part of the sources at hand; by its name and its use it copies the
    entries of a dictionary, in order, into the attributes of the
    dataset just created. *)
Definition update_attrs (name : string) (kvs : list (string * attr)) : M unit :=
  fun st =>
    (Ok tt,
     mkSignal
       (alter (fun d => mkDataset (data d)
                          (foldl (fun m kv => <[kv.1 := kv.2]> m) (attrs d) kvs))
              name (f st))
       (stdout st)).

(** [print(msg)] *)
Definition print (msg : string) : M unit :=
  fun st => (Ok tt, mkSignal (f st) (stdout st ++ [msg])).

(** Arrays are read back at the element type the pipeline stored them
    with; another element type is outside the model. *)
Definition as_real (a : array) : result (list R) :=
  match a with AReal l => Ok l | _ => Raise TypeError end.
Definition as_bool (a : array) : result (list bool) :=
  match a with ABool l => Ok l | _ => Raise TypeError end.
Definition as_num (a : attr) : result R :=
  match a with
  | ANum r => Ok r
  | AInt z => Ok (IZR z)
  | AStr _ => Raise TypeError
  end.
Definition as_str (a : attr) : result string :=
  match a with AStr s => Ok s | _ => Raise TypeError end.

(** [self.f['x'].attrs['step']] *)
Definition get_step : M R :=
  x ← getitem "x";
  liftR (a ← get_attr x "step"; as_num a).

(* ================================================================= *)
(** ** The numpy operations the pipeline uses *)

(** [l[start:stop]] with Python's treatment of negative and
    out-of-range bounds; [None] is an omitted bound. *)
Definition slice_index (len i : Z) : Z :=
  Z.max 0 (Z.min len (if (i <? 0)%Z then (i + len)%Z else i)).

Definition py_slice {A} (l : list A) (start stop : option Z) : list A :=
  let len := Z.of_nat (length l) in
  let a := match start with Some i => slice_index len i | None => 0%Z end in
  let b := match stop with Some i => slice_index len i | None => len end in
  take (Z.to_nat (b - a)) (drop (Z.to_nat a) l).

(** [np.ones(n)]: a negative dimension is refused. *)
Definition np_ones (n : Z) : result (list R) :=
  if (n <? 0)%Z then Raise ValueError else Ok (replicate (Z.to_nat n) 1).

(** [np.zeros(n)] for a length taken from an existing array. *)
Definition np_zeros (n : nat) : list R := replicate n 0.

(** [np.blackman(M)]: empty for [M < 1], [[1]] for [M = 1], otherwise
    [0.42 - 0.5 cos(2 pi n/(M-1)) + 0.08 cos(4 pi n/(M-1))] for
    [n = 0 .. M-1]. *)
Definition blackman_at (M n : Z) : R :=
  0.42 - 0.5 * cos (2 * PI * IZR n / IZR (M - 1))
       + 0.08 * cos (4 * PI * IZR n / IZR (M - 1)).

Definition np_blackman (M : Z) : list R :=
  if (M <? 1)%Z then []
  else if (M =? 1)%Z then [1]
  else map (blackman_at M) (seqZ 0 M).

(** [a[m]] for a boolean array [m]: the entries of [a] where [m] is
    true; the two must have the same length. *)
Fixpoint np_compress {A} (m : list bool) (a : list A) : list A :=
  match m, a with
  | b :: m', v :: a' => if b then v :: np_compress m' a' else np_compress m' a'
  | _, _ => []
  end.

Definition np_getitem_mask {A} (a : list A) (m : list bool) : result (list A) :=
  if decide (length m = length a) then Ok (np_compress m a)
  else Raise IndexError.

(** [np.count_nonzero(m)] *)
Definition np_count_nonzero (m : list bool) : Z :=
  Z.of_nat (length (filter (fun b => b = true) m)).

(** [a * b] on one-dimensional arrays, with numpy's broadcasting of a
    one-element array. *)
Definition np_mul (a b : list R) : result (list R) :=
  if decide (length a = length b) then Ok (zip_with Rmult a b)
  else match a, b with
       | [u], _ => Ok (map (Rmult u) b)
       | _, [v] => Ok (map (fun u => u * v) a)
       | _, _ => Raise ValueError
       end.

(** [np.roll(a, k)] for [0 <= k <= len(a)] and [np.fft.fftshift],
    which rolls by [len(a) // 2]. *)
Definition np_roll {A} (a : list A) (k : nat) : list A :=
  drop (length a - k) a ++ take (length a - k) a.

Definition np_fftshift {A} (a : list A) : list A :=
  np_roll a (length a / 2).

(** [np.fft.fftfreq(n, d)]: the integers [0 .. N-1] followed by
    [-(n//2) .. -1], where [N = (n-1)//2 + 1], all times [1/(n d)]. *)
Definition np_fftfreq (n : Z) (d : R) : list R :=
  let val := 1 / (IZR n * d) in
  let N := ((n - 1) / 2 + 1)%Z in
  map (fun k => IZR k * val) (seqZ 0 N ++ seqZ (- (n / 2)) (n / 2)).

(** [np.fft.fft(s)] of a real array: the discrete Fourier transform
    [X_k = sum_j s_j exp(-2 pi i j k / n)]; an empty array is
    refused. *)
Definition dft_term (n : nat) (k : nat) (j : nat) (v : R) : C :=
  (v * cos (2 * PI * INR j * INR k / INR n),
   - (v * sin (2 * PI * INR j * INR k / INR n))).

Definition dft_bin (s : list R) (k : nat) : C :=
  foldr Cadd (0, 0) (imap (dft_term (length s) k) s).

Definition np_fft (s : list R) : result (list C) :=
  match s with
  | [] => Raise ValueError
  | _ => Ok (map (dft_bin s) (seq 0 (length s)))
  end.

(** [np.linspace(a, b, k)] *)
Definition np_linspace (a b : R) (k : nat) : list R :=
  match k with
  | O => []
  | S O => [a]
  | _ => map (fun i => a + INR i * ((b - a) / INR (k - 1))) (seq 0 k)
  end.

(** [np.argmax(a)]: the position of the first largest entry. *)
Fixpoint argmax_from (l : list R) (i best : nat) (bv : R) : nat :=
  match l with
  | [] => best
  | v :: l' => if Rlt_dec bv v then argmax_from l' (S i) i v
               else argmax_from l' (S i) best bv
  end.

Definition np_argmax (l : list R) : result nat :=
  match l with
  | [] => Raise ValueError
  | v :: l' => Ok (argmax_from l' 1 0 v)
  end.

(** [a[idx] = vals] for an array of positions [idx] (same length as
    [vals]). *)
Definition np_put (a : list R) (idx : list nat) (vals : list R) : list R :=
  foldl (fun acc iv => <[iv.1 := iv.2]> acc) a (zip idx vals).

(** [a[i]] *)
Definition np_item {A} (a : list A) (i : nat) : result A :=
  match a !! i with
  | Some v => Ok v
  | None => Raise IndexError
  end.

(** [a.reshape((rows, cols))] of a one-dimensional array, as the list
    of its rows.  numpy infers a dimension given as [-1]; with an
    array of [rows * cols] entries, as [fit_phase] passes, every
    negative dimension ends in a [ValueError]. *)
Definition np_reshape {A} (a : list A) (rows cols : Z) : result (list (list A)) :=
  if ((rows <? 0) || (cols <? 0))%Z then Raise ValueError
  else if decide (Z.of_nat (length a) = (rows * cols)%Z) then
    Ok (map (fun r => take (Z.to_nat cols) (drop (r * Z.to_nat cols) a))
            (seq 0 (Z.to_nat rows)))
  else Raise ValueError.

(** Comparisons on reals as booleans, as numpy's [<], [<=], [==]. *)
Definition Rltb (a b : R) : bool := if Rlt_dec a b then true else false.
Definition Rleb (a b : R) : bool := if Rle_dec a b then true else false.
Definition Reqb (a b : R) : bool := if Req_dec_T a b then true else false.
Definition b2r (b : bool) : R := if b then 1 else 0.

(** [int(math.ceil((1.0*t)/(1.0*dt)))] and [int(round(t/dt))] for a
    numpy time step [dt]: a zero step gives [inf] or [nan], which
    [math.ceil] and [round] refuse. *)
Definition div_guard (t dt : R) : result R :=
  if Req_dec_T dt 0 then
    if Req_dec_T t 0 then Raise ValueError else Raise OverflowError
  else Ok (t / dt).

Definition py_ceil_div (t dt : R) : result Z :=
  q ← div_guard t dt; mret (py_ceil q).

Definition py_round_div (t dt : R) : result Z :=
  q ← div_guard t dt; mret (py_round q).

(* ================================================================= *)
(** ** [Signal.load_nparray] *)

Definition load_nparray (s : list R) (s_name s_unit : string) (dt : R)
    (s_help : string) : M unit :=
  create_dataset "x"
    (AReal (map (fun k => dt * IZR k) (seqZ 0 (Z.of_nat (length s)))));;
  update_attrs "x"
    [("name", AStr "t"); ("unit", AStr "s"); ("label", AStr "t [s]");
     ("label_latex", AStr "$t \: [\mathrm{s}]$"); ("help", AStr "time");
     ("initial", ANum 0); ("step", ANum dt)];;
  create_dataset "y" (AReal s);;
  update_attrs "y"
    [("name", AStr s_name); ("unit", AStr s_unit);
     ("label", AStr (s_name +:+ " [" +:+ s_unit +:+ "]"));
     ("label_latex",
      AStr ("$" +:+ s_name +:+ " \: [\mathrm{" +:+ s_unit +:+ "}]$"));
     ("help", AStr s_help); ("abscissa", AStr "x"); ("n_avg", AInt 1)].

(** [Signal()]: an object over an empty in-memory file. *)
Definition Signal_init : Signal := mkSignal ∅ [].

(** A small loaded signal for the examples: four samples, one second
    apart. *)
Definition demo4 : Signal :=
  (load_nparray [3; 1; 4; 1] "x" "nm" 1 "cantilever displacement"
     Signal_init).2.

(* ================================================================= *)
(** ** [Signal.time_mask_binarate]: the length normalizer *)

(** [n2 = int(math.pow(2, int(math.floor(math.log(n, 2)))))];
    [math.log] refuses [0].  The logarithm is taken exact: the floor of
    the double-precision quotient [log(n)/log(2)] is that of the exact
    logarithm for every [n] below [2^47]. *)
Definition nearest_pow2 (n : Z) : result Z :=
  if (n <=? 0)%Z then Raise ValueError else Ok (2 ^ Z.log2 n)%Z.

(** The [if]/[elif] chain on [mode]; with any other mode [n_start] is
    never bound and the line that builds the mask raises. *)
Definition binarate_bounds (n n2 : Z) (mode : string) : result (Z * Z) :=
  if decide (mode = "middle") then
    let n_start := ((n - n2) / 2)%Z in
    Ok (n_start, (n_start + n2)%Z)
  else if decide (mode = "start") then Ok (0%Z, n2)
  else if decide (mode = "end") then Ok ((n - n2)%Z, n)
  else Raise UnboundLocalError.

(** [(indices >= n_start) & (indices < n_stop)] *)
Definition range_mask (n n_start n_stop : Z) : list bool :=
  map (fun i => (n_start <=? i)%Z && (i <? n_stop)%Z) (seqZ 0 n).

Definition time_mask_binarate (mode : string) : M unit :=
  y ← getitem "y";
  let n := array_size (data y) in
  n2 ← liftR (nearest_pow2 n);
  bounds ← liftR (binarate_bounds n n2 mode);
  let mask := range_mask n bounds.1 bounds.2 in
  create_dataset "workup/time/mask/binarate" (ABool mask);;
  update_attrs "workup/time/mask/binarate"
    [("name", AStr "mask"); ("unit", AStr "unitless");
     ("label", AStr "masking function");
     ("label_latex", AStr "masking function");
     ("help", AStr "mask to make data a power of two in length");
     ("abscissa", AStr "x")];;
  x ← getitem "x";
  x_binarated ← liftR (xs ← as_real (data x); np_getitem_mask xs mask);
  create_dataset "workup/time/x_binarated" (AReal x_binarated);;
  x0 ← liftR (np_item x_binarated 0);
  x1 ← liftR (np_item x_binarated 1);
  update_attrs "workup/time/x_binarated"
    [("name", AStr "t_masked"); ("unit", AStr "s"); ("label", AStr "t [s]");
     ("label_latex", AStr "$t \: [\mathrm{s}]$"); ("help", AStr "time");
     ("initial", ANum x0); ("step", ANum (x1 - x0))].

(* ================================================================= *)
(** ** [Signal.time_window_cyclicize]: the taper builder *)

(** The length the window is built for and the axis it is plotted
    against: the masked length when the binarate mask exists, the
    signal length otherwise. *)
Definition window_length : M (Z * string) :=
  has_mask ← contains "workup/time/mask/binarate";
  if has_mask : bool then
    d ← getitem "workup/time/mask/binarate";
    m ← liftR (as_bool (data d));
    mret (np_count_nonzero m, "workup/time/x_binarated")
  else
    y ← getitem "y";
    mret (array_size (data y), "x").

(** [np.concatenate([np.blackman(2*ww)[0:ww], np.ones(n-2*ww),
    np.blackman(2*ww)[-ww:]])] *)
Definition cyclicize_window (n ww : Z) : result (list R) :=
  ones ← np_ones (n - 2 * ww);
  mret (py_slice (np_blackman (2 * ww)) (Some 0%Z) (Some ww)
        ++ ones
        ++ py_slice (np_blackman (2 * ww)) (Some (- ww)%Z) None).

Definition time_window_cyclicize (tw : R) : M unit :=
  na ← window_length;
  let n := na.1 in
  let abscissa := na.2 in
  dt ← get_step;
  ww ← liftR (py_ceil_div tw dt);
  let tw_actual := IZR ww * dt in
  w ← liftR (cyclicize_window n ww);
  create_dataset "workup/time/window/cyclicize" (AReal w);;
  update_attrs "workup/time/window/cyclicize"
    [("name", AStr "window"); ("unit", AStr "unitless");
     ("label", AStr "windowing function");
     ("label_latex", AStr "windowing function");
     ("help", AStr "window to force the data to start and end at zero");
     ("abscissa", AStr abscissa); ("t_window", ANum tw);
     ("t_window_actual", ANum tw_actual)].

(* ================================================================= *)
(** ** [Signal.fft]: the spectral transform *)

(** The signal the transform works on: [y], masked when the binarate
    mask exists, then multiplied by the window when it exists. *)
Definition working_array : M (list R) :=
  y ← getitem "y";
  s ← liftR (as_real (data y));
  has_mask ← contains "workup/time/mask/binarate";
  s ← (if has_mask : bool then
         d ← getitem "workup/time/mask/binarate";
         m ← liftR (as_bool (data d));
         liftR (np_getitem_mask s m)
       else mret s);
  has_window ← contains "workup/time/window/cyclicize";
  if has_window : bool then
    d ← getitem "workup/time/window/cyclicize";
    w ← liftR (as_real (data d));
    liftR (np_mul w s)
  else mret s.

(** [psd == False]: [dt * np.fft.fftshift(np.fft.fft(s))] *)
Definition fft_linear (s : list R) (dt : R) : result (list C) :=
  X ← np_fft s;
  mret (map (Cscale dt) (np_fftshift X)).

(** [psd == True]:
    [(dt / len(s)) * np.power(abs(np.fft.fftshift(np.fft.fft(s))), 2.0)],
    of which the entries where [freq >= 0] are kept. *)
Definition fft_power_full (s : list R) (dt : R) : result (list R) :=
  X ← np_fft s;
  mret (map (fun z => dt / INR (length s) * Cabs z ^ 2) (np_fftshift X)).

Definition freq_nonneg_mask (freq : list R) : list bool :=
  map (fun v => Rleb 0 v) freq.

Definition fft_power (s : list R) (dt : R) : result (list R) :=
  sFT ← fft_power_full s dt;
  let freq := np_fftshift (np_fftfreq (Z.of_nat (length s)) dt) in
  np_getitem_mask sFT (freq_nonneg_mask freq).

Definition fft (psd : bool) : M unit :=
  s ← working_array;
  dt ← get_step;
  let freq := np_fftshift (np_fftfreq (Z.of_nat (length s)) dt) in
  y ← getitem "y";
  name_orig ← liftR (a ← get_attr y "name"; as_str a);
  unit_orig ← liftR (a ← get_attr y "unit"; as_str a);
  out ← liftR
    (if psd then
       sFT ← fft_power s dt;
       freq' ← np_getitem_mask freq (freq_nonneg_mask freq);
       mret (freq', AReal sFT,
             unit_orig +:+ "^2/Hz",
             "PSD(" +:+ name_orig +:+ ") [" +:+ unit_orig +:+ "^2/Hz]",
             "$P_{" +:+ name_orig +:+ "} \: [\mathrm{" +:+ unit_orig
               +:+ "}^2/\mathrm{Hz}]$",
             "Power spectrum of " +:+ name_orig +:+ "(t)")
     else
       sFT ← fft_linear s dt;
       mret (freq, ACplx sFT,
             unit_orig +:+ "/Hz",
             "FT(" +:+ name_orig +:+ ") [" +:+ unit_orig +:+ "/Hz]",
             "$\hat{" +:+ name_orig +:+ "} \: [\mathrm{" +:+ unit_orig
               +:+ "}/\mathrm{Hz}]$",
             "Fourier transform of " +:+ name_orig +:+ "(t)"));
  let '(freq, sFT, sFTunit, sFTlabel, sFTlabel_latex, sFThelp) := out in
  create_dataset "workup/freq/freq" (AReal (map (fun v => v / 1000) freq));;
  freq0 ← liftR (np_item freq 0);
  freq1 ← liftR (np_item freq 1);
  update_attrs "workup/freq/freq"
    [("name", AStr "f"); ("unit", AStr "kHz"); ("label", AStr "f [kHz]");
     ("label_latex", AStr "$f \: [\mathrm{kHz}]$");
     ("help", AStr "frequency");
     ("initial", ANum freq0); ("step", ANum (freq1 - freq0))];;
  create_dataset "workup/freq/FT" sFT;;
  update_attrs "workup/freq/FT"
    [("name", AStr ("FT(" +:+ name_orig +:+ ")")); ("unit", AStr sFTunit);
     ("label", AStr sFTlabel); ("label_latex", AStr sFTlabel_latex);
     ("help", AStr sFThelp); ("abscissa", AStr "workup/freq/freq");
     ("n_avg", AInt 1)].

(* ================================================================= *)
(** ** [Signal.freq_filter_Hilbert_complex] *)

(** [0.0*(freq < 0) + 1.0*(freq == 0) + 2.0*(freq > 0)] *)
Definition hilbert_weight (v : R) : R :=
  0 * b2r (Rltb v 0) + 1 * b2r (Reqb v 0) + 2 * b2r (Rltb 0 v).

Definition freq_filter_Hilbert_complex : M unit :=
  d ← getitem "workup/freq/freq";
  freq ← liftR (as_real (data d));
  let filt := map hilbert_weight freq in
  create_dataset "workup/freq/filter/Hc" (AReal filt);;
  update_attrs "workup/freq/filter/Hc"
    [("name", AStr "Hc"); ("unit", AStr "unitless"); ("label", AStr "Hc(f)");
     ("label_latex", AStr "$H_c(f)$");
     ("help", AStr "complex Hilbert transform filter");
     ("abscissa", AStr "workup/freq/freq")].

(* ================================================================= *)
(** ** [Signal.freq_filter_bp]: the bandpass filter *)

(** [abs(np.array(...))] of a stored spectrum, complex (linear mode)
    or real (power mode). *)
Definition array_abs (a : array) : result (list R) :=
  match a with
  | AReal l => Ok (map Rabs l)
  | ACplx l => Ok (map Cabs l)
  | ABool _ => Raise TypeError
  end.

(** [fc = freq[np.argmax(Hc * abs(FT))]] *)
Definition center_frequency (freq Hc absFT : list R) : result R :=
  FTrh ← np_mul Hc absFT;
  i ← np_argmax FTrh;
  np_item freq i.

(** [1.0/(1.0 + np.power(abs(freq_scaled), order))]; the order is a
    count ([order >= 0]). *)
Definition bp_brick_wall (freq_scaled : list R) (order : nat) : list R :=
  map (fun u => 1 / (1 + Rabs u ^ order)) freq_scaled.

(** The cosine filter: zero everywhere, then a half sine wave written
    over the positions whose frequency lies in [[fc - bw, fc + bw]]. *)
Definition bp_cosine (freq : list R) (fc bw : R) : list R :=
  let bp := np_zeros (length freq) in
  let sub_index := map (fun v => Rleb (-1 * bw + fc) v && Rleb v (bw + fc)) freq in
  let sub_indices := np_compress sub_index (seq 0 (length freq)) in
  np_put bp sub_indices (map sin (np_linspace 0 PI (length sub_indices))).

(** [np.exp(-1 * np.power(freq_scaled, 2.0))]; over the reals the
    exponential is never zero, while in floating point it rounds to
    zero far from the centre: no property below relies on a weight
    being strictly positive. *)
Definition bp_gaussian (freq_scaled : list R) : list R :=
  map (fun u => exp (-1 * u ^ 2)) freq_scaled.

(** The dispatch on [style]; [None] stands for the local variable [bp]
    left unbound by the final [else], which only prints. *)
Definition bp_weights (style : string) (order : nat) (freq : list R)
    (fc bw : R) : option (list R) :=
  let freq_scaled := map (fun v => (v - fc) / bw) freq in
  if decide (style = "brick wall") then Some (bp_brick_wall freq_scaled order)
  else if decide (style = "cosine") then Some (bp_cosine freq fc bw)
  else if decide (style = "gaussian") then Some (bp_gaussian freq_scaled)
  else None.

Definition freq_filter_bp (bw : R) (order : nat) (style : string) : M unit :=
  dfreq ← getitem "workup/freq/freq";
  freq ← liftR (as_real (data dfreq));
  dHc ← getitem "workup/freq/filter/Hc";
  Hc ← liftR (as_real (data dHc));
  dFT ← getitem "workup/freq/FT";
  absFT ← liftR (array_abs (data dFT));
  fc ← liftR (center_frequency freq Hc absFT);
  bp ← match bp_weights style order freq fc bw with
       | Some bp => mret (Some bp)
       | None => print "**ERROR**: Unrecognized filter function";; mret None
       end;
  bp ← match bp with
       | Some bp => mret bp
       | None => raise UnboundLocalError
       end;
  create_dataset "workup/freq/filter/bp" (AReal bp);;
  update_attrs "workup/freq/filter/bp"
    [("name", AStr "bp"); ("unit", AStr "unitless"); ("label", AStr "bp(f)");
     ("label_latex", AStr "$\mathrm{bp}(f)$");
     ("help", AStr "bandpass filter");
     ("abscissa", AStr "workup/freq/freq")];;
  (* the improved estimate of the centre frequency, for the report *)
  FT_filt ← liftR (a ← np_mul Hc bp; np_mul a absFT);
  freq_FT_filt ← liftR (np_mul freq FT_filt);
  let fc_improved := np_sum freq_FT_filt / np_sum FT_filt in
  mret tt.

(* ================================================================= *)
(** ** [Signal.time_mask_rippleless]: the edge trimmer *)

(** The time axis that is trimmed: the binarated axis when the
    binarate mask exists, the full axis otherwise. *)
Definition active_time_axis : M (list R * string) :=
  has_mask ← contains "workup/time/mask/binarate";
  if has_mask : bool then
    d ← getitem "/workup/time/x_binarated";
    x ← liftR (as_real (data d));
    mret (x, "/workup/time/x_binarated")
  else
    d ← getitem "x";
    x ← liftR (as_real (data d));
    mret (x, "x").

Definition time_mask_rippleless (td : R) : M unit :=
  dt ← get_step;
  ww ← liftR (py_ceil_div td dt);
  let td_actual := IZR ww * dt in
  xa ← active_time_axis;
  let x := xa.1 in
  let abscissa := xa.2 in
  let n := Z.of_nat (length x) in
  let mask := range_mask n ww (n - ww) in
  x_rippleless ← liftR (np_getitem_mask x mask);
  create_dataset "workup/time/mask/rippleless" (ABool mask);;
  update_attrs "workup/time/mask/rippleless"
    [("name", AStr "mask"); ("unit", AStr "unitless");
     ("label", AStr "masking function");
     ("label_latex", AStr "masking function");
     ("help", AStr "mask to remove leading and trailing ripple");
     ("abscissa", AStr abscissa)];;
  create_dataset "workup/time/x_rippleless" (AReal x_rippleless);;
  x0 ← liftR (np_item x_rippleless 0);
  x1 ← liftR (np_item x_rippleless 1);
  update_attrs "workup/time/x_rippleless"
    [("name", AStr "t_masked"); ("unit", AStr "s"); ("label", AStr "t [s]");
     ("label_latex", AStr "$t \: [\mathrm{s}]$"); ("help", AStr "time");
     ("initial", ANum x0); ("step", ANum (x1 - x0))].

(* ================================================================= *)
(** ** [Signal.fit_phase]: the chunked frequency estimator *)

(** [int(n / n_per_chunk)]: true division, truncated towards zero. *)
Definition py_int_div (n d : Z) : result Z :=
  if (d =? 0)%Z then Raise ZeroDivisionError else Ok (Z.quot n d).

(** [a - a[:,:,np.newaxis][:,0,:]*np.ones(n_per_chunk)] on one row:
    the first entry of the row is subtracted from every entry. *)
Definition row_reset (row : list R) : list R :=
  map (fun v => v - hd 0 row * 1) row.

(** The closed-form sums over the equally spaced, origin-shifted time
    axis. *)
Definition SX (dt : R) (n_per_chunk : Z) : R :=
  dt * 0.50 * IZR (n_per_chunk - 1) * IZR n_per_chunk.

Definition SXX (dt : R) (n_per_chunk : Z) : R :=
  dt ^ 2 * (1 / 6.0) * IZR n_per_chunk * IZR (n_per_chunk - 1)
    * IZR (2 * n_per_chunk - 1).

(** The slope of one chunk from its rows of the reshaped time and
    phase arrays. *)
Definition chunk_slope (dt : R) (n_per_chunk : Z) (x_row y_row : list R) : R :=
  let y_reset := row_reset y_row in
  let x_reset := row_reset x_row in
  let SY := np_sum y_reset in
  let SXY := np_sum (zip_with Rmult x_reset y_reset) in
  (IZR n_per_chunk * SXY - SX dt n_per_chunk * SY)
  / (IZR n_per_chunk * SXX dt n_per_chunk
     - SX dt n_per_chunk * SX dt n_per_chunk).

(** [np.mean] of one row. *)
Definition np_mean (row : list R) : R := np_sum row / INR (length row).

Definition fit_phase (dt_chunk_target : R) : M unit :=
  dt ← get_step;
  dp ← getitem "workup/time/p";
  p ← liftR (as_real (data dp));
  let n := Z.of_nat (length p) in
  n_per_chunk ← liftR (py_round_div dt_chunk_target dt);
  let dt_chunk := dt * IZR n_per_chunk in
  n_tot_chunk ← liftR (py_int_div n n_per_chunk);
  let n_total := (n_per_chunk * n_tot_chunk)%Z in
  let y := py_slice p (Some 0%Z) (Some n_total) in
  y_sub ← liftR (np_reshape y n_tot_chunk n_per_chunk);
  abscissa ← liftR (a ← get_attr dp "abscissa"; as_str a);
  dx ← getitem abscissa;
  xs ← liftR (as_real (data dx));
  let x := py_slice xs (Some 0%Z) (Some n_total) in
  x_sub ← liftR (np_reshape x n_tot_chunk n_per_chunk);
  let slope := zip_with (chunk_slope dt n_per_chunk) x_sub y_sub in
  let x_sub_middle := map np_mean x_sub in
  create_dataset "workup/fit/x" (AReal x_sub_middle);;
  update_attrs "workup/fit/x"
    [("name", AStr "t"); ("unit", AStr "s"); ("label", AStr "t [s]");
     ("label_latex", AStr "$t \: [\mathrm{s}]$");
     ("help", AStr "time at the start of each chunk")];;
  create_dataset "workup/fit/y" (AReal slope);;
  update_attrs "workup/fit/y"
    [("name", AStr "f"); ("unit", AStr "cyc/s"); ("label", AStr "f [cyc/s]");
     ("label_latex", AStr "$f \: [\mathrm{cyc/s}]$");
     ("help", AStr "best-fit slope"); ("abscissa", AStr "workup/fit/x")].

(** The small signal with a phase trace over its time axis, as the
    inverse transform would leave it. *)
Definition demo_phase : Signal :=
  ((create_dataset "workup/time/p" (AReal [0; 2; 4; 7]);;
    update_attrs "workup/time/p"
      [("name", AStr "phase"); ("unit", AStr "cyc"); ("abscissa", AStr "x")])
     demo4).2.

(** The spectrum of the tone [1, 0, -1, 0] sampled every 0.25 ms, as
    the linear transform and the Hilbert filter leave it: a frequency
    axis in kHz, the filter [Hc] and the transform, whose positive
    peak is at 1 kHz. *)
Definition demo_spectrum : Signal :=
  ((create_dataset "workup/freq/freq" (AReal [-2; -1; 0; 1]);;
    create_dataset "workup/freq/FT"
      (ACplx [(0, 0); (0.0005, 0); (0, 0); (0.0005, 0)]);;
    create_dataset "workup/freq/filter/Hc" (AReal [0; 0; 1; 2]))
     Signal_init).2.

(* ================================================================= *)
(** ** Reference definitions the properties compare against *)

(** The ordinary least-squares slope of the line fitted to the points
    [(x_k, y_k)]: [(n Sxy - Sx Sy) / (n Sxx - Sx^2)] with the four
    sums taken over the data as they are. *)
Definition ols_slope (xs ys : list R) : R :=
  let n := INR (length xs) in
  (n * np_sum (zip_with Rmult xs ys) - np_sum xs * np_sum ys)
  / (n * np_sum (zip_with Rmult xs xs) - np_sum xs * np_sum xs).

(** The sum of squared residuals of the line [a x + b]. *)
Definition sq_residual (xs ys : list R) (a b : R) : R :=
  np_sum (zip_with (fun x y => (y - (a * x + b)) ^ 2) xs ys).

(** The least-squares intercept that goes with a slope [a]. *)
Definition ols_intercept (xs ys : list R) (a : R) : R :=
  (np_sum ys - a * np_sum xs) / INR (length xs).

(** The line of least squares is compared on the rows of the reshaped
    arrays: row [r] of an array cut into rows of [cols] entries. *)
Definition chunk {A} (cols : nat) (l : list A) (r : nat) : list A :=
  take cols (drop (r * cols) l).

(** The equally spaced, origin-shifted time axis [0, dt, 2 dt, ...]. *)
Definition ramp (dt : R) (n : nat) : list R :=
  map (fun k => INR k * dt) (seq 0 n).

(** The taper in closed form, entry by entry: the rising half of the
    lobe, the plateau, the falling half. *)
Definition window_at (n ww : Z) (i : Z) : R :=
  if (i <? ww)%Z then blackman_at (2 * ww) i
  else if (i <? n - ww)%Z then 1
  else blackman_at (2 * ww) (i - (n - 2 * ww)).

(** The names of the datasets the properties speak about. *)
Definition window_name : string := "workup/time/window/cyclicize".
Definition rippleless_name : string := "workup/time/mask/rippleless".
Definition x_rippleless_name : string := "workup/time/x_rippleless".
Definition freq_name : string := "workup/freq/freq".
Definition FT_name : string := "workup/freq/FT".
Definition bp_name : string := "workup/freq/filter/bp".

(** The message printed for an unrecognized filter style. *)
Definition bp_error : string := "**ERROR**: Unrecognized filter function".

(** The state the edge trimmer leaves behind when the trim is as wide
    as the axis: the all-false mask with its attributes and an empty
    trimmed axis. *)
Definition overtrim_state (st : Signal) (n : nat) (a : string) : Signal :=
  mkSignal
    (<[x_rippleless_name := mkDataset (AReal []) ∅]>
       (f (update_attrs rippleless_name
             [("name", AStr "mask"); ("unit", AStr "unitless");
              ("label", AStr "masking function");
              ("label_latex", AStr "masking function");
              ("help", AStr "mask to remove leading and trailing ripple");
              ("abscissa", AStr a)]
             (mkSignal
                (<[rippleless_name :=
                     mkDataset (ABool (replicate n false)) ∅]> (f st))
                (stdout st))).2))
    (stdout st).

(** An operation keeps the stored arrays when every dataset present
    before it is still present after it, with the same array. *)
Definition keeps {A} (c : M A) : Prop :=
  forall st name d,
    f st !! name = Some d ->
    exists d', f (c st).2 !! name = Some d' /\ data d' = data d.

(** An operation only reads the store when it leaves the state as it
    found it. *)
Definition reads {A} (c : M A) : Prop := forall st, (c st).2 = st.

(* ================================================================= *)
(** ** [Signal.ifft]: the inverse transform and demodulator *)

Definition Cmul (z w : C) : C :=
  (fst z * fst w - snd z * snd w, fst z * snd w + snd z * fst w).

(** A stored spectrum as a complex array: the linear spectrum is
    complex, the power spectrum real. *)
Definition as_complex (a : array) : result (list C) :=
  match a with
  | ACplx l => Ok l
  | AReal l => Ok (map (fun v => (v, 0)) l)
  | ABool _ => Raise TypeError
  end.

(** [s * w] for a complex array [s] and a real array [w], with numpy's
    broadcasting of a one-element array. *)
Definition np_cmul (s : list C) (w : list R) : result (list C) :=
  if decide (length s = length w) then
    Ok (zip_with (fun z v => Cscale v z) s w)
  else match s, w with
       | [z], _ => Ok (map (fun v => Cscale v z) w)
       | _, [v] => Ok (map (Cscale v) s)
       | _, _ => Raise ValueError
       end.

(** [np.fft.ifftshift]: the roll by [-(len(a) // 2)], which undoes
    [np.fft.fftshift]. *)
Definition np_ifftshift {A} (a : list A) : list A :=
  np_roll a (length a - length a / 2).

(** [np.fft.ifft(a)]: the inverse discrete Fourier transform
    [x_j = (1/n) sum_k a_k exp(+2 pi i j k / n)]; an empty array is
    refused. *)
Definition idft_term (n : nat) (j : nat) (k : nat) (z : C) : C :=
  Cmul z (cos (2 * PI * INR j * INR k / INR n),
          sin (2 * PI * INR j * INR k / INR n)).

Definition idft_bin (a : list C) (j : nat) : C :=
  Cscale (1 / INR (length a))
    (foldr Cadd (0, 0) (imap (idft_term (length a) j) a)).

Definition np_ifft (a : list C) : result (list C) :=
  match a with
  | [] => Raise ValueError
  | _ => Ok (map (idft_bin a) (seq 0 (length a)))
  end.

(** [np.angle(z)], that is [arctan2(z.imag, z.real)], with values in
    [(-pi, pi]]; the sign of a floating-point zero is not
    represented. *)
Definition np_arctan2 (y x : R) : R :=
  if Rlt_dec 0 x then atan (y / x)
  else if Rlt_dec x 0 then
    if Rle_dec 0 y then atan (y / x) + PI else atan (y / x) - PI
  else if Rlt_dec 0 y then PI / 2
  else if Rlt_dec y 0 then - (PI / 2)
  else 0.

Definition np_angle (z : C) : R := np_arctan2 (snd z) (fst z).

(** [np.diff(p)] and [np.cumsum(c)]. *)
Definition np_diff (p : list R) : list R :=
  zip_with (fun a b => b - a) p (tail p).

Fixpoint cumsum_from (acc : R) (c : list R) : list R :=
  match c with
  | [] => []
  | v :: c' => (acc + v) :: cumsum_from (acc + v) c'
  end.

Definition np_cumsum (c : list R) : list R := cumsum_from 0 c.

(** [np.mod(x, y)] on floats: [x - floor(x / y) * y]. *)
Definition np_mod (x y : R) : R := x - IZR (py_floor (x / y)) * y.

(** [np.unwrap(p)] with its defaults (period [2 pi], discontinuity
    [pi]): each jump [dd] is reduced to [ddmod] in [[-pi, pi]], the
    boundary value [-pi] being turned into [pi] for a positive jump;
    jumps smaller than [pi] are left alone; the corrections are
    accumulated and added from the second entry on. *)
Definition unwrap_correction (dd : R) : R :=
  let ddmod0 := np_mod (dd - - PI) (2 * PI) + - PI in
  let ddmod := if Reqb ddmod0 (- PI) && Rltb 0 dd then PI else ddmod0 in
  if Rltb (Rabs dd) PI then 0 else ddmod - dd.

Definition np_unwrap (p : list R) : list R :=
  match p with
  | [] => []
  | p0 :: rest =>
      p0 :: zip_with Rplus rest (np_cumsum (map unwrap_correction (np_diff p)))
  end.

(** The time axis the demodulated signal is plotted against. *)
Definition ifft_trim (sIFT : list C) : M (list C * string) :=
  has_ripple ← contains "workup/time/mask/rippleless";
  if has_ripple : bool then
    d ← getitem "workup/time/mask/rippleless";
    mask ← liftR (as_bool (data d));
    sIFT ← liftR (np_getitem_mask sIFT mask);
    mret (sIFT, "workup/time/x_rippleless")
  else
    has_mask ← contains "workup/time/mask/binarate";
    if has_mask : bool then mret (sIFT, "/workup/time/x_binarated")
    else mret (sIFT, "x").

(** The spectrum the inverse transform works on: the stored transform
    over the time step, times the Hilbert filter when it exists, times
    the bandpass filter when it exists. *)
Definition ifft_spectrum : M (list C) :=
  dFT ← getitem "workup/freq/FT";
  FT ← liftR (as_complex (data dFT));
  dt ← get_step;
  let s := map (Cscale (/ dt)) FT in
  has_Hc ← contains "workup/freq/filter/Hc";
  s ← (if has_Hc : bool then
         d ← getitem "workup/freq/filter/Hc";
         Hc ← liftR (as_real (data d));
         liftR (np_cmul s Hc)
       else mret s);
  has_bp ← contains "workup/freq/filter/bp";
  if has_bp : bool then
    d ← getitem "workup/freq/filter/bp";
    bp ← liftR (as_real (data d));
    liftR (np_cmul s bp)
  else mret s.

Definition ifft : M unit :=
  s ← ifft_spectrum;
  sIFT ← liftR (np_ifft (np_ifftshift s));
  sa ← ifft_trim sIFT;
  let sIFT := sa.1 in
  let abscissa := sa.2 in
  create_dataset "workup/time/z" (ACplx sIFT);;
  y ← getitem "y";
  unit_y ← liftR (a ← get_attr y "unit"; as_str a);
  update_attrs "workup/time/z"
    [("name", AStr "z"); ("unit", AStr unit_y);
     ("label", AStr ("z [" +:+ unit_y +:+ "]"));
     ("label_latex", AStr ("$z \: [\mathrm{" +:+ unit_y +:+ "}]$"));
     ("help", AStr "complex cantilever displacement");
     ("abscissa", AStr abscissa)];;
  let p := map (fun v => v / (2 * PI)) (np_unwrap (map np_angle sIFT)) in
  create_dataset "workup/time/p" (AReal p);;
  update_attrs "workup/time/p"
    [("name", AStr "phase"); ("unit", AStr "cyc");
     ("label", AStr "phase [cyc]");
     ("label_latex", AStr "$\phi \: [\mathrm{cyc}]$");
     ("help", AStr "cantilever phase"); ("abscissa", AStr abscissa)];;
  let a := map Cabs sIFT in
  create_dataset "workup/time/a" (AReal a);;
  update_attrs "workup/time/a"
    [("name", AStr "amplitude"); ("unit", AStr unit_y);
     ("label", AStr ("a [" +:+ unit_y +:+ "]"));
     ("label_latex", AStr ("$a \: [\mathrm{" +:+ unit_y +:+ "}]$"));
     ("help", AStr "cantilever amplitude"); ("abscissa", AStr abscissa)].

(* ================================================================= *)
(** ** [Signal.fit_amplitude]: the objective of the decay fit *)

(** [fcn2min]: the model [a0 exp(-x/tau) + a1] minus the data, over
    the standard deviation, entry by entry. *)
Definition decay_model (a0 a1 tau : R) (x : R) : R :=
  a0 * exp (- x / tau) + a1.

(** An arithmetic operation on two one-dimensional arrays, with
    numpy's broadcasting of a one-element array. *)
Definition np_binop (op : R -> R -> R) (a b : list R) : result (list R) :=
  if decide (length a = length b) then Ok (zip_with op a b)
  else match a, b with
       | [u], _ => Ok (map (op u) b)
       | _, [v] => Ok (map (fun u => op u v) a)
       | _, _ => Raise ValueError
       end.

Definition fcn2min (a0 a1 tau : R) (x y y_stdev : list R) : result (list R) :=
  d ← np_binop Rminus (map (decay_model a0 a1 tau) x) y;
  np_binop Rdiv d y_stdev.

(** [y_calc = y + y_stdev * result.residual] *)
Definition y_calc (y y_stdev residual : list R) : result (list R) :=
  m ← np_binop Rmult y_stdev residual;
  np_binop Rplus y m.

(* ================================================================= *)
(** ** What a stage may write *)

(** An operation touches only the datasets named in [names] when every
    other path of the file is after it what it was before it. *)
Definition touches {A} (names : list string) (c : M A) : Prop :=
  forall st n, n ∉ names -> f (c st).2 !! n = f st !! n.

(** The names the length normalizer stores under. *)
Definition binarate_name : string := "workup/time/mask/binarate".
Definition x_binarated_name : string := "workup/time/x_binarated".


(** The small signal with a phase trace that is an exact line over its
    time axis: two cycles per second. *)
Definition demo_tone : Signal :=
  ((create_dataset "workup/time/p" (AReal [0; 2; 4; 6]);;
    update_attrs "workup/time/p"
      [("name", AStr "phase"); ("unit", AStr "cyc"); ("abscissa", AStr "x")])
     demo4).2.

(** The signal of two samples, one second apart. *)
Definition demo2 : Signal :=
  (load_nparray [3; 1] "x" "nm" 1 "cantilever displacement" Signal_init).2.

(* ================================================================= *)
(** * Properties *)

(** ** Running the monad *)

Lemma bind_unfold {A B} (c : M A) (k : A -> M B) st :
  (c ≫= k) st =
  match c st with
  | (Ok a, st') => k a st'
  | (Raise e, st') => (Raise e, st')
  end.
Proof. reflexivity. Qed.

Lemma bind_ok {A B} (c : M A) (k : A -> M B) st a st' :
  c st = (Ok a, st') -> (c ≫= k) st = k a st'.
Proof. intros H. rewrite bind_unfold, H. reflexivity. Qed.

Lemma bind_raise {A B} (c : M A) (k : A -> M B) st e st' :
  c st = (Raise e, st') -> (c ≫= k) st = (Raise e, st').
Proof. intros H. rewrite bind_unfold, H. reflexivity. Qed.

Lemma bind_liftR {A B} (r : result A) (k : A -> M B) st :
  (liftR r ≫= k) st =
  match r with
  | Ok a => k a st
  | Raise e => (Raise e, st)
  end.
Proof. rewrite bind_unfold. unfold liftR. destruct r; reflexivity. Qed.

Lemma getitem_some name st d :
  f st !! h5path name = Some d -> getitem name st = (Ok d, st).
Proof. intros H. unfold getitem. rewrite H. reflexivity. Qed.

Lemma getitem_none name st :
  f st !! h5path name = None -> getitem name st = (Raise KeyError, st).
Proof. intros H. unfold getitem. rewrite H. reflexivity. Qed.

Lemma contains_some name st d :
  f st !! h5path name = Some d -> contains name st = (Ok true, st).
Proof.
  intros H. unfold contains. rewrite H.
  rewrite bool_decide_eq_true_2 by eauto. reflexivity.
Qed.

Lemma contains_none name st :
  f st !! h5path name = None -> contains name st = (Ok false, st).
Proof.
  intros H. unfold contains. rewrite H.
  rewrite bool_decide_eq_false_2; [reflexivity|].
  intros [? ?]; discriminate.
Qed.

Lemma create_dataset_fresh name a st :
  f st !! name = None ->
  create_dataset name a st
  = (Ok tt, mkSignal (<[name := mkDataset a ∅]> (f st)) (stdout st)).
Proof. intros H. unfold create_dataset. rewrite H. reflexivity. Qed.

Lemma create_dataset_taken name a st d :
  f st !! name = Some d -> create_dataset name a st = (Raise NameExists, st).
Proof. intros H. unfold create_dataset. rewrite H. reflexivity. Qed.

Lemma bind_update_attrs {B} name kvs (k : unit -> M B) st :
  (update_attrs name kvs ≫= k) st = k tt (update_attrs name kvs st).2.
Proof. reflexivity. Qed.

Lemma lookup_update_attrs_ne name kvs st n :
  name <> n -> f (update_attrs name kvs st).2 !! n = f st !! n.
Proof. intros H. unfold update_attrs. cbn. apply lookup_alter_ne, H. Qed.

Lemma lookup_update_attrs_eq name kvs st d :
  f st !! name = Some d ->
  exists d', f (update_attrs name kvs st).2 !! name = Some d'
             /\ data d' = data d.
Proof.
  intros H. unfold update_attrs. cbn. rewrite lookup_alter_eq, H.
  eexists. split; reflexivity.
Qed.

Lemma lookup_update_attrs_some name kvs st d :
  f st !! name = Some d ->
  f (update_attrs name kvs st).2 !! name
  = Some (mkDataset (data d)
            (foldl (fun m kv => <[kv.1 := kv.2]> m) (attrs d) kvs)).
Proof.
  intros H. unfold update_attrs. cbn. rewrite lookup_alter_eq, H.
  reflexivity.
Qed.

Lemma stdout_update_attrs name kvs st :
  stdout (update_attrs name kvs st).2 = stdout st.
Proof. reflexivity. Qed.

(** Step over a [create_dataset] whose name is free in the current
    store. *)
Ltac step_create :=
  match goal with
  | |- context [ (create_dataset ?n ?a ≫= ?k) ?s ] =>
      let H := fresh "Hfree" in
      assert (H : f s !! n = None)
        by (rewrite ?lookup_update_attrs_ne by discriminate; cbn [f];
            rewrite ?lookup_insert_ne by discriminate; assumption);
      rewrite (bind_ok _ _ _ _ _ (create_dataset_fresh n a s H)); clear H
  end.

(** ** Stored arrays are never overwritten

    Every operation on the store keeps the array of each dataset that
    is already there; only attributes are added. *)

Lemma keeps_ret {A} (a : A) : keeps (mret a).
Proof. intros st name d H. exists d. auto. Qed.

Lemma keeps_raise {A} e : keeps (@raise A e).
Proof. intros st name d H. exists d. auto. Qed.

Lemma keeps_liftR {A} (r : result A) : keeps (liftR r).
Proof. intros st name d H. exists d. auto. Qed.

Lemma keeps_contains name : keeps (contains name).
Proof. intros st n d H. exists d. auto. Qed.

Lemma keeps_getitem name : keeps (getitem name).
Proof.
  intros st n d H. exists d. unfold getitem.
  destruct (f st !! h5path name); auto.
Qed.

Lemma keeps_print msg : keeps (print msg).
Proof. intros st n d H. exists d. auto. Qed.

Lemma keeps_create_dataset name a : keeps (create_dataset name a).
Proof.
  intros st n d H. unfold create_dataset.
  destruct (f st !! name) eqn:E; simpl.
  - exists d. auto.
  - exists d. split; [|reflexivity].
    rewrite lookup_insert_ne; [assumption|]. intros ->. congruence.
Qed.

Lemma keeps_update_attrs name kvs : keeps (update_attrs name kvs).
Proof.
  intros st n d H. unfold update_attrs. simpl.
  destruct (decide (name = n)) as [->|Hne].
  - rewrite lookup_alter_eq, H. simpl. eauto.
  - rewrite lookup_alter_ne by assumption. eauto.
Qed.

Lemma keeps_bind {A B} (c : M A) (k : A -> M B) :
  keeps c -> (forall a, keeps (k a)) -> keeps (c ≫= k).
Proof.
  intros Hc Hk st n d H. rewrite bind_unfold.
  destruct (Hc st n d H) as (d1 & H1 & E1).
  destruct (c st) as [[a|e] st1]; simpl in *.
  - destruct (Hk a st1 n d1 H1) as (d2 & H2 & E2).
    exists d2. split; [assumption|congruence].
  - exists d1. auto.
Qed.

Lemma keeps_get_step : keeps get_step.
Proof.
  unfold get_step. apply keeps_bind; [apply keeps_getitem|].
  intros a. apply keeps_liftR.
Qed.

Create HintDb keeps.

#[local] Hint Resolve keeps_ret keeps_raise keeps_liftR keeps_contains
  keeps_getitem keeps_print keeps_create_dataset keeps_update_attrs
  keeps_get_step : keeps.

Ltac keeps_tac :=
  repeat first
    [ apply keeps_bind; [|intros ?]
    | progress eauto with keeps
    | match goal with
      | |- keeps (if ?b then _ else _) => destruct b
      | |- keeps (match ?x with _ => _ end) => destruct x
      | |- keeps (let '(_, _) := ?x in _) => destruct x
      end ].

Lemma keeps_time_mask_binarate mode : keeps (time_mask_binarate mode).
Proof. unfold time_mask_binarate. keeps_tac. Qed.

(** ** Integer and real helpers *)

Lemma nearest_pow2_ok n :
  (1 <= n)%Z ->
  nearest_pow2 n = Ok (2 ^ Z.log2 n)%Z /\ (1 <= 2 ^ Z.log2 n <= n)%Z.
Proof.
  intros Hn. unfold nearest_pow2.
  destruct (Z.leb_spec n 0); [lia|]. split; [reflexivity|].
  pose proof (Z.log2_spec n ltac:(lia)) as [Hlo _].
  pose proof (Z.log2_nonneg n).
  pose proof (Z.pow_pos_nonneg 2 (Z.log2 n) ltac:(lia) ltac:(lia)).
  lia.
Qed.

Lemma py_ceil_IZR z : py_ceil (IZR z) = z.
Proof. unfold py_ceil. apply Zceil_eq. lra. Qed.

Lemma py_ceil_bound x : IZR (py_ceil x) - 1 < x <= IZR (py_ceil x).
Proof. apply Zceil_bound. Qed.

Lemma py_ceil_div_IZR z dt :
  dt <> 0 -> py_ceil_div (IZR z * dt) dt = Ok z.
Proof.
  intros Hdt. unfold py_ceil_div, div_guard.
  destruct (Req_dec_T dt 0); [contradiction|]. simpl.
  replace (IZR z * dt / dt) with (IZR z) by (field; assumption).
  rewrite py_ceil_IZR. reflexivity.
Qed.

Lemma py_ceil_div_ok t dt :
  dt <> 0 -> py_ceil_div t dt = Ok (py_ceil (t / dt)).
Proof.
  intros Hdt. unfold py_ceil_div, div_guard.
  destruct (Req_dec_T dt 0); [contradiction|]. reflexivity.
Qed.

(** ** Masks over an index range *)

Lemma range_mask_length n a b : length (range_mask n a b) = Z.to_nat n.
Proof. unfold range_mask. rewrite length_map, length_seqZ. reflexivity. Qed.

Lemma range_mask_lookup n a b (i : nat) :
  (Z.of_nat i < n)%Z ->
  range_mask n a b !! i = Some (bool_decide (a <= Z.of_nat i < b)%Z).
Proof.
  intros Hi. unfold range_mask.
  rewrite list_lookup_fmap, lookup_seqZ_lt by assumption. simpl. f_equal.
  rewrite Z.add_0_l.
  destruct (Z.leb_spec a (Z.of_nat i)), (Z.ltb_spec (Z.of_nat i) b); simpl;
    symmetry; (apply bool_decide_eq_true_2 || apply bool_decide_eq_false_2); lia.
Qed.

Lemma map_seqZ_const {A} (g : Z -> A) (v : A) m len :
  (forall k, (m <= k < m + len)%Z -> g k = v) ->
  map g (seqZ m len) = replicate (Z.to_nat len) v.
Proof.
  intros Hg. apply list_eq. intros i.
  rewrite list_lookup_fmap.
  destruct (decide (Z.of_nat i < len)%Z) as [Hi|Hi].
  - rewrite lookup_seqZ_lt by assumption. simpl.
    rewrite lookup_replicate_2 by lia. f_equal. apply Hg. lia.
  - rewrite lookup_seqZ_ge by lia. simpl. symmetry.
    apply lookup_replicate_None. lia.
Qed.

Lemma range_mask_blocks n a b :
  (0 <= a)%Z -> (a <= b)%Z -> (b <= n)%Z ->
  range_mask n a b
  = replicate (Z.to_nat a) false ++ replicate (Z.to_nat (b - a)) true
    ++ replicate (Z.to_nat (n - b)) false.
Proof.
  intros Ha Hab Hbn. unfold range_mask.
  replace n with (a + ((b - a) + (n - b)))%Z at 1 by lia.
  rewrite seqZ_app by lia. rewrite seqZ_app by lia.
  rewrite !map_app. rewrite Z.add_0_l.
  f_equal; [|f_equal].
  - apply map_seqZ_const. intros k Hk.
    destruct (Z.leb_spec a k); [lia|]. reflexivity.
  - apply map_seqZ_const. intros k Hk.
    destruct (Z.leb_spec a k), (Z.ltb_spec k b); try lia; try reflexivity.
  - apply map_seqZ_const. intros k Hk.
    destruct (Z.leb_spec a k), (Z.ltb_spec k b); try lia; try reflexivity.
Qed.

Lemma count_nonzero_app m1 m2 :
  np_count_nonzero (m1 ++ m2) = (np_count_nonzero m1 + np_count_nonzero m2)%Z.
Proof. unfold np_count_nonzero. rewrite filter_app, length_app. lia. Qed.

Lemma count_nonzero_true k : np_count_nonzero (replicate k true) = Z.of_nat k.
Proof.
  unfold np_count_nonzero. induction k as [|k IH]; [reflexivity|].
  cbn [replicate]. rewrite filter_cons_True by reflexivity.
  cbn [length]. lia.
Qed.

Lemma count_nonzero_false k : np_count_nonzero (replicate k false) = 0%Z.
Proof.
  unfold np_count_nonzero. induction k as [|k IH]; [reflexivity|].
  cbn [replicate]. rewrite filter_cons_False by discriminate. exact IH.
Qed.

Lemma range_mask_count n a b :
  (0 <= a)%Z -> (a <= b)%Z -> (b <= n)%Z ->
  np_count_nonzero (range_mask n a b) = (b - a)%Z.
Proof.
  intros Ha Hab Hbn. rewrite range_mask_blocks by assumption.
  rewrite !count_nonzero_app, count_nonzero_true, !count_nonzero_false. lia.
Qed.

(** ** C2: the length normalizer *)

Lemma binarate_bounds_ok n n2 mode start :
  (mode = "start" /\ start = 0%Z)
  \/ (mode = "middle" /\ start = ((n - n2) / 2)%Z)
  \/ (mode = "end" /\ start = (n - n2)%Z) ->
  exists stop, binarate_bounds n n2 mode = Ok (start, stop)
               /\ stop = (start + n2)%Z.
Proof.
  unfold binarate_bounds.
  intros [[-> ->]|[[-> ->]|[-> ->]]]; simpl; eexists; split;
    try reflexivity; lia.
Qed.

(** C2. For a signal of [n >= 1] samples and a mode among start,
    middle and end, the mask stored by the length normalizer has
    length [n]; its true entries are exactly the [n2 = 2^floor(log2 n)]
    consecutive positions from [start] on, where [start] is [0],
    [floor((n - n2)/2)] or [n - n2] according to the mode, and every
    other entry is false. *)
Theorem C2_time_mask_binarate (st : Signal) (dy : Dataset) (mode : string)
    (start : Z) :
  let n := array_size (data dy) in
  let n2 := (2 ^ Z.log2 n)%Z in
  f st !! "y" = Some dy ->
  (1 <= n)%Z ->
  f st !! "workup/time/mask/binarate" = None ->
  (mode = "start" /\ start = 0%Z)
  \/ (mode = "middle" /\ start = ((n - n2) / 2)%Z)
  \/ (mode = "end" /\ start = (n - n2)%Z) ->
  exists d mask,
    f (time_mask_binarate mode st).2 !! "workup/time/mask/binarate" = Some d
    /\ data d = ABool mask
    /\ Z.of_nat (length mask) = n
    /\ (0 <= start)%Z /\ (start + n2 <= n)%Z
    /\ (forall i : nat, (Z.of_nat i < n)%Z ->
          mask !! i = Some (bool_decide (start <= Z.of_nat i < start + n2)%Z))
    /\ np_count_nonzero mask = n2.
Proof.
  intros n n2 Hy Hn Hfresh Hmode.
  destruct (nearest_pow2_ok n Hn) as [Hp2 Hn2]. fold n2 in Hp2, Hn2.
  destruct (binarate_bounds_ok n n2 mode start Hmode) as (stop & Hb & ->).
  assert (Hstart : (0 <= start /\ start + n2 <= n)%Z).
  { destruct Hmode as [[_ ->]|[[_ ->]|[_ ->]]]; [lia| |lia].
    split; [apply Z.div_pos; lia|].
    pose proof (Z.mul_div_le (n - n2) 2 ltac:(lia)). lia. }
  unfold time_mask_binarate.
  rewrite (bind_ok _ _ _ _ _ (getitem_some "y" st dy Hy)).
  fold n. rewrite bind_liftR, Hp2. rewrite bind_liftR, Hb. cbn [fst snd].
  rewrite (bind_ok _ _ _ _ _ (create_dataset_fresh _ _ _ Hfresh)).
  match goal with
  | |- context [ (?c ?s).2 ] =>
      assert (Hk : keeps c) by keeps_tac;
      destruct (Hk s "workup/time/mask/binarate"
                  (mkDataset (ABool (range_mask n start (start + n2))) ∅))
        as (d' & Hd' & Hdata);
      [apply lookup_insert_eq|]
  end.
  exists d', (range_mask n start (start + n2)).
  split; [exact Hd'|]. split; [exact Hdata|].
  split; [rewrite range_mask_length; lia|].
  split; [lia|]. split; [lia|].
  split; [intros i Hi; apply range_mask_lookup; assumption|].
  rewrite range_mask_count by lia. lia.
Qed.

Lemma C2_time_mask_binarate_witness :
  exists d mask,
    f (time_mask_binarate "middle"
         (mkSignal (<["y" := mkDataset (AReal [3; 1; 4; 1; 5; 9]) ∅]> ∅) [])).2
      !! "workup/time/mask/binarate" = Some d
    /\ data d = ABool mask
    /\ Z.of_nat (length mask) = 6%Z
    /\ (0 <= 1)%Z /\ (1 + 4 <= 6)%Z
    /\ (forall i : nat, (Z.of_nat i < 6)%Z ->
          mask !! i = Some (bool_decide (1 <= Z.of_nat i < 1 + 4)%Z))
    /\ np_count_nonzero mask = 4%Z.
Proof.
  apply (C2_time_mask_binarate
           (mkSignal (<["y" := mkDataset (AReal [3; 1; 4; 1; 5; 9]) ∅]> ∅) [])
           (mkDataset (AReal [3; 1; 4; 1; 5; 9]) ∅) "middle" 1%Z).
  - reflexivity.
  - simpl. lia.
  - reflexivity.
  - right. left. split; reflexivity.
Defined.

(** ** The Blackman lobe and the taper *)

Lemma blackman_quadratic c :
  -1 <= c <= 1 ->
  0 <= 0.42 - 0.5 * c + 0.08 * (2 * c * c - 1) <= 1.
Proof. intros Hc. split; nra. Qed.

Lemma blackman_at_range M n : 0 <= blackman_at M n <= 1.
Proof.
  unfold blackman_at.
  set (t := 2 * PI * IZR n / IZR (M - 1)).
  replace (4 * PI * IZR n / IZR (M - 1)) with (2 * t) by (unfold t; lra).
  rewrite cos_2a_cos.
  apply blackman_quadratic. apply COS_bound.
Qed.

Lemma cos_2PI_minus t : cos (2 * PI - t) = cos t.
Proof.
  replace (2 * PI - t) with (- t + 2 * INR 1 * PI) by (simpl; lra).
  rewrite cos_period. apply cos_neg.
Qed.

Lemma cos_4PI_minus t : cos (4 * PI - t) = cos t.
Proof.
  replace (4 * PI - t) with (- t + 2 * INR 2 * PI) by (simpl; lra).
  rewrite cos_period. apply cos_neg.
Qed.

Lemma blackman_at_sym M n :
  (2 <= M)%Z -> blackman_at M (M - 1 - n) = blackman_at M n.
Proof.
  intros HM. unfold blackman_at.
  assert (HM1 : IZR (M - 1) <> 0) by (apply not_0_IZR; lia).
  rewrite minus_IZR.
  replace (2 * PI * (IZR (M - 1) - IZR n) / IZR (M - 1))
    with (2 * PI - 2 * PI * IZR n / IZR (M - 1)) by (field; assumption).
  replace (4 * PI * (IZR (M - 1) - IZR n) / IZR (M - 1))
    with (4 * PI - 4 * PI * IZR n / IZR (M - 1)) by (field; assumption).
  rewrite cos_2PI_minus, cos_4PI_minus. reflexivity.
Qed.

Lemma np_blackman_length M : (0 <= M)%Z -> length (np_blackman M) = Z.to_nat M.
Proof.
  intros HM. unfold np_blackman.
  destruct (Z.ltb_spec M 1).
  - assert (M = 0%Z) by lia. subst. reflexivity.
  - destruct (Z.eqb_spec M 1).
    + subst. reflexivity.
    + rewrite length_map, length_seqZ. reflexivity.
Qed.

Lemma np_blackman_lookup M (i : nat) :
  (2 <= M)%Z -> (Z.of_nat i < M)%Z ->
  np_blackman M !! i = Some (blackman_at M (Z.of_nat i)).
Proof.
  intros HM Hi. unfold np_blackman.
  destruct (Z.ltb_spec M 1); [lia|].
  destruct (Z.eqb_spec M 1); [lia|].
  rewrite list_lookup_fmap, lookup_seqZ_lt by assumption. simpl.
  rewrite Z.add_0_l. reflexivity.
Qed.

(** The two slices taken out of the lobe. *)
Lemma py_slice_prefix {A} (l : list A) ww :
  (0 <= ww <= Z.of_nat (length l))%Z ->
  py_slice l (Some 0%Z) (Some ww) = take (Z.to_nat ww) l.
Proof.
  intros H. unfold py_slice, slice_index.
  destruct (Z.ltb_spec 0 0); [lia|]. destruct (Z.ltb_spec ww 0); [lia|].
  rewrite !Z.max_r, !Z.min_r by lia. simpl. rewrite Z.sub_0_r.
  rewrite drop_0. reflexivity.
Qed.

Lemma py_slice_suffix {A} (l : list A) ww :
  (0 < ww <= Z.of_nat (length l))%Z ->
  py_slice l (Some (- ww)%Z) None = drop (length l - Z.to_nat ww) l.
Proof.
  intros H. unfold py_slice, slice_index.
  destruct (Z.ltb_spec (- ww) 0); [|lia].
  rewrite Z.min_r, Z.max_r by lia.
  replace (Z.to_nat (- ww + Z.of_nat (length l))) with (length l - Z.to_nat ww)%nat
    by lia.
  apply take_ge. rewrite length_drop. lia.
Qed.

Lemma py_slice_nil {A} a b : py_slice (@nil A) a b = [].
Proof. unfold py_slice. rewrite drop_nil, take_nil. reflexivity. Qed.

Lemma cyclicize_window_fails n ww :
  (n < 2 * ww)%Z -> cyclicize_window n ww = Raise ValueError.
Proof.
  intros H. unfold cyclicize_window, np_ones.
  destruct (Z.ltb_spec (n - 2 * ww) 0); [reflexivity|lia].
Qed.

Lemma cyclicize_window_ok n ww :
  (2 * ww <= n)%Z ->
  exists w, cyclicize_window n ww = Ok w.
Proof.
  intros H. unfold cyclicize_window, np_ones.
  destruct (Z.ltb_spec (n - 2 * ww) 0); [lia|]. simpl. eauto.
Qed.

Lemma cyclicize_window_negative n ww :
  (ww <= 0)%Z -> (0 <= n)%Z ->
  cyclicize_window n ww = Ok (replicate (Z.to_nat (n - 2 * ww)) 1).
Proof.
  intros Hww Hn. unfold cyclicize_window, np_ones.
  destruct (Z.ltb_spec (n - 2 * ww) 0); [lia|]. simpl.
  assert (HB : np_blackman (2 * ww) = []).
  { unfold np_blackman. destruct (Z.ltb_spec (2 * ww) 1); [reflexivity|lia]. }
  rewrite HB, !py_slice_nil. simpl. rewrite app_nil_r. reflexivity.
Qed.

Lemma cyclicize_window_shape n ww :
  (0 <= ww)%Z -> (2 * ww <= n)%Z ->
  exists w,
    cyclicize_window n ww = Ok w
    /\ length w = Z.to_nat n
    /\ forall i : nat, (Z.of_nat i < n)%Z ->
         w !! i = Some (window_at n ww (Z.of_nat i)).
Proof.
  intros Hww Hn.
  destruct (decide (ww = 0%Z)) as [->|Hnz].
  { rewrite cyclicize_window_negative by lia.
    eexists. split; [reflexivity|]. split.
    - rewrite length_replicate. lia.
    - intros i Hi. rewrite lookup_replicate_2 by lia.
      unfold window_at. destruct (Z.ltb_spec (Z.of_nat i) 0); [lia|].
      destruct (Z.ltb_spec (Z.of_nat i) (n - 0)); [reflexivity|lia]. }
  unfold cyclicize_window, np_ones.
  destruct (Z.ltb_spec (n - 2 * ww) 0); [lia|]. simpl.
  pose proof (np_blackman_length (2 * ww) ltac:(lia)) as HL.
  rewrite py_slice_prefix, py_slice_suffix by lia. rewrite HL.
  eexists. split; [reflexivity|]. split.
  - rewrite !length_app, length_take, length_drop, length_replicate, HL. lia.
  - intros i Hi. unfold window_at.
    destruct (Z.ltb_spec (Z.of_nat i) ww) as [H1|H1].
    + rewrite lookup_app_l by (rewrite length_take, HL; lia).
      rewrite lookup_take_lt by lia.
      apply np_blackman_lookup; lia.
    + rewrite lookup_app_r by (rewrite length_take, HL; lia).
      rewrite length_take, HL.
      destruct (Z.ltb_spec (Z.of_nat i) (n - ww)) as [H2|H2].
      * rewrite lookup_app_l by (rewrite length_replicate; lia).
        apply lookup_replicate_2. lia.
      * rewrite lookup_app_r by (rewrite length_replicate; lia).
        rewrite length_replicate, lookup_drop.
        rewrite np_blackman_lookup by lia. do 2 f_equal. lia.
Qed.

Lemma window_at_range n ww i : 0 <= window_at n ww i <= 1.
Proof.
  unfold window_at.
  destruct (i <? ww)%Z; [apply blackman_at_range|].
  destruct (i <? n - ww)%Z; [lra|apply blackman_at_range].
Qed.

Lemma window_at_sym n ww i :
  (0 <= ww)%Z -> (2 * ww <= n)%Z -> (0 <= i < n)%Z ->
  window_at n ww (n - 1 - i) = window_at n ww i.
Proof.
  intros Hww Hn Hi. unfold window_at.
  destruct (Z.ltb_spec i ww), (Z.ltb_spec (n - 1 - i) ww),
    (Z.ltb_spec i (n - ww)), (Z.ltb_spec (n - 1 - i) (n - ww));
    try lia; try reflexivity.
  - rewrite <- (blackman_at_sym (2 * ww) i) by lia. f_equal. lia.
  - rewrite <- (blackman_at_sym (2 * ww) (n - 1 - i)) by lia. f_equal. lia.
Qed.

(** ** C5 and C6: the taper builder on the store *)

Lemma time_window_cyclicize_fails st tw m a dt :
  window_length st = (Ok (m, a), st) ->
  get_step st = (Ok dt, st) ->
  dt <> 0 ->
  (m < 2 * py_ceil (tw / dt))%Z ->
  time_window_cyclicize tw st = (Raise ValueError, st).
Proof.
  intros Hlen Hstep Hdt Hww. unfold time_window_cyclicize.
  rewrite (bind_ok _ _ _ _ _ Hlen). cbn [fst snd].
  rewrite (bind_ok _ _ _ _ _ Hstep).
  rewrite bind_liftR, py_ceil_div_ok by assumption.
  rewrite bind_liftR, cyclicize_window_fails by assumption.
  reflexivity.
Qed.

Lemma time_window_cyclicize_succeeds st tw m a dt w :
  window_length st = (Ok (m, a), st) ->
  get_step st = (Ok dt, st) ->
  dt <> 0 ->
  cyclicize_window m (py_ceil (tw / dt)) = Ok w ->
  f st !! window_name = None ->
  exists d,
    (time_window_cyclicize tw st).1 = Ok tt
    /\ f (time_window_cyclicize tw st).2 !! window_name = Some d
    /\ data d = AReal w.
Proof.
  intros Hlen Hstep Hdt Hw Hfresh. unfold time_window_cyclicize.
  rewrite (bind_ok _ _ _ _ _ Hlen). cbn [fst snd].
  rewrite (bind_ok _ _ _ _ _ Hstep).
  rewrite bind_liftR, py_ceil_div_ok by assumption.
  rewrite bind_liftR, Hw.
  rewrite (bind_ok _ _ _ _ _ (create_dataset_fresh _ _ _ Hfresh)).
  unfold update_attrs. cbn [fst snd f].
  eexists. split; [reflexivity|]. split.
  - unfold window_name. rewrite lookup_alter_eq, lookup_insert_eq. reflexivity.
  - reflexivity.
Qed.


Lemma demo4_window_length : window_length demo4 = (Ok (4%Z, "x"), demo4).
Proof. reflexivity. Qed.

Lemma demo4_step : get_step demo4 = (Ok 1, demo4).
Proof. reflexivity. Qed.

Lemma window_length_nonneg st m a st' :
  window_length st = (Ok (m, a), st') -> (0 <= m)%Z.
Proof.
  unfold window_length. rewrite bind_unfold. unfold contains.
  destruct (bool_decide (is_Some (f st !! h5path "workup/time/mask/binarate"))).
  - rewrite bind_unfold. unfold getitem.
    destruct (f st !! h5path "workup/time/mask/binarate"); [|discriminate].
    rewrite bind_liftR. destruct (as_bool (data d)); [|discriminate].
    intros [= <- _ _]. unfold np_count_nonzero. lia.
  - rewrite bind_unfold. unfold getitem.
    destruct (f st !! h5path "y"); [|discriminate].
    intros [= <- _ _]. unfold array_size. destruct (data d); lia.
Qed.

Lemma cyclicize_window_no_plateau m ww :
  (0 <= m)%Z -> (2 * ww = m)%Z ->
  cyclicize_window m ww = Ok (np_blackman m).
Proof.
  intros Hm <-. destruct (decide (ww = 0%Z)) as [->|Hnz].
  { rewrite cyclicize_window_negative by lia. reflexivity. }
  unfold cyclicize_window, np_ones.
  destruct (Z.ltb_spec (2 * ww - 2 * ww) 0); [lia|]. simpl.
  pose proof (np_blackman_length (2 * ww) ltac:(lia)) as HL.
  rewrite py_slice_prefix, py_slice_suffix by lia. rewrite HL.
  replace (Z.to_nat (2 * ww - 2 * ww)) with 0%nat by lia. simpl.
  replace (Z.to_nat (2 * ww) - Z.to_nat ww)%nat with (Z.to_nat ww) by lia.
  rewrite take_drop. reflexivity.
Qed.

(** C5, as the code has it. With [ww = ceil(tw/dt)] and effective
    working length [m], the taper builder fails exactly when
    [2 ww > m], and then leaves the store as it was; for [2 ww <= m]
    it succeeds, and at [2 ww = m] the window it stores is the whole
    Blackman lobe of [m] points, the two halves back to back with no
    plateau between them. *)
Theorem C5_taper_fails_beyond_record (st : Signal) (tw : R) (m : Z)
    (a : string) (dt : R) :
  window_length st = (Ok (m, a), st) ->
  get_step st = (Ok dt, st) ->
  dt <> 0 ->
  f st !! window_name = None ->
  let ww := py_ceil (tw / dt) in
  ((m < 2 * ww)%Z -> time_window_cyclicize tw st = (Raise ValueError, st))
  /\ ((2 * ww <= m)%Z -> (time_window_cyclicize tw st).1 = Ok tt)
  /\ ((2 * ww = m)%Z ->
       exists d, f (time_window_cyclicize tw st).2 !! window_name = Some d
                 /\ data d = AReal (np_blackman m)).
Proof.
  intros Hlen Hstep Hdt Hfresh ww. split; [|split].
  - intros H. eapply time_window_cyclicize_fails; eassumption.
  - intros H. destruct (cyclicize_window_ok m ww H) as [w Hw].
    destruct (time_window_cyclicize_succeeds st tw m a dt w) as (d & ? & _);
      assumption.
  - intros H. pose proof (window_length_nonneg _ _ _ _ Hlen) as Hm.
    destruct (time_window_cyclicize_succeeds st tw m a dt (np_blackman m))
      as (d & _ & ? & ?); try assumption.
    + apply cyclicize_window_no_plateau; assumption.
    + eauto.
Qed.

Lemma py_ceil_small (z : Z) (x : R) : x = IZR z -> py_ceil x = z.
Proof. intros ->. apply py_ceil_IZR. Qed.

Lemma C5_taper_fails_beyond_record_witness :
  time_window_cyclicize 3 demo4 = (Raise ValueError, demo4)
  /\ (time_window_cyclicize 1 demo4).1 = Ok tt.
Proof.
  pose proof (C5_taper_fails_beyond_record demo4 3 4 "x" 1
                demo4_window_length demo4_step ltac:(lra) eq_refl)
    as (Hfail & _ & _).
  pose proof (C5_taper_fails_beyond_record demo4 1 4 "x" 1
                demo4_window_length demo4_step ltac:(lra) eq_refl)
    as (_ & Hok & _).
  split.
  - apply Hfail. rewrite (py_ceil_small 3) by lra. lia.
  - apply Hok. rewrite (py_ceil_small 1) by lra. lia.
Defined.

(** C5 as stated fails at [2 ww = m]: with four samples one second
    apart and [tw = 2] seconds, [2 ceil(tw/dt) = 4 >= 4], yet the call
    returns normally and stores the four-point lobe, which has no
    plateau. *)
Lemma C5_counterexample :
  window_length demo4 = (Ok (4%Z, "x"), demo4)
  /\ get_step demo4 = (Ok 1, demo4)
  /\ (2 * py_ceil (2 / 1) >= 4)%Z
  /\ (time_window_cyclicize 2 demo4).1 = Ok tt
  /\ exists d, f (time_window_cyclicize 2 demo4).2 !! window_name = Some d
               /\ data d = AReal (np_blackman 4).
Proof.
  assert (Hww : py_ceil (2 / 1) = 2%Z) by (apply py_ceil_small; lra).
  split; [reflexivity|]. split; [reflexivity|].
  split; [rewrite Hww; lia|].
  destruct (time_window_cyclicize_succeeds demo4 2 4 "x" 1 (np_blackman 4))
    as (d & Hok & Hd & Hdata); try reflexivity; try lra.
  - rewrite Hww. apply cyclicize_window_no_plateau; lia.
  - split; [exact Hok|]. exists d. auto.
Qed.

(** The shape of the stored taper for a window width of [ww >= 0]
    samples that leaves a plateau. *)
Lemma taper_shape_for_width (st : Signal) (tw : R) (m : Z) (a : string)
    (dt : R) :
  window_length st = (Ok (m, a), st) ->
  get_step st = (Ok dt, st) ->
  dt <> 0 ->
  f st !! window_name = None ->
  (0 <= py_ceil (tw / dt))%Z ->
  (2 * py_ceil (tw / dt) < m)%Z ->
  exists d w,
    (time_window_cyclicize tw st).1 = Ok tt
    /\ f (time_window_cyclicize tw st).2 !! window_name = Some d
    /\ data d = AReal w
    /\ Z.of_nat (length w) = m
    /\ (forall (i : nat) v, w !! i = Some v -> 0 <= v <= 1)
    /\ (forall i : nat, (Z.of_nat i < m)%Z ->
          w !! i = w !! Z.to_nat (m - 1 - Z.of_nat i)).
Proof.
  intros Hlen Hstep Hdt Hfresh Hww0 Hww.
  destruct (cyclicize_window_shape m (py_ceil (tw / dt)))
    as (w & Hw & HL & Hat); [lia..|].
  destruct (time_window_cyclicize_succeeds st tw m a dt w)
    as (d & Hok & Hd & Hdata); try assumption.
  exists d, w. repeat split; try assumption.
  - lia.
  - apply lookup_lt_Some in H as Hi.
    rewrite Hat in H by lia. injection H as <-. apply window_at_range.
  - apply lookup_lt_Some in H as Hi.
    rewrite Hat in H by lia. injection H as <-. apply window_at_range.
  - intros i Hi. rewrite !Hat by lia. f_equal.
    rewrite Z2Nat.id by lia. symmetry. apply window_at_sym; lia.
Qed.

Lemma py_ceil_nonneg (x : R) : 0 <= x -> (0 <= py_ceil x)%Z.
Proof.
  intros Hx. pose proof (py_ceil_bound x) as [_ Hhi].
  apply le_IZR. lra.
Qed.

(** C6. For every width [tw >= 0] over a time step [dt > 0] with
    [2 ceil(tw/dt) < m], the taper builder succeeds and the window it
    stores has length exactly [m], every weight in the closed interval
    [[0, 1]], and is symmetric: [w[i] = w[m-1-i]] for every index
    [i]. *)
Theorem C6_taper_shape (st : Signal) (tw : R) (m : Z) (a : string) (dt : R) :
  window_length st = (Ok (m, a), st) ->
  get_step st = (Ok dt, st) ->
  0 < dt ->
  0 <= tw ->
  f st !! window_name = None ->
  (2 * py_ceil (tw / dt) < m)%Z ->
  exists d w,
    (time_window_cyclicize tw st).1 = Ok tt
    /\ f (time_window_cyclicize tw st).2 !! window_name = Some d
    /\ data d = AReal w
    /\ Z.of_nat (length w) = m
    /\ (forall (i : nat) v, w !! i = Some v -> 0 <= v <= 1)
    /\ (forall i : nat, (Z.of_nat i < m)%Z ->
          w !! i = w !! Z.to_nat (m - 1 - Z.of_nat i)).
Proof.
  intros Hlen Hstep Hdt Htw Hfresh Hww.
  apply (taper_shape_for_width st tw m a dt); try assumption.
  - lra.
  - apply py_ceil_nonneg. apply Rmult_le_pos; [exact Htw|].
    apply Rlt_le, Rinv_0_lt_compat, Hdt.
Qed.

Lemma C6_taper_shape_witness :
  exists d w,
    (time_window_cyclicize 1 demo4).1 = Ok tt
    /\ f (time_window_cyclicize 1 demo4).2 !! window_name = Some d
    /\ data d = AReal w
    /\ Z.of_nat (length w) = 4%Z
    /\ (forall (i : nat) v, w !! i = Some v -> 0 <= v <= 1)
    /\ (forall i : nat, (Z.of_nat i < 4)%Z ->
          w !! i = w !! Z.to_nat (4 - 1 - Z.of_nat i)).
Proof.
  apply (C6_taper_shape demo4 1 4 "x" 1 demo4_window_length demo4_step).
  - lra.
  - lra.
  - reflexivity.
  - rewrite (py_ceil_small 1) by lra. lia.
Defined.

(** ** C8: the edge trimmer *)

Lemma keeps_time_mask_rippleless td : keeps (time_mask_rippleless td).
Proof. unfold time_mask_rippleless, active_time_axis. keeps_tac. Qed.

Lemma range_mask_empty n a b :
  (b <= a)%Z -> range_mask n a b = replicate (Z.to_nat n) false.
Proof.
  intros H. unfold range_mask. apply map_seqZ_const. intros k _.
  destruct (Z.leb_spec a k), (Z.ltb_spec k b); try lia; reflexivity.
Qed.

Lemma np_compress_none {A} (a : list A) :
  np_compress (replicate (length a) false) a = [].
Proof. induction a as [|v a IH]; [reflexivity|exact IH]. Qed.

Lemma np_getitem_mask_none {A} (a : list A) :
  np_getitem_mask a (replicate (length a) false) = Ok [].
Proof.
  unfold np_getitem_mask. rewrite length_replicate.
  destruct (decide (length a = length a)); [|contradiction].
  rewrite np_compress_none. reflexivity.
Qed.

Lemma time_mask_rippleless_overtrim (st : Signal) (td : R) (x : list R)
    (a : string) (dt : R) :
  get_step st = (Ok dt, st) ->
  dt <> 0 ->
  active_time_axis st = (Ok (x, a), st) ->
  f st !! rippleless_name = None ->
  f st !! x_rippleless_name = None ->
  (2 * py_ceil (td / dt) >= Z.of_nat (length x))%Z ->
  time_mask_rippleless td st
  = (Raise IndexError, overtrim_state st (length x) a).
Proof.
  intros Hstep Hdt Haxis Hf1 Hf2 Hww.
  unfold time_mask_rippleless.
  rewrite (bind_ok _ _ _ _ _ Hstep).
  rewrite bind_liftR, py_ceil_div_ok by assumption.
  rewrite (bind_ok _ _ _ _ _ Haxis); cbn [fst snd].
  rewrite range_mask_empty by lia.
  rewrite Nat2Z.id, bind_liftR, np_getitem_mask_none.
  rewrite (bind_ok _ _ _ _ _ (create_dataset_fresh _ _ _ Hf1)).
  rewrite bind_update_attrs. step_create.
  rewrite bind_liftR. reflexivity.
Qed.

(** C8, as the code has it. When the edge trimmer is called with a
    dead time such that [2 ceil(td/dt) >= n_axis], it fails with an
    index error, but only after it has stored the trim mask, all
    false, and an empty trimmed time axis; the arrays stored before
    the call are left as they were. *)
Theorem C8_edge_trimmer_failure (st : Signal) (td : R) (x : list R)
    (a : string) (dt : R) :
  get_step st = (Ok dt, st) ->
  dt <> 0 ->
  active_time_axis st = (Ok (x, a), st) ->
  f st !! rippleless_name = None ->
  f st !! x_rippleless_name = None ->
  (2 * py_ceil (td / dt) >= Z.of_nat (length x))%Z ->
  (time_mask_rippleless td st).1 = Raise IndexError
  /\ (exists d, f (time_mask_rippleless td st).2 !! rippleless_name = Some d
                /\ data d = ABool (replicate (length x) false))
  /\ (exists d, f (time_mask_rippleless td st).2 !! x_rippleless_name = Some d
                /\ data d = AReal [])
  /\ (forall name d, f st !! name = Some d ->
        exists d', f (time_mask_rippleless td st).2 !! name = Some d'
                   /\ data d' = data d).
Proof.
  intros Hstep Hdt Haxis Hf1 Hf2 Hww.
  split; [|split; [|split]].
  - rewrite (time_mask_rippleless_overtrim st td x a dt) by assumption.
    reflexivity.
  - rewrite (time_mask_rippleless_overtrim st td x a dt) by assumption.
    unfold overtrim_state. cbn [fst snd f].
    rewrite lookup_insert_ne by discriminate.
    apply (lookup_update_attrs_eq _ _ _
             (mkDataset (ABool (replicate (length x) false)) ∅)).
    apply lookup_insert_eq.
  - rewrite (time_mask_rippleless_overtrim st td x a dt) by assumption.
    unfold overtrim_state. cbn [fst snd f].
    eexists. split; [apply lookup_insert_eq|reflexivity].
  - intros name d Hd. apply keeps_time_mask_rippleless. exact Hd.
Qed.

Lemma demo4_axis :
  active_time_axis demo4 = (Ok ([1 * 0; 1 * 1; 1 * 2; 1 * 3], "x"), demo4).
Proof. reflexivity. Qed.

Lemma C8_edge_trimmer_failure_witness :
  (time_mask_rippleless 2 demo4).1 = Raise IndexError
  /\ (exists d, f (time_mask_rippleless 2 demo4).2 !! rippleless_name = Some d
                /\ data d = ABool (replicate 4 false))
  /\ (exists d, f (time_mask_rippleless 2 demo4).2 !! x_rippleless_name = Some d
                /\ data d = AReal [])
  /\ (forall name d, f demo4 !! name = Some d ->
        exists d', f (time_mask_rippleless 2 demo4).2 !! name = Some d'
                   /\ data d' = data d).
Proof.
  apply (C8_edge_trimmer_failure demo4 2 [1 * 0; 1 * 1; 1 * 2; 1 * 3] "x" 1
           demo4_step ltac:(lra) demo4_axis eq_refl eq_refl).
  rewrite (py_ceil_small 2) by lra. simpl. lia.
Defined.

(** C8 as stated fails: with four samples one second apart and a dead
    time of two seconds, [2 ceil(td/dt) = 4 >= 4]; the call fails, yet
    the store, which held neither output before, now holds a trim mask
    and a trimmed time axis. *)
Lemma C8_counterexample :
  (2 * py_ceil (2 / 1) >= 4)%Z
  /\ f demo4 !! rippleless_name = None
  /\ f demo4 !! x_rippleless_name = None
  /\ (time_mask_rippleless 2 demo4).1 = Raise IndexError
  /\ is_Some (f (time_mask_rippleless 2 demo4).2 !! rippleless_name)
  /\ is_Some (f (time_mask_rippleless 2 demo4).2 !! x_rippleless_name)
  /\ f (time_mask_rippleless 2 demo4).2 <> f demo4.
Proof.
  assert (Hww : (2 * py_ceil (2 / 1) >= 4)%Z)
    by (rewrite (py_ceil_small 2) by lra; lia).
  pose proof (time_mask_rippleless_overtrim demo4 2
                [1 * 0; 1 * 1; 1 * 2; 1 * 3] "x" 1
                demo4_step ltac:(lra) demo4_axis eq_refl eq_refl Hww) as Hrun.
  rewrite Hrun.
  split; [exact Hww|]. split; [reflexivity|]. split; [reflexivity|].
  split; [reflexivity|]. split; [eexists; reflexivity|].
  split; [eexists; reflexivity|].
  intros Heq.
  assert (Hx : f (Raise IndexError,
                  overtrim_state demo4 (length [1 * 0; 1 * 1; 1 * 2; 1 * 3])
                    "x").2 !! x_rippleless_name = None)
    by (rewrite Heq; reflexivity).
  discriminate Hx.
Qed.

(** ** Sums over arrays *)

Lemma np_sum_nil : np_sum [] = 0.
Proof. reflexivity. Qed.

Lemma np_sum_cons v l : np_sum (v :: l) = v + np_sum l.
Proof. reflexivity. Qed.

#[local] Arguments np_sum : simpl never.

Lemma np_sum_app l1 l2 : np_sum (l1 ++ l2) = np_sum l1 + np_sum l2.
Proof.
  induction l1 as [|v l1 IH]; simpl.
  - rewrite np_sum_nil. lra.
  - rewrite !np_sum_cons, IH. lra.
Qed.

Lemma np_sum_shift (c : R) l :
  np_sum (map (fun v => v - c) l) = np_sum l - INR (length l) * c.
Proof.
  induction l as [|v l IH].
  - simpl. rewrite np_sum_nil. lra.
  - cbn [map length]. rewrite !np_sum_cons, IH, S_INR. lra.
Qed.

Lemma np_sum_shift_prod (a b : R) xs ys :
  length xs = length ys ->
  np_sum (zip_with Rmult (map (fun v => v - a) xs) (map (fun v => v - b) ys))
  = np_sum (zip_with Rmult xs ys) - b * np_sum xs - a * np_sum ys
    + INR (length xs) * a * b.
Proof.
  revert ys. induction xs as [|x xs IH]; intros [|y ys] Hlen;
    try discriminate.
  - simpl. rewrite np_sum_nil. lra.
  - cbn [map zip_with length]. rewrite !np_sum_cons, S_INR.
    rewrite IH by (simpl in Hlen; lia). lra.
Qed.

(** The least-squares slope does not change when a constant is taken
    off all abscissas and another off all ordinates. *)
Lemma ols_slope_shift (a b : R) xs ys :
  length xs = length ys ->
  ols_slope (map (fun v => v - a) xs) (map (fun v => v - b) ys)
  = ols_slope xs ys.
Proof.
  intros Hlen. unfold ols_slope.
  rewrite length_map.
  rewrite (np_sum_shift_prod a b xs ys Hlen).
  rewrite (np_sum_shift_prod a a xs xs eq_refl).
  rewrite !np_sum_shift, <- Hlen.
  f_equal; ring.
Qed.

Lemma ramp_S dt n : ramp dt (S n) = ramp dt n ++ [INR n * dt].
Proof. unfold ramp. rewrite seq_S, map_app. reflexivity. Qed.

Lemma ramp_length dt n : length (ramp dt n) = n.
Proof. unfold ramp. rewrite length_map, length_seq. reflexivity. Qed.

Lemma np_sum_ramp dt n :
  np_sum (ramp dt n) = dt * 0.50 * (INR n - 1) * INR n.
Proof.
  induction n as [|n IH].
  - unfold ramp, np_sum. simpl. lra.
  - rewrite ramp_S, np_sum_app, IH, S_INR, np_sum_cons, np_sum_nil. lra.
Qed.

Lemma zip_with_app_single (l1 l2 : list R) u v :
  length l1 = length l2 ->
  zip_with Rmult (l1 ++ [u]) (l2 ++ [v]) = zip_with Rmult l1 l2 ++ [u * v].
Proof. intros H. rewrite zip_with_app by assumption. reflexivity. Qed.

Lemma np_sum_ramp_sq dt n :
  np_sum (zip_with Rmult (ramp dt n) (ramp dt n))
  = dt ^ 2 * (1 / 6.0) * INR n * (INR n - 1) * (2 * INR n - 1).
Proof.
  induction n as [|n IH].
  - unfold ramp, np_sum. simpl. lra.
  - rewrite ramp_S, zip_with_app_single by reflexivity.
    rewrite np_sum_app, IH, S_INR, np_sum_cons, np_sum_nil. simpl. lra.
Qed.

(** A row of equally spaced times, reset to its origin, is the ramp. *)
Lemma row_reset_ramp dt x0 (x_row : list R) :
  (forall k : nat, (k < length x_row)%nat ->
     x_row !! k = Some (x0 + INR k * dt)) ->
  row_reset x_row = ramp dt (length x_row).
Proof.
  intros Hx. apply list_eq. intros k. unfold row_reset, ramp.
  rewrite !list_lookup_fmap.
  destruct (decide (k < length x_row)%nat) as [Hk|Hk].
  - rewrite (Hx k Hk), lookup_seq_lt by assumption. simpl. f_equal.
    assert (H0 : hd 0 x_row = x0).
    { destruct x_row as [|v l]; [simpl in Hk; lia|].
      specialize (Hx 0%nat ltac:(simpl; lia)). simpl in Hx.
      injection Hx as ->. simpl. lra. }
    rewrite H0. lra.
  - rewrite lookup_ge_None_2 by lia.
    rewrite lookup_seq_ge by lia. reflexivity.
Qed.

Lemma row_reset_shift (row : list R) :
  row_reset row = map (fun v => v - hd 0 row) row.
Proof. unfold row_reset. apply map_ext. intros v. lra. Qed.

(** The slope of one chunk is the least-squares slope of the chunk. *)
Lemma chunk_slope_ols (dt x0 : R) (n_per_chunk : Z) (x_row y_row : list R) :
  Z.of_nat (length x_row) = n_per_chunk ->
  length y_row = length x_row ->
  (forall k : nat, (k < length x_row)%nat ->
     x_row !! k = Some (x0 + INR k * dt)) ->
  chunk_slope dt n_per_chunk x_row y_row = ols_slope x_row y_row.
Proof.
  intros Hn Hlen Hx.
  rewrite <- (ols_slope_shift (hd 0 x_row) (hd 0 y_row) x_row y_row)
    by (symmetry; assumption).
  rewrite <- !row_reset_shift.
  unfold chunk_slope, ols_slope.
  rewrite (row_reset_ramp dt x0 x_row Hx).
  rewrite np_sum_ramp, np_sum_ramp_sq, ramp_length.
  unfold SX, SXX. subst n_per_chunk.
  rewrite !minus_IZR, mult_IZR, <- !INR_IZR_INZ.
  reflexivity.
Qed.

(** For at least two samples and a non-zero step the denominator of
    the slope is positive, so the slope is a genuine quotient. *)
Lemma chunk_denominator_pos (dt : R) (n_per_chunk : Z) :
  (2 <= n_per_chunk)%Z -> dt <> 0 ->
  0 < IZR n_per_chunk * SXX dt n_per_chunk
      - SX dt n_per_chunk * SX dt n_per_chunk.
Proof.
  intros Hn Hdt. unfold SX, SXX.
  rewrite !minus_IZR, mult_IZR.
  assert (H2 : 2 <= IZR n_per_chunk) by (apply IZR_le; assumption).
  set (n := IZR n_per_chunk) in *.
  replace (1 / 6.0) with (/ 6) by lra. replace 0.50 with (/ 2) by lra.
  replace (n * (dt ^ 2 * / 6 * n * (n - 1) * (2 * n - 1))
           - dt * / 2 * (n - 1) * n * (dt * / 2 * (n - 1) * n))
    with (dt ^ 2 * (n * n * (n - 1) * (n + 1) / 12)) by field.
  apply Rmult_lt_0_compat.
  - simpl. nra.
  - assert (0 < n * n * (n - 1) * (n + 1)); [|lra].
    repeat apply Rmult_lt_0_compat; lra.
Qed.

(** ** The least-squares line *)

Lemma sq_residual_expand xs ys a b :
  length xs = length ys ->
  sq_residual xs ys a b
  = np_sum (zip_with Rmult ys ys) - 2 * a * np_sum (zip_with Rmult xs ys)
    - 2 * b * np_sum ys + a * a * np_sum (zip_with Rmult xs xs)
    + 2 * a * b * np_sum xs + INR (length xs) * b * b.
Proof.
  unfold sq_residual. revert ys.
  induction xs as [|x xs IH]; intros [|y ys] Hlen; try discriminate.
  - simpl. rewrite !np_sum_nil. lra.
  - cbn [zip_with length]. rewrite !np_sum_cons, S_INR.
    rewrite IH by (simpl in Hlen; lia). simpl. lra.
Qed.

Lemma quadratic_minimum (n Sx Sy Sxx Sxy Syy a b : R) :
  0 < n -> 0 < n * Sxx - Sx * Sx ->
  let ah := (n * Sxy - Sx * Sy) / (n * Sxx - Sx * Sx) in
  let bh := (Sy - ah * Sx) / n in
  Syy - 2 * ah * Sxy - 2 * bh * Sy + ah * ah * Sxx + 2 * ah * bh * Sx
    + n * bh * bh
  <= Syy - 2 * a * Sxy - 2 * b * Sy + a * a * Sxx + 2 * a * b * Sx
     + n * b * b.
Proof.
  intros Hn HD ah bh.
  assert (Hdiff :
    (Syy - 2 * a * Sxy - 2 * b * Sy + a * a * Sxx + 2 * a * b * Sx
       + n * b * b)
    - (Syy - 2 * ah * Sxy - 2 * bh * Sy + ah * ah * Sxx + 2 * ah * bh * Sx
       + n * bh * bh)
    = n * ((b - bh) + Sx * (a - ah) / n) ^ 2
      + (n * Sxx - Sx * Sx) / n * (a - ah) ^ 2).
  { unfold bh, ah. field. split; lra. }
  assert (0 <= n * ((b - bh) + Sx * (a - ah) / n) ^ 2).
  { apply Rmult_le_pos; [lra|apply pow2_ge_0]. }
  assert (0 <= (n * Sxx - Sx * Sx) / n * (a - ah) ^ 2).
  { apply Rmult_le_pos; [|apply pow2_ge_0].
    apply Rlt_le, Rdiv_lt_0_compat; assumption. }
  lra.
Qed.

(** Whenever its denominator is positive, [ols_slope] with its
    intercept is the line of least squared residual. *)
Lemma ols_slope_least_squares xs ys :
  length xs = length ys ->
  0 < INR (length xs) * np_sum (zip_with Rmult xs xs) - np_sum xs * np_sum xs ->
  forall a b,
    sq_residual xs ys (ols_slope xs ys) (ols_intercept xs ys (ols_slope xs ys))
    <= sq_residual xs ys a b.
Proof.
  intros Hlen HD a b.
  assert (Hn : 0 < INR (length xs)).
  { destruct xs as [|x xs].
    - simpl in HD. rewrite !np_sum_nil in HD. lra.
    - apply lt_0_INR. simpl. lia. }
  rewrite !sq_residual_expand by assumption.
  unfold ols_intercept, ols_slope.
  apply quadratic_minimum; assumption.
Qed.

(** Equally spaced abscissas with a non-zero step, at least two of
    them, make that denominator positive. *)
Lemma equally_spaced_denominator (dt x0 : R) (xs : list R) :
  (2 <= length xs)%nat -> dt <> 0 ->
  (forall k : nat, (k < length xs)%nat -> xs !! k = Some (x0 + INR k * dt)) ->
  0 < INR (length xs) * np_sum (zip_with Rmult xs xs) - np_sum xs * np_sum xs.
Proof.
  intros Hn Hdt Hx.
  pose proof (np_sum_shift_prod (hd 0 xs) (hd 0 xs) xs xs eq_refl) as Hsq.
  pose proof (np_sum_shift (hd 0 xs) xs) as Hs.
  rewrite <- !row_reset_shift in Hsq, Hs.
  rewrite (row_reset_ramp dt x0 xs Hx) in Hsq, Hs.
  rewrite np_sum_ramp_sq in Hsq. rewrite np_sum_ramp in Hs.
  pose proof (chunk_denominator_pos dt (Z.of_nat (length xs)) ltac:(lia) Hdt)
    as Hpos.
  unfold SX, SXX in Hpos.
  rewrite !minus_IZR, mult_IZR, <- !INR_IZR_INZ in Hpos.
  set (n := INR (length xs)) in *.
  set (S1 := np_sum xs) in *.
  set (S2 := np_sum (zip_with Rmult xs xs)) in *.
  set (c := hd 0 xs) in *.
  replace (n * S2 - S1 * S1)
    with (n * (S2 - c * S1 - c * S1 + n * c * c)
          - (S1 - n * c) * (S1 - n * c)) by ring.
  rewrite <- Hsq, <- Hs. exact Hpos.
Qed.

(** ** C10: a chunk of zero samples *)

Lemma py_round_IZR z : py_round (IZR z) = z.
Proof.
  unfold py_round, py_floor. rewrite ZfloorZ.
  destruct (Rlt_dec (IZR z - IZR z) (1 / 2)); [reflexivity|lra].
Qed.

Lemma py_round_zero x : -1 / 2 <= x <= 1 / 2 -> py_round x = 0%Z.
Proof.
  intros Hx. unfold py_round, py_floor.
  destruct (Rlt_dec x 0) as [Hneg|Hpos].
  - rewrite (Zfloor_eq (-1) x) by lra.
    destruct (Rlt_dec (x - -1) (1 / 2)); [lra|].
    destruct (Rlt_dec (1 / 2) (x - -1)); reflexivity.
  - rewrite (Zfloor_eq 0 x) by lra.
    destruct (Rlt_dec (x - 0) (1 / 2)); [reflexivity|].
    destruct (Rlt_dec (1 / 2) (x - 0)); [lra|reflexivity].
Qed.

Lemma py_round_div_ok t dt :
  dt <> 0 -> py_round_div t dt = Ok (py_round (t / dt)).
Proof.
  intros Hdt. unfold py_round_div, div_guard.
  destruct (Req_dec_T dt 0); [contradiction|]. reflexivity.
Qed.

(** C10. When the target chunk duration rounds to zero samples, the
    chunked frequency estimator fails with a division by zero and the
    store is what it was: no frequency-versus-time array has been
    created. *)
Theorem C10_fit_phase_zero_chunk (st : Signal) (dt_chunk_target dt : R)
    (dp : Dataset) (p : list R) :
  get_step st = (Ok dt, st) ->
  dt <> 0 ->
  f st !! "workup/time/p" = Some dp ->
  as_real (data dp) = Ok p ->
  py_round (dt_chunk_target / dt) = 0%Z ->
  fit_phase dt_chunk_target st = (Raise ZeroDivisionError, st).
Proof.
  intros Hstep Hdt Hp Hreal Hround. unfold fit_phase.
  rewrite (bind_ok _ _ _ _ _ Hstep).
  rewrite (bind_ok _ _ _ _ _ (getitem_some "workup/time/p" st dp Hp)).
  rewrite bind_liftR, Hreal.
  rewrite bind_liftR, py_round_div_ok, Hround by assumption.
  rewrite bind_liftR. reflexivity.
Qed.

Lemma demo_phase_step : get_step demo_phase = (Ok 1, demo_phase).
Proof. reflexivity. Qed.

Lemma C10_fit_phase_zero_chunk_witness :
  fit_phase 0.25 demo_phase = (Raise ZeroDivisionError, demo_phase)
  /\ f demo_phase !! "workup/fit/x" = None
  /\ f demo_phase !! "workup/fit/y" = None.
Proof.
  split; [|split; reflexivity].
  eapply (C10_fit_phase_zero_chunk demo_phase 0.25 1).
  - exact demo_phase_step.
  - lra.
  - reflexivity.
  - reflexivity.
  - apply py_round_zero. lra.
Defined.

(** ** C1: the chunked least-squares fit *)

Lemma chunk_length {A} cols (l : list A) r :
  (r * cols + cols <= length l)%nat -> length (chunk cols l r) = cols.
Proof. intros H. unfold chunk. rewrite length_take, length_drop. lia. Qed.

Lemma chunk_lookup {A} cols (l : list A) r k :
  (k < cols)%nat -> chunk cols l r !! k = l !! (r * cols + k)%nat.
Proof.
  intros H. unfold chunk. rewrite lookup_take_lt by assumption.
  apply lookup_drop.
Qed.

Lemma chunk_take {A} cols (l : list A) r m :
  (r * cols + cols <= m)%nat -> chunk cols (take m l) r = chunk cols l r.
Proof.
  intros H. unfold chunk. apply list_eq. intros k.
  destruct (decide (k < cols)%nat) as [Hk|Hk].
  - rewrite !lookup_take_lt by assumption. rewrite !lookup_drop.
    apply lookup_take_lt. lia.
  - rewrite !lookup_take_ge by lia. reflexivity.
Qed.

Lemma np_reshape_rows {A} (l : list A) (rows cols : Z) m :
  (0 <= rows)%Z -> (0 <= cols)%Z ->
  m = Z.to_nat (rows * cols) -> (m <= length l)%nat ->
  np_reshape (take m l) rows cols
  = Ok (map (chunk (Z.to_nat cols) l) (seq 0 (Z.to_nat rows))).
Proof.
  intros Hr Hc -> Hm. unfold np_reshape.
  destruct (Z.ltb_spec rows 0); [lia|]. destruct (Z.ltb_spec cols 0); [lia|].
  simpl. rewrite length_take, Nat.min_l by assumption.
  destruct (decide (Z.of_nat (Z.to_nat (rows * cols)) = (rows * cols)%Z));
    [|lia].
  f_equal. apply map_ext_in. intros r Hin. apply in_seq in Hin.
  apply chunk_take. nia.
Qed.

Lemma py_slice_take {A} (l : list A) m :
  (0 <= m <= Z.of_nat (length l))%Z ->
  py_slice l (Some 0%Z) (Some m) = take (Z.to_nat m) l.
Proof. apply py_slice_prefix. Qed.

Lemma keeps_fit_phase t : keeps (fit_phase t).
Proof. unfold fit_phase. keeps_tac. Qed.

Lemma fit_phase_succeeds (st : Signal) (dt_chunk_target dt : R)
    (dp dx : Dataset) (p xs : list R) (a : string) :
  get_step st = (Ok dt, st) ->
  dt <> 0 ->
  f st !! "workup/time/p" = Some dp ->
  as_real (data dp) = Ok p ->
  get_attr dp "abscissa" = Ok (AStr a) ->
  f st !! h5path a = Some dx ->
  as_real (data dx) = Ok xs ->
  (length p <= length xs)%nat ->
  (1 <= py_round (dt_chunk_target / dt))%Z ->
  f st !! "workup/fit/x" = None ->
  f st !! "workup/fit/y" = None ->
  let n_per_chunk := py_round (dt_chunk_target / dt) in
  let n_tot_chunk := (Z.of_nat (length p) / n_per_chunk)%Z in
  exists d,
    (fit_phase dt_chunk_target st).1 = Ok tt
    /\ f (fit_phase dt_chunk_target st).2 !! "workup/fit/y" = Some d
    /\ data d
       = AReal (map (fun c => chunk_slope dt n_per_chunk
                                (chunk (Z.to_nat n_per_chunk) xs c)
                                (chunk (Z.to_nat n_per_chunk) p c))
                    (seq 0 (Z.to_nat n_tot_chunk))).
Proof.
  intros Hstep Hdt Hp Hreal Habs Hx Hxreal Hlen Hnpc Hf1 Hf2 npc ntot.
  assert (Hquot : Z.quot (Z.of_nat (length p)) npc = ntot)
    by (apply Z.quot_div_nonneg; lia).
  assert (Hntot : (0 <= ntot)%Z) by (apply Z.div_pos; lia).
  assert (Htotal : (npc * ntot <= Z.of_nat (length p))%Z)
    by (apply Z.mul_div_le; lia).
  unfold fit_phase.
  rewrite (bind_ok _ _ _ _ _ Hstep).
  rewrite (bind_ok _ _ _ _ _ (getitem_some "workup/time/p" st dp Hp)).
  rewrite bind_liftR, Hreal.
  rewrite bind_liftR, py_round_div_ok by assumption. fold npc.
  rewrite bind_liftR. unfold py_int_div.
  destruct (Z.eqb_spec npc 0); [lia|]. rewrite Hquot.
  rewrite !py_slice_take by lia.
  rewrite bind_liftR.
  rewrite (np_reshape_rows p ntot npc) by lia.
  rewrite bind_liftR, Habs. cbn [mbind result_bind as_str].
  rewrite (bind_ok _ _ _ _ _ (getitem_some a st dx Hx)).
  rewrite bind_liftR, Hxreal.
  rewrite py_slice_take by lia.
  rewrite bind_liftR.
  rewrite (np_reshape_rows xs ntot npc) by lia.
  step_create. rewrite bind_update_attrs. step_create.
  eexists. split; [reflexivity|]. split.
  - cbn [snd]. apply lookup_update_attrs_some. apply lookup_insert_eq.
  - cbn [data]. f_equal.
    rewrite zip_with_fmap_l, zip_with_fmap_r, zip_with_diag.
    reflexivity.
Qed.

(** C1. On a phase trace whose time axis is equally spaced with the
    stored step [dt], with [n_per_chunk >= 2] samples per chunk, the
    chunked frequency estimator succeeds and stores one slope per
    chunk; the slope of chunk [c], which the code computes from the
    closed-form sums [SX], [SXX] and the sums [SY], [SXY] over the
    origin-shifted chunk, equals the ordinary least-squares slope of
    the chunk's phase against its time, the slope of the line of least
    squared residual. *)
Theorem C1_fit_phase_least_squares (st : Signal) (dt_chunk_target dt x0 : R)
    (n_per_chunk : Z) (dp dx : Dataset) (p xs : list R) (a : string) :
  get_step st = (Ok dt, st) ->
  dt <> 0 ->
  f st !! "workup/time/p" = Some dp ->
  as_real (data dp) = Ok p ->
  get_attr dp "abscissa" = Ok (AStr a) ->
  f st !! h5path a = Some dx ->
  as_real (data dx) = Ok xs ->
  (length p <= length xs)%nat ->
  (forall i : nat, (i < length xs)%nat -> xs !! i = Some (x0 + INR i * dt)) ->
  py_round (dt_chunk_target / dt) = n_per_chunk ->
  (2 <= n_per_chunk)%Z ->
  f st !! "workup/fit/x" = None ->
  f st !! "workup/fit/y" = None ->
  exists d slopes,
    (fit_phase dt_chunk_target st).1 = Ok tt
    /\ f (fit_phase dt_chunk_target st).2 !! "workup/fit/y" = Some d
    /\ data d = AReal slopes
    /\ Z.of_nat (length slopes) = (Z.of_nat (length p) / n_per_chunk)%Z
    /\ forall c : nat, (c < length slopes)%nat ->
         let x_row := chunk (Z.to_nat n_per_chunk) xs c in
         let y_row := chunk (Z.to_nat n_per_chunk) p c in
         Z.of_nat (length x_row) = n_per_chunk
         /\ length y_row = length x_row
         /\ slopes !! c = Some (chunk_slope dt n_per_chunk x_row y_row)
         /\ chunk_slope dt n_per_chunk x_row y_row = ols_slope x_row y_row
         /\ forall a' b',
              sq_residual x_row y_row (ols_slope x_row y_row)
                (ols_intercept x_row y_row (ols_slope x_row y_row))
              <= sq_residual x_row y_row a' b'.
Proof.
  intros Hstep Hdt Hp Hreal Habs Hx Hxreal Hlen Hspaced Hround Hnpc Hf1 Hf2.
  destruct (fit_phase_succeeds st dt_chunk_target dt dp dx p xs a)
    as (d & Hok & Hd & Hdata); try assumption; [rewrite Hround; lia|].
  rewrite Hround in Hdata.
  set (ntot := (Z.of_nat (length p) / n_per_chunk)%Z) in *.
  assert (Hntot : (0 <= ntot)%Z) by (apply Z.div_pos; lia).
  assert (Htotal : (n_per_chunk * ntot <= Z.of_nat (length p))%Z)
    by (apply Z.mul_div_le; lia).
  eexists d, _. split; [exact Hok|]. split; [exact Hd|].
  split; [exact Hdata|].
  rewrite length_map, length_seq. split; [lia|].
  intros c Hc x_row y_row.
  assert (Hfit : (c * Z.to_nat n_per_chunk + Z.to_nat n_per_chunk
                  <= length p)%nat) by nia.
  assert (Hlx : length x_row = Z.to_nat n_per_chunk)
    by (apply chunk_length; lia).
  assert (Hly : length y_row = Z.to_nat n_per_chunk)
    by (apply chunk_length; lia).
  assert (Hrow : forall k : nat, (k < length x_row)%nat ->
            x_row !! k
            = Some (x0 + INR (c * Z.to_nat n_per_chunk) * dt + INR k * dt)).
  { intros k Hk. unfold x_row. rewrite chunk_lookup by lia.
    rewrite Hspaced by lia. f_equal. rewrite plus_INR. lra. }
  split; [lia|]. split; [lia|]. split.
  - rewrite list_lookup_fmap, lookup_seq_lt by assumption. reflexivity.
  - split.
    + apply (chunk_slope_ols dt (x0 + INR (c * Z.to_nat n_per_chunk) * dt)
               n_per_chunk x_row y_row); [lia|lia|exact Hrow].
    + apply ols_slope_least_squares; [lia|].
      apply (equally_spaced_denominator dt
               (x0 + INR (c * Z.to_nat n_per_chunk) * dt) x_row);
        [lia|assumption|exact Hrow].
Qed.

Lemma demo_phase_spaced (i : nat) :
  (i < 4)%nat ->
  [1 * 0; 1 * 1; 1 * 2; 1 * 3] !! i = Some (0 + INR i * 1).
Proof.
  intros Hi.
  destruct i as [|[|[|[|i]]]]; [| | | |lia]; simpl; f_equal; lra.
Qed.

Lemma C1_fit_phase_least_squares_witness :
  exists d slopes,
    (fit_phase 2 demo_phase).1 = Ok tt
    /\ f (fit_phase 2 demo_phase).2 !! "workup/fit/y" = Some d
    /\ data d = AReal slopes
    /\ Z.of_nat (length slopes) = (4 / 2)%Z
    /\ forall c : nat, (c < length slopes)%nat ->
         let x_row := chunk 2 [1 * 0; 1 * 1; 1 * 2; 1 * 3] c in
         let y_row := chunk 2 [0; 2; 4; 7] c in
         Z.of_nat (length x_row) = 2%Z
         /\ length y_row = length x_row
         /\ slopes !! c = Some (chunk_slope 1 2 x_row y_row)
         /\ chunk_slope 1 2 x_row y_row = ols_slope x_row y_row
         /\ forall a' b',
              sq_residual x_row y_row (ols_slope x_row y_row)
                (ols_intercept x_row y_row (ols_slope x_row y_row))
              <= sq_residual x_row y_row a' b'.
Proof.
  apply (C1_fit_phase_least_squares demo_phase 2 1 0 2
           (mkDataset (AReal [0; 2; 4; 7])
              (<["abscissa" := AStr "x"]>
                 (<["unit" := AStr "cyc"]> (<["name" := AStr "phase"]> ∅))))
           (mkDataset (AReal [1 * 0; 1 * 1; 1 * 2; 1 * 3])
              (<["step" := ANum 1]>
                 (<["initial" := ANum 0]>
                    (<["help" := AStr "time"]>
                       (<["label_latex" := AStr "$t \: [\mathrm{s}]$"]>
                          (<["label" := AStr "t [s]"]>
                             (<["unit" := AStr "s"]>
                                (<["name" := AStr "t"]> ∅))))))))
           [0; 2; 4; 7] [1 * 0; 1 * 1; 1 * 2; 1 * 3] "x").
  - exact demo_phase_step.
  - lra.
  - reflexivity.
  - reflexivity.
  - reflexivity.
  - reflexivity.
  - reflexivity.
  - simpl. lia.
  - exact demo_phase_spaced.
  - replace (2 / 1) with (IZR 2) by lra. apply py_round_IZR.
  - lia.
  - reflexivity.
  - reflexivity.
Defined.

(** ** The Hilbert filter *)

Lemma hilbert_weight_spec v :
  (v < 0 -> hilbert_weight v = 0)
  /\ (v = 0 -> hilbert_weight v = 1)
  /\ (0 < v -> hilbert_weight v = 2).
Proof.
  unfold hilbert_weight, Rltb, Reqb, b2r.
  destruct (Rlt_dec v 0), (Req_dec_T v 0), (Rlt_dec 0 v);
    repeat split; intros; lra.
Qed.

(** ** The bandpass filter: its shapes *)

Lemma np_argmax_from_lt l i best bv :
  (best < i)%nat -> (argmax_from l i best bv < i + length l)%nat.
Proof.
  revert i best bv. induction l as [|v l IH]; intros i best bv Hb; simpl.
  - lia.
  - destruct (Rlt_dec bv v).
    + specialize (IH (S i) i v ltac:(lia)). lia.
    + specialize (IH (S i) best bv ltac:(lia)). lia.
Qed.

Lemma np_argmax_lt l i : np_argmax l = Ok i -> (i < length l)%nat.
Proof.
  destruct l as [|v l]; [discriminate|]. intros [= <-].
  pose proof (np_argmax_from_lt l 1 0 v ltac:(lia)). simpl. lia.
Qed.

Lemma np_mul_same_length a b :
  length a = length b -> np_mul a b = Ok (zip_with Rmult a b).
Proof.
  intros H. unfold np_mul.
  destruct (decide (length a = length b)); [reflexivity|contradiction].
Qed.

(** With a spectrum as long as the frequency axis the peak is found,
    and it is a point of the axis. *)
Lemma center_frequency_ok (freq Hc absFT : list R) :
  length Hc = length freq -> length absFT = length freq -> freq <> [] ->
  exists fc i, center_frequency freq Hc absFT = Ok fc /\ freq !! i = Some fc.
Proof.
  intros H1 H2 Hne. unfold center_frequency.
  rewrite np_mul_same_length by congruence. cbn [mbind result_bind].
  destruct (np_argmax (zip_with Rmult Hc absFT)) as [i|e] eqn:Ei.
  - apply np_argmax_lt in Ei as Hi.
    rewrite length_zip_with, H1, H2, Nat.min_id in Hi.
    destruct (lookup_lt_is_Some_2 freq i Hi) as [fc Hfc].
    exists fc, i. cbn [mbind result_bind]. unfold np_item.
    rewrite Hfc. auto.
  - destruct Hc as [|h Hc], absFT as [|t absFT], freq as [|v freq];
      simpl in *; try discriminate; congruence.
Qed.

Lemma center_frequency_on_axis (freq Hc absFT : list R) fc :
  center_frequency freq Hc absFT = Ok fc -> exists i, freq !! i = Some fc.
Proof.
  unfold center_frequency.
  destruct (np_mul Hc absFT) as [FTrh|]; cbn [mbind result_bind];
    [|discriminate].
  destruct (np_argmax FTrh) as [i|]; cbn [mbind result_bind];
    [|discriminate].
  unfold np_item. destruct (freq !! i) eqn:E; [|discriminate].
  intros [= <-]. eauto.
Qed.

Lemma bp_brick_wall_center (freq : list R) (fc bw : R) (order : nat) i :
  (1 <= order)%nat -> freq !! i = Some fc ->
  bp_brick_wall (map (fun v => (v - fc) / bw) freq) order !! i = Some 1.
Proof.
  intros Ho Hi. unfold bp_brick_wall.
  rewrite !list_lookup_fmap, Hi. simpl. f_equal.
  replace ((fc - fc) / bw) with 0 by (unfold Rdiv; ring).
  rewrite Rabs_R0, pow_i by lia. lra.
Qed.

Lemma bp_brick_wall_order0 (freq : list R) (fc bw : R) i v :
  freq !! i = Some v ->
  bp_brick_wall (map (fun v => (v - fc) / bw) freq) 0 !! i = Some (1 / 2).
Proof.
  intros Hi. unfold bp_brick_wall.
  rewrite !list_lookup_fmap, Hi. simpl. f_equal; lra.
Qed.

Lemma bp_gaussian_center (freq : list R) (fc bw : R) i :
  freq !! i = Some fc ->
  bp_gaussian (map (fun v => (v - fc) / bw) freq) !! i = Some 1.
Proof.
  intros Hi. unfold bp_gaussian.
  rewrite !list_lookup_fmap, Hi. simpl. f_equal.
  replace (-1 * ((fc - fc) / bw * ((fc - fc) / bw * 1))) with 0
    by (unfold Rdiv; ring).
  apply exp_0.
Qed.

Lemma bp_gaussian_edge (freq : list R) (fc bw : R) i :
  bw <> 0 ->
  freq !! i = Some (fc + bw) \/ freq !! i = Some (fc - bw) ->
  bp_gaussian (map (fun v => (v - fc) / bw) freq) !! i = Some (exp (-1)).
Proof.
  intros Hbw Hi. unfold bp_gaussian.
  rewrite !list_lookup_fmap.
  destruct Hi as [-> | ->]; simpl; do 2 f_equal; field; assumption.
Qed.

(** Writing at a set of positions leaves every other position alone. *)
Lemma np_put_lookup_other (a : list R) idx vals i :
  i ∉ idx -> np_put a idx vals !! i = a !! i.
Proof.
  unfold np_put. revert a vals.
  induction idx as [|j idx IH]; intros a vals Hi.
  - reflexivity.
  - destruct vals as [|v vals]; [reflexivity|]. simpl.
    rewrite IH by (intros ?; apply Hi; right; assumption).
    apply list_lookup_insert_ne. intros ->. apply Hi. left.
Qed.

Lemma np_put_length (a : list R) idx vals :
  length (np_put a idx vals) = length a.
Proof.
  unfold np_put. revert a vals.
  induction idx as [|j idx IH]; intros a vals.
  - reflexivity.
  - destruct vals as [|v vals]; [reflexivity|]. simpl.
    rewrite IH. apply length_insert.
Qed.

Lemma elem_of_compress_seq (m : list bool) (s i : nat) :
  i ∈ np_compress m (seq s (length m)) ->
  exists j, i = (s + j)%nat /\ m !! j = Some true.
Proof.
  revert s. induction m as [|b m IH]; intros s Hin; simpl in Hin.
  - inversion Hin.
  - destruct b.
    + apply elem_of_cons in Hin as [-> | Hin].
      * exists 0%nat. split; [lia|reflexivity].
      * destruct (IH (S s) Hin) as (j & -> & Hj).
        exists (S j). split; [lia|exact Hj].
    + destruct (IH (S s) Hin) as (j & -> & Hj).
      exists (S j). split; [lia|exact Hj].
Qed.

Lemma bp_cosine_outside (freq : list R) (fc bw : R) i v :
  freq !! i = Some v ->
  v < fc - bw \/ fc + bw < v ->
  bp_cosine freq fc bw !! i = Some 0.
Proof.
  intros Hi Hout. unfold bp_cosine.
  rewrite np_put_lookup_other.
  - unfold np_zeros. apply lookup_replicate_2.
    apply lookup_lt_Some in Hi. exact Hi.
  - intros Hin.
    rewrite <- (length_map (fun v => Rleb (-1 * bw + fc) v && Rleb v (bw + fc)) freq)
      in Hin.
    apply elem_of_compress_seq in Hin as (j & Hj & Hm).
    simpl in Hj. subst j.
    rewrite list_lookup_fmap, Hi in Hm. simpl in Hm. injection Hm as Hm.
    unfold Rleb in Hm.
    destruct (Rle_dec (-1 * bw + fc) v), (Rle_dec v (bw + fc));
      simpl in Hm; try discriminate; lra.
Qed.

Lemma bp_cosine_length (freq : list R) (fc bw : R) :
  length (bp_cosine freq fc bw) = length freq.
Proof.
  unfold bp_cosine. rewrite np_put_length. apply length_replicate.
Qed.

(** ** C7 and C4: the bandpass filter on the store *)

Lemma bp_weights_unknown style order freq fc bw :
  style <> "brick wall" -> style <> "cosine" -> style <> "gaussian" ->
  bp_weights style order freq fc bw = None.
Proof.
  intros H1 H2 H3. unfold bp_weights.
  destruct (decide (style = "brick wall")); [contradiction|].
  destruct (decide (style = "cosine")); [contradiction|].
  destruct (decide (style = "gaussian")); [contradiction|]. reflexivity.
Qed.

Lemma freq_filter_bp_unknown (st : Signal) (bw : R) (order : nat)
    (style : string) (dfreq dHc dFT : Dataset) (freq Hc absFT : list R)
    (fc : R) :
  f st !! "workup/freq/freq" = Some dfreq ->
  as_real (data dfreq) = Ok freq ->
  f st !! "workup/freq/filter/Hc" = Some dHc ->
  as_real (data dHc) = Ok Hc ->
  f st !! "workup/freq/FT" = Some dFT ->
  array_abs (data dFT) = Ok absFT ->
  center_frequency freq Hc absFT = Ok fc ->
  bp_weights style order freq fc bw = None ->
  freq_filter_bp bw order style st
  = (Raise UnboundLocalError, mkSignal (f st) (stdout st ++ [bp_error])).
Proof.
  intros H1 R1 H2 R2 H3 R3 Hfc Hbp. unfold freq_filter_bp.
  rewrite (bind_ok _ _ _ _ _ (getitem_some "workup/freq/freq" st _ H1)).
  rewrite bind_liftR, R1.
  rewrite (bind_ok _ _ _ _ _ (getitem_some "workup/freq/filter/Hc" st _ H2)).
  rewrite bind_liftR, R2.
  rewrite (bind_ok _ _ _ _ _ (getitem_some "workup/freq/FT" st _ H3)).
  rewrite bind_liftR, R3.
  rewrite bind_liftR, Hfc, Hbp. reflexivity.
Qed.

Lemma freq_filter_bp_stores (st : Signal) (bw : R) (order : nat)
    (style : string) (dfreq dHc dFT : Dataset) (freq Hc absFT bp : list R)
    (fc : R) :
  f st !! "workup/freq/freq" = Some dfreq ->
  as_real (data dfreq) = Ok freq ->
  f st !! "workup/freq/filter/Hc" = Some dHc ->
  as_real (data dHc) = Ok Hc ->
  f st !! "workup/freq/FT" = Some dFT ->
  array_abs (data dFT) = Ok absFT ->
  center_frequency freq Hc absFT = Ok fc ->
  bp_weights style order freq fc bw = Some bp ->
  f st !! bp_name = None ->
  exists d, f (freq_filter_bp bw order style st).2 !! bp_name = Some d
            /\ data d = AReal bp.
Proof.
  intros H1 R1 H2 R2 H3 R3 Hfc Hbp Hfresh. unfold freq_filter_bp.
  rewrite (bind_ok _ _ _ _ _ (getitem_some "workup/freq/freq" st _ H1)).
  rewrite bind_liftR, R1.
  rewrite (bind_ok _ _ _ _ _ (getitem_some "workup/freq/filter/Hc" st _ H2)).
  rewrite bind_liftR, R2.
  rewrite (bind_ok _ _ _ _ _ (getitem_some "workup/freq/FT" st _ H3)).
  rewrite bind_liftR, R3.
  rewrite bind_liftR, Hfc, Hbp.
  rewrite bind_unfold. cbn [mret M_ret]. rewrite bind_unfold. cbn [mret M_ret].
  rewrite (bind_ok _ _ _ _ _ (create_dataset_fresh _ _ _ Hfresh)).
  match goal with
  | |- context [ (?c ?s).2 ] =>
      assert (Hk : keeps c) by keeps_tac;
      destruct (Hk s bp_name (mkDataset (AReal bp) ∅)) as (d & Hd & Hdata);
      [apply lookup_insert_eq|]
  end.
  exists d. auto.
Qed.

Lemma freq_filter_bp_unknown_fails (st : Signal) (bw : R) (order : nat)
    (style : string) :
  style <> "brick wall" -> style <> "cosine" -> style <> "gaussian" ->
  is_raise (freq_filter_bp bw order style st).1
  /\ f (freq_filter_bp bw order style st).2 = f st.
Proof.
  intros S1 S2 S3. unfold freq_filter_bp.
  destruct (f st !! h5path "workup/freq/freq") as [dfreq|] eqn:H1;
    [rewrite (bind_ok _ _ _ _ _ (getitem_some _ st _ H1))
    |rewrite (bind_raise _ _ _ _ _ (getitem_none _ st H1)); simpl; auto].
  rewrite bind_liftR.
  destruct (as_real (data dfreq)) as [freq|]; [|simpl; auto].
  destruct (f st !! h5path "workup/freq/filter/Hc") as [dHc|] eqn:H2;
    [rewrite (bind_ok _ _ _ _ _ (getitem_some _ st _ H2))
    |rewrite (bind_raise _ _ _ _ _ (getitem_none _ st H2)); simpl; auto].
  rewrite bind_liftR.
  destruct (as_real (data dHc)) as [Hc|]; [|simpl; auto].
  destruct (f st !! h5path "workup/freq/FT") as [dFT|] eqn:H3;
    [rewrite (bind_ok _ _ _ _ _ (getitem_some _ st _ H3))
    |rewrite (bind_raise _ _ _ _ _ (getitem_none _ st H3)); simpl; auto].
  rewrite bind_liftR.
  destruct (array_abs (data dFT)) as [absFT|]; [|simpl; auto].
  rewrite bind_liftR.
  destruct (center_frequency freq Hc absFT) as [fc|]; [|simpl; auto].
  rewrite bp_weights_unknown by assumption. simpl. auto.
Qed.

(** C7. A bandpass request whose style is none of brick wall, cosine
    and gaussian always fails and creates no dataset; when the
    spectrum, the Hilbert filter and the frequency axis are in place,
    it prints the message naming the unrecognized filter function and
    then raises on the filter array that no branch has bound, the file
    being left as it was. *)
Theorem C7_unrecognized_style (st : Signal) (bw : R) (order : nat)
    (style : string) :
  style <> "brick wall" -> style <> "cosine" -> style <> "gaussian" ->
  is_raise (freq_filter_bp bw order style st).1
  /\ f (freq_filter_bp bw order style st).2 = f st
  /\ forall (dfreq dHc dFT : Dataset) (freq Hc absFT : list R) (fc : R),
       f st !! "workup/freq/freq" = Some dfreq ->
       as_real (data dfreq) = Ok freq ->
       f st !! "workup/freq/filter/Hc" = Some dHc ->
       as_real (data dHc) = Ok Hc ->
       f st !! "workup/freq/FT" = Some dFT ->
       array_abs (data dFT) = Ok absFT ->
       center_frequency freq Hc absFT = Ok fc ->
       freq_filter_bp bw order style st
       = (Raise UnboundLocalError,
          mkSignal (f st) (stdout st ++ [bp_error])).
Proof.
  intros S1 S2 S3.
  destruct (freq_filter_bp_unknown_fails st bw order style S1 S2 S3) as [Hr Hf].
  split; [exact Hr|]. split; [exact Hf|].
  intros dfreq dHc dFT freq Hc absFT fc H1 R1 H2 R2 H3 R3 Hfc.
  eapply freq_filter_bp_unknown; try eassumption.
  apply bp_weights_unknown; assumption.
Qed.

Lemma Cabs_real x : 0 <= x -> Cabs (x, 0) = x.
Proof.
  intros Hx. unfold Cabs. simpl.
  replace (x * x + 0 * 0) with (x * x) by ring. apply sqrt_square, Hx.
Qed.

Lemma demo_spectrum_center :
  center_frequency [-2; -1; 0; 1] [0; 0; 1; 2]
    [Cabs (0, 0); Cabs (0.0005, 0); Cabs (0, 0); Cabs (0.0005, 0)]
  = Ok 1.
Proof.
  rewrite !Cabs_real by lra.
  unfold center_frequency, np_mul. simpl.
  repeat (destruct (Rlt_dec _ _); try lra); reflexivity.
Qed.

Lemma C7_unrecognized_style_witness :
  freq_filter_bp 1 50 "butterworth" demo_spectrum
  = (Raise UnboundLocalError,
     mkSignal (f demo_spectrum) (stdout demo_spectrum ++ [bp_error])).
Proof.
  destruct (C7_unrecognized_style demo_spectrum 1 50 "butterworth")
    as (_ & _ & H); [discriminate..|].
  eapply H; [reflexivity..|]. exact demo_spectrum_center.
Defined.

(** C4, with the order it needs. For a bandpass filter built with
    bandwidth [bw > 0], centred on the detected frequency [fc] (a point
    of the frequency axis): the brick-wall weight at [fc] is [1] when
    the order is at least [1]; the gaussian weight is [1] at [fc] and
    [exp(-1)] at any axis point equal to [fc + bw] or [fc - bw]; the
    cosine weight is [0] at every axis point outside
    [[fc - bw, fc + bw]]. *)
Theorem C4_bandpass_weights (st : Signal) (bw : R) (order : nat)
    (style : string) (dfreq dHc dFT : Dataset) (freq Hc absFT : list R)
    (fc : R) :
  0 < bw ->
  f st !! "workup/freq/freq" = Some dfreq ->
  as_real (data dfreq) = Ok freq ->
  f st !! "workup/freq/filter/Hc" = Some dHc ->
  as_real (data dHc) = Ok Hc ->
  f st !! "workup/freq/FT" = Some dFT ->
  array_abs (data dFT) = Ok absFT ->
  center_frequency freq Hc absFT = Ok fc ->
  f st !! bp_name = None ->
  style = "brick wall" \/ style = "cosine" \/ style = "gaussian" ->
  exists d bp,
    f (freq_filter_bp bw order style st).2 !! bp_name = Some d
    /\ data d = AReal bp
    /\ (exists i : nat, freq !! i = Some fc)
    /\ (style = "brick wall" -> (1 <= order)%nat ->
        forall i : nat, freq !! i = Some fc -> bp !! i = Some 1)
    /\ (style = "gaussian" ->
        forall i : nat,
          (freq !! i = Some fc -> bp !! i = Some 1)
          /\ (freq !! i = Some (fc + bw) \/ freq !! i = Some (fc - bw) ->
              bp !! i = Some (exp (-1))))
    /\ (style = "cosine" ->
        forall (i : nat) v, freq !! i = Some v ->
          v < fc - bw \/ fc + bw < v -> bp !! i = Some 0).
Proof.
  intros Hbw H1 R1 H2 R2 H3 R3 Hfc Hfresh Hstyle.
  pose proof (center_frequency_on_axis freq Hc absFT fc Hfc) as Haxis.
  destruct Hstyle as [-> | [-> | ->]].
  - destruct (freq_filter_bp_stores st bw order "brick wall" dfreq dHc dFT
                freq Hc absFT
                (bp_brick_wall (map (fun v => (v - fc) / bw) freq) order) fc)
      as (d & Hd & Hdata); try assumption; [reflexivity|].
    exists d, (bp_brick_wall (map (fun v => (v - fc) / bw) freq) order).
    repeat split; try assumption; try discriminate.
    intros _ Ho i Hi. apply bp_brick_wall_center; assumption.
  - destruct (freq_filter_bp_stores st bw order "cosine" dfreq dHc dFT
                freq Hc absFT (bp_cosine freq fc bw) fc)
      as (d & Hd & Hdata); try assumption; [reflexivity|].
    exists d, (bp_cosine freq fc bw).
    repeat split; try assumption; try discriminate.
    intros _ i v Hi Hout. eapply bp_cosine_outside; eassumption.
  - destruct (freq_filter_bp_stores st bw order "gaussian" dfreq dHc dFT
                freq Hc absFT
                (bp_gaussian (map (fun v => (v - fc) / bw) freq)) fc)
      as (d & Hd & Hdata); try assumption; [reflexivity|].
    exists d, (bp_gaussian (map (fun v => (v - fc) / bw) freq)).
    repeat split; try assumption; try discriminate.
    + intros Hi. apply bp_gaussian_center; assumption.
    + intros Hi. apply bp_gaussian_edge; [lra|assumption].
Qed.

Lemma C4_bandpass_weights_witness :
  exists d bp,
    f (freq_filter_bp 1 50 "gaussian" demo_spectrum).2 !! bp_name = Some d
    /\ data d = AReal bp
    /\ (exists i : nat, [-2; -1; 0; 1] !! i = Some 1)
    /\ ("gaussian" = "brick wall" -> (1 <= 50)%nat ->
        forall i : nat, [-2; -1; 0; 1] !! i = Some 1 -> bp !! i = Some 1)
    /\ ("gaussian" = "gaussian" ->
        forall i : nat,
          ([-2; -1; 0; 1] !! i = Some 1 -> bp !! i = Some 1)
          /\ ([-2; -1; 0; 1] !! i = Some (1 + 1)
              \/ [-2; -1; 0; 1] !! i = Some (1 - 1) ->
              bp !! i = Some (exp (-1))))
    /\ ("gaussian" = "cosine" ->
        forall (i : nat) v, [-2; -1; 0; 1] !! i = Some v ->
          v < 1 - 1 \/ 1 + 1 < v -> bp !! i = Some 0).
Proof.
  eapply (C4_bandpass_weights demo_spectrum 1 50 "gaussian").
  - lra.
  - reflexivity.
  - reflexivity.
  - reflexivity.
  - reflexivity.
  - reflexivity.
  - reflexivity.
  - exact demo_spectrum_center.
  - reflexivity.
  - right. right. reflexivity.
Defined.

(** C4 as stated fails for a brick-wall filter of order [0]: on the
    demonstration spectrum, whose peak is the axis point [fc = 1], the
    weight stored at that point is [1/2]. *)
Lemma C4_counterexample :
  0 < 1
  /\ center_frequency [-2; -1; 0; 1] [0; 0; 1; 2]
       [Cabs (0, 0); Cabs (0.0005, 0); Cabs (0, 0); Cabs (0.0005, 0)] = Ok 1
  /\ exists d bp,
       f (freq_filter_bp 1 0 "brick wall" demo_spectrum).2 !! bp_name = Some d
       /\ data d = AReal bp
       /\ [-2; -1; 0; 1] !! 3%nat = Some 1
       /\ bp !! 3%nat = Some (1 / 2)
       /\ 1 / 2 <> 1.
Proof.
  split; [lra|]. split; [exact demo_spectrum_center|].
  destruct (freq_filter_bp_stores demo_spectrum 1 0 "brick wall"
              (mkDataset (AReal [-2; -1; 0; 1]) ∅)
              (mkDataset (AReal [0; 0; 1; 2]) ∅)
              (mkDataset (ACplx [(0, 0); (0.0005, 0); (0, 0); (0.0005, 0)]) ∅)
              [-2; -1; 0; 1] [0; 0; 1; 2]
              [Cabs (0, 0); Cabs (0.0005, 0); Cabs (0, 0); Cabs (0.0005, 0)]
              (bp_brick_wall (map (fun v => (v - 1) / 1) [-2; -1; 0; 1]) 0) 1)
    as (d & Hd & Hdata); try reflexivity.
  - exact demo_spectrum_center.
  - exists d, (bp_brick_wall (map (fun v => (v - 1) / 1) [-2; -1; 0; 1]) 0).
    split; [exact Hd|]. split; [exact Hdata|]. split; [reflexivity|].
    split; [|lra].
    apply (bp_brick_wall_order0 [-2; -1; 0; 1] 1 1 3 1). reflexivity.
Qed.

(** ** The spectral transform: the single-sided power spectrum *)

Lemma np_compress_app {A} (m1 m2 : list bool) (a1 a2 : list A) :
  length m1 = length a1 ->
  np_compress (m1 ++ m2) (a1 ++ a2) = np_compress m1 a1 ++ np_compress m2 a2.
Proof.
  revert a1. induction m1 as [|b m1 IH]; intros [|v a1] Hlen;
    try discriminate.
  - reflexivity.
  - simpl. destruct b; rewrite IH by (simpl in Hlen; lia); reflexivity.
Qed.

Lemma np_compress_all {A} (a : list A) :
  np_compress (replicate (length a) true) a = a.
Proof. induction a as [|v a IH]; [reflexivity|]. simpl. rewrite IH. reflexivity. Qed.

(** The two halves of an array of [m] points: [N = (m-1)//2 + 1]
    non-negative frequencies and [m//2] negative ones. *)
Lemma halves_nat (m : nat) :
  (1 <= m)%nat ->
  Z.to_nat ((Z.of_nat m - 1) / 2 + 1) = (m - m / 2)%nat
  /\ Z.to_nat (Z.of_nat m / 2) = (m / 2)%nat
  /\ ((Z.of_nat m - 1) / 2 + 1 + Z.of_nat m / 2 = Z.of_nat m)%Z
  /\ (0 <= Z.of_nat m / 2)%Z
  /\ (1 <= (Z.of_nat m - 1) / 2 + 1)%Z.
Proof.
  intros Hm.
  pose proof (Nat.div_mod_eq m 2) as Hd.
  pose proof (Nat.mod_upper_bound m 2 ltac:(lia)) as Hr.
  assert (Hz : (Z.of_nat m / 2 = Z.of_nat (m / 2))%Z)
    by (rewrite Nat2Z.inj_div; reflexivity).
  assert (Hz1 : ((Z.of_nat m - 1) / 2 = Z.of_nat ((m - 1) / 2))%Z).
  { rewrite Nat2Z.inj_div, Nat2Z.inj_sub by lia. reflexivity. }
  pose proof (Nat.div_mod_eq (m - 1) 2) as Hd1.
  pose proof (Nat.mod_upper_bound (m - 1) 2 ltac:(lia)) as Hr1.
  rewrite Hz, Hz1. repeat split; lia.
Qed.

Lemma np_fftfreq_length (m : nat) dt :
  (1 <= m)%nat -> length (np_fftfreq (Z.of_nat m) dt) = m.
Proof.
  intros Hm. destruct (halves_nat m Hm) as (H1 & H2 & H3 & H4 & H5).
  unfold np_fftfreq. rewrite length_map, length_app, !length_seqZ. lia.
Qed.

(** The frequency axis after [fftshift]: the negative frequencies,
    then the non-negative ones. *)
Lemma fftshift_fftfreq (m : nat) dt :
  (1 <= m)%nat ->
  let val := 1 / (IZR (Z.of_nat m) * dt) in
  np_fftshift (np_fftfreq (Z.of_nat m) dt)
  = map (fun k => IZR k * val) (seqZ (- (Z.of_nat m / 2)) (Z.of_nat m / 2))
    ++ map (fun k => IZR k * val) (seqZ 0 ((Z.of_nat m - 1) / 2 + 1)).
Proof.
  intros Hm val. destruct (halves_nat m Hm) as (H1 & H2 & H3 & H4 & H5).
  unfold np_fftshift, np_roll. rewrite np_fftfreq_length by assumption.
  unfold np_fftfreq. fold val. rewrite map_app.
  rewrite drop_app_length', take_app_length'
    by (rewrite length_map, length_seqZ; lia).
  reflexivity.
Qed.

Lemma freq_nonneg_mask_shifted (m : nat) dt :
  (1 <= m)%nat -> 0 < dt ->
  freq_nonneg_mask (np_fftshift (np_fftfreq (Z.of_nat m) dt))
  = replicate (m / 2) false ++ replicate (m - m / 2) true.
Proof.
  intros Hm Hdt. destruct (halves_nat m Hm) as (H1 & H2 & H3 & H4 & H5).
  rewrite fftshift_fftfreq by assumption.
  assert (Hval : 0 < 1 / (IZR (Z.of_nat m) * dt)).
  { apply Rdiv_lt_0_compat; [lra|]. apply Rmult_lt_0_compat; [|assumption].
    apply IZR_lt. lia. }
  unfold freq_nonneg_mask. rewrite map_app, !map_map.
  rewrite <- H2 at 1. rewrite <- H1.
  f_equal; apply map_seqZ_const; intros k Hk; unfold Rleb.
  - destruct (Rle_dec 0 (IZR k * (1 / (IZR (Z.of_nat m) * dt))));
      [|reflexivity].
    assert (IZR k <= -1) by (apply IZR_le; lia). nra.
  - destruct (Rle_dec 0 (IZR k * (1 / (IZR (Z.of_nat m) * dt))));
      [reflexivity|].
    assert (0 <= IZR k) by (apply IZR_le; lia). nra.
Qed.

(** Keeping the entries at non-negative frequency of a shifted array
    keeps the first [m - m//2] entries of the unshifted one. *)
Lemma single_sided {A} (a : list A) (m : nat) dt :
  length a = m -> (1 <= m)%nat -> 0 < dt ->
  np_getitem_mask (np_fftshift a)
    (freq_nonneg_mask (np_fftshift (np_fftfreq (Z.of_nat m) dt)))
  = Ok (take (m - m / 2) a).
Proof.
  intros <- Hm Hdt. rewrite freq_nonneg_mask_shifted by assumption.
  pose proof (Nat.div_mod_eq (length a) 2) as Hd.
  unfold np_getitem_mask, np_fftshift, np_roll.
  rewrite !length_app, !length_replicate, length_drop, length_take.
  destruct (decide _) as [_|Hne]; [|lia].
  f_equal. rewrite np_compress_app
    by (rewrite length_replicate, length_drop; lia).
  replace (length a / 2)%nat
    with (length (drop (length a - length a / 2) a)) at 1
    by (rewrite length_drop; lia).
  rewrite np_compress_none.
  replace (length a - length a / 2)%nat
    with (length (take (length a - length a / 2) a)) at 1
    by (rewrite length_take; lia).
  rewrite np_compress_all. reflexivity.
Qed.

Lemma np_fftshift_map {A B} (g : A -> B) (l : list A) :
  np_fftshift (map g l) = map g (np_fftshift l).
Proof.
  unfold np_fftshift, np_roll. rewrite length_map, map_app.
  f_equal; [apply eq_sym, fmap_drop|apply eq_sym, fmap_take].
Qed.

Lemma np_fft_ok (s : list R) :
  s <> [] -> np_fft s = Ok (map (dft_bin s) (seq 0 (length s))).
Proof. destruct s; [contradiction|reflexivity]. Qed.

(** The power spectrum in closed form: bin [k] of the transform,
    squared in modulus and scaled by [dt/m], for the
    [N = (m-1)//2 + 1] bins [k = 0 .. N-1]. *)
Lemma fft_power_closed_form (s : list R) (dt : R) :
  s <> [] -> 0 < dt ->
  fft_power s dt
  = Ok (map (fun k => dt / INR (length s) * Cabs (dft_bin s k) ^ 2)
          (seq 0 (length s - length s / 2))).
Proof.
  intros Hs Hdt.
  assert (Hm : (1 <= length s)%nat) by (destruct s; [contradiction|simpl; lia]).
  unfold fft_power, fft_power_full. rewrite np_fft_ok by assumption.
  cbn [mbind result_bind mret result_ret].
  rewrite <- np_fftshift_map.
  rewrite (single_sided _ (length s))
    by (rewrite ?length_map, ?length_seq; auto).
  f_equal. rewrite map_map.
  change (take ?n (map ?g ?l)) with (take n (g <$> l)).
  rewrite <- fmap_take, take_seq, Nat.min_l by lia. reflexivity.
Qed.

(** ** The spectral transform on the store *)

Lemma bind_inv {A B} (c : M A) (k : A -> M B) st b st' :
  (c ≫= k) st = (Ok b, st') ->
  exists a st1, c st = (Ok a, st1) /\ k a st1 = (Ok b, st').
Proof.
  rewrite bind_unfold. destruct (c st) as [[a|e] st1]; [eauto|discriminate].
Qed.

Lemma liftR_inv {A} (r : result A) st a st1 :
  liftR r st = (Ok a, st1) -> r = Ok a /\ st1 = st.
Proof. unfold liftR. intros [= -> ->]. auto. Qed.

Lemma create_dataset_inv name a st u st1 :
  create_dataset name a st = (Ok u, st1) ->
  f st !! name = None
  /\ st1 = mkSignal (<[name := mkDataset a ∅]> (f st)) (stdout st).
Proof.
  unfold create_dataset. destruct (f st !! name); [discriminate|].
  intros [= _ <-]. auto.
Qed.

Lemma update_attrs_inv name kvs st u st1 :
  update_attrs name kvs st = (Ok u, st1) -> st1 = (update_attrs name kvs st).2.
Proof. intros H. rewrite H. reflexivity. Qed.

Lemma np_item_inv {A} (l : list A) i v : np_item l i = Ok v -> l !! i = Some v.
Proof. unfold np_item. destruct (l !! i); [intros [= ->]; reflexivity|discriminate]. Qed.

Lemma reads_ret {A} (a : A) : reads (mret a).
Proof. intros st. reflexivity. Qed.

Lemma reads_liftR {A} (r : result A) : reads (liftR r).
Proof. intros st. reflexivity. Qed.

Lemma reads_contains name : reads (contains name).
Proof. intros st. reflexivity. Qed.

Lemma reads_getitem name : reads (getitem name).
Proof. intros st. unfold getitem. destruct (f st !! h5path name); reflexivity. Qed.

Lemma reads_bind {A B} (c : M A) (k : A -> M B) :
  reads c -> (forall a, reads (k a)) -> reads (c ≫= k).
Proof.
  intros Hc Hk st. rewrite bind_unfold. specialize (Hc st).
  destruct (c st) as [[a|e] st1]; simpl in Hc; subst st1.
  - apply Hk.
  - reflexivity.
Qed.

Create HintDb reads.
#[local] Hint Resolve reads_ret reads_liftR reads_contains reads_getitem : reads.

Ltac reads_tac :=
  repeat first
    [ apply reads_bind; [|intros ?]
    | progress eauto with reads
    | match goal with
      | |- reads (if ?b then _ else _) => destruct b
      end ].

Lemma reads_get_step : reads get_step.
Proof. unfold get_step. reads_tac. Qed.

Lemma reads_working_array : reads working_array.
Proof. unfold working_array. reads_tac. Qed.

Lemma reads_inv {A} (c : M A) st a st1 :
  reads c -> c st = (Ok a, st1) -> st1 = st.
Proof. intros Hr H. specialize (Hr st). rewrite H in Hr. exact Hr. Qed.

(** What a completed forward transform has read and written. *)
Lemma fft_inv (psd : bool) (st st' : Signal) :
  fft psd st = (Ok tt, st') ->
  exists (s : list R) (dt : R) (freq : list R) (sFT : array)
         (dfreq dFT : Dataset) (f0 f1 : R),
    working_array st = (Ok s, st)
    /\ get_step st = (Ok dt, st)
    /\ (if psd
        then (exists P, fft_power s dt = Ok P /\ sFT = AReal P)
             /\ np_getitem_mask
                  (np_fftshift (np_fftfreq (Z.of_nat (length s)) dt))
                  (freq_nonneg_mask
                     (np_fftshift (np_fftfreq (Z.of_nat (length s)) dt)))
                = Ok freq
        else (exists L, fft_linear s dt = Ok L /\ sFT = ACplx L)
             /\ freq = np_fftshift (np_fftfreq (Z.of_nat (length s)) dt))
    /\ f st !! freq_name = None
    /\ f st' !! freq_name = Some dfreq
    /\ data dfreq = AReal (map (fun v => v / 1000) freq)
    /\ freq !! 0%nat = Some f0
    /\ freq !! 1%nat = Some f1
    /\ attrs dfreq !! "unit" = Some (AStr "kHz")
    /\ attrs dfreq !! "initial" = Some (ANum f0)
    /\ attrs dfreq !! "step" = Some (ANum (f1 - f0))
    /\ f st' !! FT_name = Some dFT
    /\ data dFT = sFT.
Proof.
  intros H. unfold fft in H.
  apply bind_inv in H as (s & st1 & Hs & H).
  pose proof (reads_inv _ _ _ _ reads_working_array Hs) as ->.
  apply bind_inv in H as (dt & st1 & Hdt & H).
  pose proof (reads_inv _ _ _ _ reads_get_step Hdt) as ->.
  apply bind_inv in H as (y & st1 & Hy & H).
  pose proof (reads_inv _ _ _ _ (reads_getitem "y") Hy) as ->.
  apply bind_inv in H as (name_orig & st1 & Hn & H).
  apply liftR_inv in Hn as [_ ->].
  apply bind_inv in H as (unit_orig & st1 & Hu & H).
  apply liftR_inv in Hu as [_ ->].
  apply bind_inv in H as (out & st1 & Ho & H).
  apply liftR_inv in Ho as [Ho ->].
  destruct out as [[[[[freq sFT] sFTunit] sFTlabel] sFTlabel_latex] sFThelp].
  apply bind_inv in H as ([] & st1 & Hc1 & H).
  apply create_dataset_inv in Hc1 as [Hfresh ->].
  apply bind_inv in H as (f0 & st1 & Hf0 & H).
  apply liftR_inv in Hf0 as [Hf0%np_item_inv ->].
  apply bind_inv in H as (f1 & st1 & Hf1 & H).
  apply liftR_inv in Hf1 as [Hf1%np_item_inv ->].
  apply bind_inv in H as ([] & st1 & Hu1 & H).
  apply update_attrs_inv in Hu1 as ->.
  apply bind_inv in H as ([] & st1 & Hc2 & H).
  apply create_dataset_inv in Hc2 as [Hfresh2 ->].
  apply update_attrs_inv in H as ->.
  eexists s, dt, freq, sFT, _, _, f0, f1.
  split; [exact Hs|]. split; [exact Hdt|]. split.
  { destruct psd.
    - destruct (fft_power s dt) as [P|] eqn:EP;
        cbn [mbind result_bind] in Ho; [|discriminate].
      destruct (np_getitem_mask _ _) as [fr|] eqn:EF;
        cbn [mbind result_bind mret result_ret] in Ho; [|discriminate].
      injection Ho as <- <- _ _ _ _. split; [eauto|reflexivity].
    - destruct (fft_linear s dt) as [L|] eqn:EL;
        cbn [mbind result_bind mret result_ret] in Ho; [|discriminate].
      injection Ho as <- <- _ _ _ _. split; [eauto|reflexivity]. }
  split; [exact Hfresh|].
  split.
  { rewrite lookup_update_attrs_ne by discriminate. cbn [f].
    rewrite lookup_insert_ne by discriminate.
    apply lookup_update_attrs_some. apply lookup_insert_eq. }
  split; [reflexivity|]. split; [exact Hf0|]. split; [exact Hf1|].
  split; [reflexivity|]. split; [reflexivity|]. split; [reflexivity|].
  split.
  - apply lookup_update_attrs_some. apply lookup_insert_eq.
  - reflexivity.
Qed.

Lemma run_ok (c : M unit) st : (c st).1 = Ok tt -> c st = (Ok tt, (c st).2).
Proof. destruct (c st) as [r st1]. simpl. intros ->. reflexivity. Qed.

Lemma np_item_ok {A} (l : list A) i :
  (i < length l)%nat -> exists v, np_item l i = Ok v.
Proof.
  intros Hi. destruct (lookup_lt_is_Some_2 l i Hi) as [v Hv].
  exists v. unfold np_item. rewrite Hv. reflexivity.
Qed.

Lemma np_item_short {A} (l : list A) i :
  (length l <= i)%nat -> np_item l i = Raise IndexError.
Proof.
  intros H. unfold np_item. rewrite lookup_ge_None_2 by assumption.
  reflexivity.
Qed.

Lemma np_fftshift_length {A} (a : list A) : length (np_fftshift a) = length a.
Proof.
  unfold np_fftshift, np_roll. rewrite length_app, length_drop, length_take.
  lia.
Qed.

(** The power-mode transform completes on a working array of at least
    three samples: two non-negative frequencies are then left for the
    attributes of the axis. *)
Lemma fft_power_succeeds (st : Signal) (s : list R) (dt : R) (dy : Dataset)
    (name_orig unit_orig : string) :
  working_array st = (Ok s, st) ->
  get_step st = (Ok dt, st) ->
  0 < dt ->
  (3 <= length s)%nat ->
  f st !! "y" = Some dy ->
  get_attr dy "name" = Ok (AStr name_orig) ->
  get_attr dy "unit" = Ok (AStr unit_orig) ->
  f st !! freq_name = None ->
  f st !! FT_name = None ->
  (fft true st).1 = Ok tt.
Proof.
  intros Hs Hdt Hpos Hm Hy Hname Hunit Hf1 Hf2.
  assert (Hne : s <> []) by (destruct s; [simpl in Hm; lia|discriminate]).
  pose proof (Nat.div_mod_eq (length s) 2) as Hd.
  pose proof (Nat.mod_upper_bound (length s) 2 ltac:(lia)) as Hr.
  unfold fft.
  rewrite (bind_ok _ _ _ _ _ Hs), (bind_ok _ _ _ _ _ Hdt).
  rewrite (bind_ok _ _ _ _ _ (getitem_some "y" st dy Hy)).
  rewrite bind_liftR, Hname. cbn [mbind result_bind as_str].
  rewrite bind_liftR, Hunit. cbn [mbind result_bind as_str].
  rewrite bind_liftR, fft_power_closed_form by assumption.
  cbn [mbind result_bind].
  rewrite (single_sided _ (length s))
    by (try apply np_fftfreq_length; auto; lia).
  cbn [mbind result_bind mret result_ret].
  step_create.
  set (fr := take (length s - length s / 2) _).
  assert (Hlen : (2 <= length fr)%nat).
  { unfold fr. rewrite length_take, np_fftfreq_length by lia. lia. }
  destruct (np_item_ok fr 0 ltac:(lia)) as [f0 Hf0].
  destruct (np_item_ok fr 1 ltac:(lia)) as [f1 Hf1'].
  rewrite bind_liftR, Hf0, bind_liftR, Hf1'.
  rewrite bind_update_attrs. step_create. reflexivity.
Qed.

Lemma np_fftfreq_sign (m : nat) (dt : R) (k : nat) (fk : R) :
  (1 <= m)%nat -> 0 < dt ->
  np_fftfreq (Z.of_nat m) dt !! k = Some fk ->
  (0 <= fk <-> (k < m - m / 2)%nat).
Proof.
  intros Hm Hdt Hk. destruct (halves_nat m Hm) as (H1 & H2 & H3 & H4 & H5).
  assert (Hval : 0 < 1 / (IZR (Z.of_nat m) * dt)).
  { apply Rdiv_lt_0_compat; [lra|]. apply Rmult_lt_0_compat; [|assumption].
    apply IZR_lt. lia. }
  unfold np_fftfreq in Hk. rewrite list_lookup_fmap in Hk.
  destruct (decide (k < m - m / 2)%nat) as [Hlt|Hge].
  - rewrite lookup_app_l in Hk by (rewrite length_seqZ; lia).
    rewrite lookup_seqZ_lt in Hk by lia. simpl in Hk. injection Hk as <-.
    split; [intros _; assumption|intros _].
    assert (0 <= IZR (0 + Z.of_nat k)) by (apply IZR_le; lia). nra.
  - rewrite lookup_app_r in Hk by (rewrite length_seqZ; lia).
    rewrite length_seqZ in Hk.
    destruct (seqZ _ _ !! _) as [z|] eqn:Ez; [|discriminate].
    apply lookup_seqZ in Ez as [-> Hz]. simpl in Hk. injection Hk as <-.
    split; [|intros; lia]. intros Hnonneg. exfalso.
    assert (IZR (- (Z.of_nat m / 2)
                 + Z.of_nat (k - Z.to_nat ((Z.of_nat m - 1) / 2 + 1))) <= -1)
      by (apply IZR_le; lia).
    nra.
Qed.

(** With one or two samples the power-mode transform keeps a single
    frequency: the axis is stored, the second frequency that its
    [step] attribute needs is missing, and the spectrum is never
    stored. *)
Lemma fft_power_short (st : Signal) (s : list R) (dt : R) (dy : Dataset)
    (name_orig unit_orig : string) :
  working_array st = (Ok s, st) ->
  get_step st = (Ok dt, st) ->
  0 < dt ->
  (1 <= length s <= 2)%nat ->
  f st !! "y" = Some dy ->
  get_attr dy "name" = Ok (AStr name_orig) ->
  get_attr dy "unit" = Ok (AStr unit_orig) ->
  f st !! freq_name = None ->
  f st !! FT_name = None ->
  (fft true st).1 = Raise IndexError
  /\ f (fft true st).2 !! FT_name = None.
Proof.
  intros Hs Hdt Hpos Hlen Hy Hname Hunit Hf1 Hf2.
  assert (Hne : s <> []).
  { destruct s; [|discriminate]. simpl in Hlen. lia. }
  unfold fft.
  rewrite (bind_ok _ _ _ _ _ Hs), (bind_ok _ _ _ _ _ Hdt).
  rewrite (bind_ok _ _ _ _ _ (getitem_some "y" st dy Hy)).
  rewrite bind_liftR, Hname. cbn [mbind result_bind as_str].
  rewrite bind_liftR, Hunit. cbn [mbind result_bind as_str].
  rewrite bind_liftR, fft_power_closed_form by assumption.
  cbn [mbind result_bind].
  rewrite (single_sided _ (length s))
    by (try apply np_fftfreq_length; auto; lia).
  cbn [mbind result_bind mret result_ret].
  step_create.
  set (fr := take (length s - length s / 2) _).
  assert (Hfr : length fr = 1%nat).
  { unfold fr. rewrite length_take, np_fftfreq_length by lia.
    destruct Hlen as [H1 H2].
    destruct (length s) as [|[|[|k]]]; simpl in *; try lia; reflexivity. }
  destruct (np_item_ok fr 0 ltac:(lia)) as [f0 Hf0].
  rewrite bind_liftR, Hf0.
  rewrite bind_liftR, np_item_short by lia.
  split; [reflexivity|]. cbn [snd f].
  rewrite lookup_insert_ne by discriminate. exact Hf2.
Qed.

(** C3, for a record of at least three samples. On a working array
    [s] of [m >= 3] samples with sample period [dt > 0], the
    power-mode transform completes and stores the array of
    [(dt/m) |X_k|^2] over the bins [X_k] of the discrete Fourier
    transform of [s] whose frequency is not negative, the first
    [m - m//2] bins; each retained entry carries the factor [dt/m] and
    nothing else. *)
Theorem C3_power_spectrum (st : Signal) (s : list R) (dt : R) (dy : Dataset)
    (name_orig unit_orig : string) :
  working_array st = (Ok s, st) ->
  get_step st = (Ok dt, st) ->
  0 < dt ->
  (3 <= length s)%nat ->
  f st !! "y" = Some dy ->
  get_attr dy "name" = Ok (AStr name_orig) ->
  get_attr dy "unit" = Ok (AStr unit_orig) ->
  f st !! freq_name = None ->
  f st !! FT_name = None ->
  let m := length s in
  exists (X : list C) (sFT : list R) (d : Dataset),
    np_fft s = Ok X
    /\ length X = m
    /\ (fft true st).1 = Ok tt
    /\ f (fft true st).2 !! FT_name = Some d
    /\ data d = AReal sFT
    /\ sFT = map (fun z => dt / INR m * Cabs z ^ 2) (take (m - m / 2) X)
    /\ (forall (k : nat) (fk : R),
          np_fftfreq (Z.of_nat m) dt !! k = Some fk ->
          (0 <= fk <-> (k < m - m / 2)%nat)).
Proof.
  intros Hs Hdt Hpos H3 Hy Hname Hunit Hf1 Hf2 m.
  assert (Hne : s <> []) by (destruct s; [simpl in H3; lia|discriminate]).
  assert (Hm : (1 <= m)%nat) by (unfold m; lia).
  assert (Hrun : (fft true st).1 = Ok tt)
    by (eapply fft_power_succeeds; eassumption).
  destruct (fft_inv true st (fft true st).2 (run_ok _ _ Hrun))
    as (s' & dt' & freq & sFT & dfreq & dFT & f0 & f1
        & Hs' & Hdt' & [(P & HP & ->) _] & _ & _ & _ & _ & _ & _ & _ & _
        & HFT & Hdata).
  rewrite Hs in Hs'. injection Hs' as <-.
  rewrite Hdt in Hdt'. injection Hdt' as <-.
  rewrite fft_power_closed_form in HP by assumption. injection HP as <-.
  exists (map (dft_bin s) (seq 0 m)),
    (map (fun k => dt / INR m * Cabs (dft_bin s k) ^ 2) (seq 0 (m - m / 2))),
    dFT.
  split; [apply np_fft_ok; assumption|].
  split; [rewrite length_map, length_seq; reflexivity|].
  split; [exact Hrun|]. split; [exact HFT|]. split; [exact Hdata|].
  split.
  { change (take ?n (map ?g ?l)) with (take n (g <$> l)).
    rewrite <- fmap_take, take_seq, Nat.min_l by lia.
    apply list_eq. intros i. rewrite !list_lookup_fmap.
    destruct (seq 0 (m - m / 2) !! i); reflexivity. }
  intros k fk. apply np_fftfreq_sign; assumption.
Qed.

Lemma demo4_working_array : working_array demo4 = (Ok [3; 1; 4; 1], demo4).
Proof. reflexivity. Qed.

Lemma C3_power_spectrum_witness :
  exists (X : list C) (sFT : list R) (d : Dataset),
    np_fft [3; 1; 4; 1] = Ok X
    /\ length X = 4%nat
    /\ (fft true demo4).1 = Ok tt
    /\ f (fft true demo4).2 !! FT_name = Some d
    /\ data d = AReal sFT
    /\ sFT = map (fun z => 1 / INR 4 * Cabs z ^ 2) (take (4 - 4 / 2) X)
    /\ (forall (k : nat) (fk : R),
          np_fftfreq (Z.of_nat 4) 1 !! k = Some fk ->
          (0 <= fk <-> (k < 4 - 4 / 2)%nat)).
Proof.
  apply (C3_power_spectrum demo4 [3; 1; 4; 1] 1
           (default (mkDataset (AReal []) ∅) (f demo4 !! "y")) "x" "nm"
           demo4_working_array demo4_step).
  - lra.
  - simpl. lia.
  - reflexivity.
  - reflexivity.
  - reflexivity.
  - reflexivity.
  - reflexivity.
Defined.

(** C3 as stated fails for a record of two samples: with the samples
    [3, 1] taken one second apart, a single frequency is not negative,
    so the frequency axis has no second entry; the transform fails
    with an index error and no spectrum is stored. *)
Lemma C3_counterexample :
  working_array demo2 = (Ok [3; 1], demo2)
  /\ get_step demo2 = (Ok 1, demo2)
  /\ 0 < 1
  /\ (fft true demo2).1 = Raise IndexError
  /\ f (fft true demo2).2 !! FT_name = None.
Proof.
  assert (Hw : working_array demo2 = (Ok [3; 1], demo2)) by reflexivity.
  assert (Hstep : get_step demo2 = (Ok 1, demo2)) by reflexivity.
  split; [exact Hw|]. split; [exact Hstep|]. split; [lra|].
  apply (fft_power_short demo2 [3; 1] 1
           (default (mkDataset (AReal []) ∅) (f demo2 !! "y")) "x" "nm"
           Hw Hstep).
  - lra.
  - simpl. lia.
  - reflexivity.
  - reflexivity.
  - reflexivity.
  - reflexivity.
  - reflexivity.
Qed.

Lemma fftshift_lookup {A} (X : list A) (i : nat) :
  (i < length X)%nat ->
  np_fftshift X !! i
  = X !! ((i + (length X - length X / 2)) mod length X)%nat.
Proof.
  intros Hi. set (m := length X) in *.
  pose proof (Nat.div_mod_eq m 2) as Hd.
  pose proof (Nat.mod_upper_bound m 2 ltac:(lia)) as Hr.
  unfold np_fftshift, np_roll. fold m.
  destruct (decide (i < m / 2)%nat) as [Hlt|Hge].
  - rewrite lookup_app_l by (rewrite length_drop; fold m; lia).
    rewrite lookup_drop. f_equal.
    rewrite Nat.mod_small by lia. lia.
  - rewrite lookup_app_r by (rewrite length_drop; fold m; lia).
    rewrite length_drop. fold m.
    rewrite lookup_take_lt by lia. f_equal.
    replace (i + (m - m / 2))%nat with ((i - m / 2) + 1 * m)%nat by lia.
    rewrite Nat.Div0.mod_add, Nat.mod_small by lia. lia.
Qed.

Lemma fftshift_fftfreq_lookup (m : nat) (dt : R) (i : nat) :
  (1 <= m)%nat -> (i < m)%nat ->
  np_fftshift (np_fftfreq (Z.of_nat m) dt) !! i
  = Some ((INR i - INR (m / 2)) * (1 / (INR m * dt))).
Proof.
  intros Hm Hi. destruct (halves_nat m Hm) as (H1 & H2 & H3 & H4 & H5).
  rewrite fftshift_fftfreq by assumption. cbv zeta.
  rewrite <- INR_IZR_INZ.
  destruct (decide (i < m / 2)%nat) as [Hlt|Hge].
  - rewrite lookup_app_l by (rewrite length_map, length_seqZ; lia).
    change (map ?g ?l) with (g <$> l).
    rewrite list_lookup_fmap, lookup_seqZ_lt by lia. cbn [fmap option_fmap option_map].
    f_equal. f_equal.
    assert (Hhalf : INR (m / 2) = IZR (Z.of_nat m / 2)).
    { rewrite <- H2, INR_IZR_INZ, Z2Nat.id by lia. reflexivity. }
    rewrite plus_IZR, opp_IZR, <- INR_IZR_INZ, Hhalf. lra.
  - rewrite lookup_app_r by (rewrite length_map, length_seqZ; lia).
    rewrite length_map, length_seqZ, H2.
    change (map ?g ?l) with (g <$> l).
    rewrite list_lookup_fmap, lookup_seqZ_lt by lia. cbn [fmap option_fmap option_map].
    f_equal. f_equal.
    rewrite Z.add_0_l, <- INR_IZR_INZ. apply minus_INR. lia.
Qed.

(** The linear transform of a record of at least two samples, as a
    completed run. *)
Lemma fft_linear_stores (st : Signal) (s : list R) (dt : R) (dy : Dataset)
    (name_orig unit_orig : string) :
  working_array st = (Ok s, st) ->
  get_step st = (Ok dt, st) ->
  (2 <= length s)%nat ->
  f st !! "y" = Some dy ->
  get_attr dy "name" = Ok (AStr name_orig) ->
  get_attr dy "unit" = Ok (AStr unit_orig) ->
  f st !! freq_name = None ->
  f st !! FT_name = None ->
  (fft false st).1 = Ok tt
  /\ exists dFT,
       f (fft false st).2 !! FT_name = Some dFT
       /\ data dFT
          = ACplx (map (Cscale dt)
                     (np_fftshift (map (dft_bin s) (seq 0 (length s))))).
Proof.
  intros Hs Hdt Hm Hy Hname Hunit Hf1 Hf2.
  assert (Hne : s <> []) by (destruct s; [simpl in Hm; lia|discriminate]).
  unfold fft.
  rewrite (bind_ok _ _ _ _ _ Hs), (bind_ok _ _ _ _ _ Hdt).
  rewrite (bind_ok _ _ _ _ _ (getitem_some "y" st dy Hy)).
  rewrite bind_liftR, Hname. cbn [mbind result_bind as_str].
  rewrite bind_liftR, Hunit. cbn [mbind result_bind as_str].
  rewrite bind_liftR. unfold fft_linear. rewrite np_fft_ok by assumption.
  cbn [mbind result_bind mret result_ret].
  step_create.
  set (fr := np_fftshift (np_fftfreq (Z.of_nat (length s)) dt)).
  assert (Hfr : length fr = length s).
  { unfold fr. rewrite np_fftshift_length, np_fftfreq_length; lia. }
  destruct (np_item_ok fr 0 ltac:(lia)) as [f0 Hf0].
  destruct (np_item_ok fr 1 ltac:(lia)) as [f1 Hf1'].
  rewrite bind_liftR, Hf0, bind_liftR, Hf1'.
  rewrite bind_update_attrs. step_create.
  split; [reflexivity|]. eexists. split.
  - cbn [snd]. apply lookup_update_attrs_some. apply lookup_insert_eq.
  - reflexivity.
Qed.




(** * Further properties of the pipeline *)

(** ** What the stages write and what they leave alone *)

Lemma touches_ret {A} names (a : A) : touches names (mret a).
Proof. intros st n _. reflexivity. Qed.

Lemma touches_raise {A} names e : touches names (@raise A e).
Proof. intros st n _. reflexivity. Qed.

Lemma touches_liftR {A} names (r : result A) : touches names (liftR r).
Proof. intros st n _. reflexivity. Qed.

Lemma touches_contains names name : touches names (contains name).
Proof. intros st n _. reflexivity. Qed.

Lemma touches_getitem names name : touches names (getitem name).
Proof.
  intros st n _. unfold getitem. destruct (f st !! h5path name); reflexivity.
Qed.

Lemma touches_print names msg : touches names (print msg).
Proof. intros st n _. reflexivity. Qed.

Lemma touches_create_dataset names name a :
  name ∈ names -> touches names (create_dataset name a).
Proof.
  intros Hin st n Hn. unfold create_dataset.
  destruct (f st !! name); [reflexivity|]. cbn.
  apply lookup_insert_ne. intros ->. contradiction.
Qed.

Lemma touches_update_attrs names name kvs :
  name ∈ names -> touches names (update_attrs name kvs).
Proof.
  intros Hin st n Hn. apply lookup_update_attrs_ne. intros ->. contradiction.
Qed.

Lemma touches_bind {A B} names (c : M A) (k : A -> M B) :
  touches names c -> (forall a, touches names (k a)) ->
  touches names (c ≫= k).
Proof.
  intros Hc Hk st n Hn. rewrite bind_unfold. specialize (Hc st n Hn).
  destruct (c st) as [[a|e] st1]; simpl in *.
  - rewrite (Hk a st1 n Hn). exact Hc.
  - exact Hc.
Qed.

Lemma touches_reads {A} names (c : M A) : reads c -> touches names c.
Proof. intros Hr st n _. rewrite Hr. reflexivity. Qed.

Ltac in_names :=
  repeat first [ apply list_elem_of_here | apply list_elem_of_further ].

Ltac touches_tac :=
  repeat first
    [ apply touches_bind; [|intros ?]
    | apply touches_ret | apply touches_raise | apply touches_liftR
    | apply touches_contains | apply touches_getitem | apply touches_print
    | apply touches_reads, reads_get_step
    | apply touches_create_dataset; in_names
    | apply touches_update_attrs; in_names
    | match goal with
      | |- touches _ (if ?b then _ else _) => destruct b
      | |- touches _ (match ?x with _ => _ end) => destruct x
      end ].

Lemma keeps_load_nparray s s_name s_unit dt s_help :
  keeps (load_nparray s s_name s_unit dt s_help).
Proof. unfold load_nparray. keeps_tac. Qed.

Lemma keeps_time_window_cyclicize tw : keeps (time_window_cyclicize tw).
Proof. unfold time_window_cyclicize, window_length. keeps_tac. Qed.

Lemma keeps_fft psd : keeps (fft psd).
Proof. unfold fft, working_array. keeps_tac. Qed.

Lemma keeps_freq_filter_Hilbert_complex : keeps freq_filter_Hilbert_complex.
Proof. unfold freq_filter_Hilbert_complex. keeps_tac. Qed.

Lemma keeps_freq_filter_bp bw order style :
  keeps (freq_filter_bp bw order style).
Proof. unfold freq_filter_bp. keeps_tac. Qed.

Lemma keeps_ifft : keeps ifft.
Proof. unfold ifft, ifft_spectrum, ifft_trim. keeps_tac. Qed.

(** X1. No stage of the pipeline alters or removes an array that is
    already stored: after any stage, failed or not, every dataset
    present before it is still present with the same array. *)
Theorem stages_keep_stored_arrays :
  (forall s s_name s_unit dt s_help,
      keeps (load_nparray s s_name s_unit dt s_help))
  /\ (forall mode, keeps (time_mask_binarate mode))
  /\ (forall tw, keeps (time_window_cyclicize tw))
  /\ (forall psd, keeps (fft psd))
  /\ keeps freq_filter_Hilbert_complex
  /\ (forall bw order style, keeps (freq_filter_bp bw order style))
  /\ (forall td, keeps (time_mask_rippleless td))
  /\ keeps ifft
  /\ (forall dt_chunk_target, keeps (fit_phase dt_chunk_target)).
Proof.
  repeat split; intros.
  - apply keeps_load_nparray.
  - apply keeps_time_mask_binarate.
  - apply keeps_time_window_cyclicize.
  - apply keeps_fft.
  - apply keeps_freq_filter_Hilbert_complex.
  - apply keeps_freq_filter_bp.
  - apply keeps_time_mask_rippleless.
  - apply keeps_ifft.
  - apply keeps_fit_phase.
Qed.

(** X2. Each stage writes only under its own output names: every other
    path of the file holds after the stage, failed or not, exactly
    what it held before. *)
Theorem stages_touch_only_their_outputs :
  (forall s s_name s_unit dt s_help,
      touches ["x"; "y"] (load_nparray s s_name s_unit dt s_help))
  /\ (forall mode,
        touches ["workup/time/mask/binarate"; "workup/time/x_binarated"]
          (time_mask_binarate mode))
  /\ (forall tw, touches [window_name] (time_window_cyclicize tw))
  /\ (forall psd, touches [freq_name; FT_name] (fft psd))
  /\ touches ["workup/freq/filter/Hc"] freq_filter_Hilbert_complex
  /\ (forall bw order style,
        touches [bp_name] (freq_filter_bp bw order style))
  /\ (forall td,
        touches [rippleless_name; x_rippleless_name]
          (time_mask_rippleless td))
  /\ touches ["workup/time/z"; "workup/time/p"; "workup/time/a"] ifft
  /\ (forall dt_chunk_target,
        touches ["workup/fit/x"; "workup/fit/y"] (fit_phase dt_chunk_target)).
Proof.
  repeat split; intros.
  - unfold load_nparray. touches_tac.
  - unfold time_mask_binarate. touches_tac.
  - unfold time_window_cyclicize, window_length. touches_tac.
  - unfold fft, working_array. touches_tac.
  - unfold freq_filter_Hilbert_complex. touches_tac.
  - unfold freq_filter_bp. touches_tac.
  - unfold time_mask_rippleless, active_time_axis. touches_tac.
  - unfold ifft, ifft_spectrum, ifft_trim. touches_tac.
  - unfold fit_phase. touches_tac.
Qed.

(** ** Loading a signal *)

Lemma load_nparray_run (s : list R) (s_name s_unit : string) (dt : R)
    (s_help : string) (st : Signal) :
  f st !! "x" = None -> f st !! "y" = None ->
  exists dx dy,
    (load_nparray s s_name s_unit dt s_help st).1 = Ok tt
    /\ f (load_nparray s s_name s_unit dt s_help st).2 !! "x" = Some dx
    /\ data dx
       = AReal (map (fun k => dt * IZR k) (seqZ 0 (Z.of_nat (length s))))
    /\ attrs dx !! "step" = Some (ANum dt)
    /\ attrs dx !! "initial" = Some (ANum 0)
    /\ f (load_nparray s s_name s_unit dt s_help st).2 !! "y" = Some dy
    /\ data dy = AReal s
    /\ attrs dy !! "name" = Some (AStr s_name)
    /\ attrs dy !! "unit" = Some (AStr s_unit)
    /\ attrs dy !! "abscissa" = Some (AStr "x").
Proof.
  intros Hx Hy. unfold load_nparray.
  step_create. rewrite bind_update_attrs. step_create.
  eexists _, _. split; [reflexivity|]. split.
  { cbn [snd]. rewrite lookup_update_attrs_ne by discriminate. cbn [f].
    rewrite lookup_insert_ne by discriminate.
    apply lookup_update_attrs_some, lookup_insert_eq. }
  split; [reflexivity|]. split; [reflexivity|]. split; [reflexivity|].
  split.
  { cbn [snd]. apply lookup_update_attrs_some, lookup_insert_eq. }
  repeat split.
Qed.

(** X3. Loading an array into a signal that has neither [x] nor [y]
    succeeds: [y] holds the samples, [x] holds the times [k dt] for
    [k = 0 .. n-1], and the time step read back by the later stages is
    the [dt] that was given. *)
Theorem load_nparray_fresh (s : list R) (s_name s_unit : string) (dt : R)
    (s_help : string) (st : Signal) :
  f st !! "x" = None -> f st !! "y" = None ->
  let st' := (load_nparray s s_name s_unit dt s_help st).2 in
  (load_nparray s s_name s_unit dt s_help st).1 = Ok tt
  /\ get_step st' = (Ok dt, st')
  /\ exists dx dy xs,
       f st' !! "x" = Some dx /\ data dx = AReal xs
       /\ length xs = length s
       /\ (forall i : nat, (i < length s)%nat -> xs !! i = Some (dt * INR i))
       /\ f st' !! "y" = Some dy /\ data dy = AReal s.
Proof.
  intros Hx Hy st'.
  destruct (load_nparray_run s s_name s_unit dt s_help st Hx Hy)
    as (dx & dy & Hok & Hdx & Hdata & Hstep & _ & Hdy & Hdatay & _).
  fold st' in Hdx, Hdy.
  split; [exact Hok|]. split.
  - unfold get_step.
    rewrite (bind_ok _ _ _ _ _ (getitem_some "x" st' dx Hdx)).
    unfold liftR, get_attr. rewrite Hstep. reflexivity.
  - exists dx, dy, (map (fun k => dt * IZR k) (seqZ 0 (Z.of_nat (length s)))).
    split; [exact Hdx|]. split; [exact Hdata|].
    split; [rewrite length_map, length_seqZ; lia|].
    split; [|auto].
    intros i Hi. rewrite list_lookup_fmap, lookup_seqZ_lt by lia. simpl.
    rewrite Z.add_0_l, <- INR_IZR_INZ. reflexivity.
Qed.

Lemma load_nparray_fresh_witness :
  let st' := (load_nparray [3; 1; 4; 1] "x" "nm" 1 "cantilever displacement"
                Signal_init).2 in
  (load_nparray [3; 1; 4; 1] "x" "nm" 1 "cantilever displacement"
     Signal_init).1 = Ok tt
  /\ get_step st' = (Ok 1, st')
  /\ exists dx dy xs,
       f st' !! "x" = Some dx /\ data dx = AReal xs
       /\ length xs = length [3; 1; 4; 1]
       /\ (forall i : nat, (i < length [3; 1; 4; 1])%nat ->
             xs !! i = Some (1 * INR i))
       /\ f st' !! "y" = Some dy /\ data dy = AReal [3; 1; 4; 1].
Proof.
  apply (load_nparray_fresh [3; 1; 4; 1] "x" "nm" 1 "cantilever displacement"
           Signal_init); reflexivity.
Defined.

(** X4. Loading into a signal that already has a time axis is refused
    and changes nothing; when only the signal [y] is already there,
    the load fails after it has stored the new time axis [x]. *)
Theorem load_nparray_refuses_overwrite (s : list R) (s_name s_unit : string)
    (dt : R) (s_help : string) (st : Signal) (d : Dataset) :
  (f st !! "x" = Some d ->
   load_nparray s s_name s_unit dt s_help st = (Raise NameExists, st))
  /\ (f st !! "x" = None -> f st !! "y" = Some d ->
      (load_nparray s s_name s_unit dt s_help st).1 = Raise NameExists
      /\ is_Some (f (load_nparray s s_name s_unit dt s_help st).2 !! "x")
      /\ f (load_nparray s s_name s_unit dt s_help st).2 !! "y" = Some d).
Proof.
  split.
  - intros Hx. unfold load_nparray.
    rewrite (bind_raise _ _ _ _ _ (create_dataset_taken _ _ _ _ Hx)).
    reflexivity.
  - intros Hx Hy. unfold load_nparray.
    step_create. rewrite bind_update_attrs.
    match goal with
    | |- context [ (create_dataset ?n ?a ≫= ?k) ?s ] =>
        assert (Htaken : f s !! n = Some d)
          by (rewrite lookup_update_attrs_ne by discriminate; cbn [f];
              rewrite lookup_insert_ne by discriminate; exact Hy);
        rewrite (bind_raise _ _ _ _ _ (create_dataset_taken n a s d Htaken));
        clear Htaken
    end.
    cbn [fst snd].
    split; [reflexivity|]. split.
    + eexists. apply lookup_update_attrs_some, lookup_insert_eq.
    + rewrite lookup_update_attrs_ne by discriminate. cbn [f].
      rewrite lookup_insert_ne by discriminate. exact Hy.
Qed.

Lemma load_nparray_refuses_overwrite_witness :
  load_nparray [2; 7] "x" "nm" 1 "cantilever displacement" demo4
  = (Raise NameExists, demo4).
Proof.
  apply (load_nparray_refuses_overwrite [2; 7] "x" "nm" 1
           "cantilever displacement" demo4
           (mkDataset (AReal [1 * 0; 1 * 1; 1 * 2; 1 * 3])
              (<["step" := ANum 1]>
                 (<["initial" := ANum 0]>
                    (<["help" := AStr "time"]>
                       (<["label_latex" := AStr "$t \: [\mathrm{s}]$"]>
                          (<["label" := AStr "t [s]"]>
                             (<["unit" := AStr "s"]>
                                (<["name" := AStr "t"]> ∅))))))))).
  reflexivity.
Defined.

(** ** The length normalizer: failures and the masked time axis *)

(** X5. The length normalizer changes nothing when it cannot build
    its mask: without a signal it raises a key error, on an empty
    signal a value error (the logarithm of zero), and on a signal of
    at least one sample with a mode other than start, middle and end
    it raises on the unbound start index. *)
Theorem time_mask_binarate_refusals (st : Signal) (mode : string) :
  (f st !! "y" = None ->
   time_mask_binarate mode st = (Raise KeyError, st))
  /\ (forall dy, f st !! "y" = Some dy -> array_size (data dy) = 0%Z ->
        time_mask_binarate mode st = (Raise ValueError, st))
  /\ (forall dy, f st !! "y" = Some dy -> (1 <= array_size (data dy))%Z ->
        mode <> "middle" -> mode <> "start" -> mode <> "end" ->
        time_mask_binarate mode st = (Raise UnboundLocalError, st)).
Proof.
  split; [|split].
  - intros Hy. unfold time_mask_binarate.
    rewrite (bind_raise _ _ _ _ _ (getitem_none "y" st Hy)). reflexivity.
  - intros dy Hy Hn. unfold time_mask_binarate.
    rewrite (bind_ok _ _ _ _ _ (getitem_some "y" st dy Hy)).
    rewrite bind_liftR, Hn. reflexivity.
  - intros dy Hy Hn M1 M2 M3. unfold time_mask_binarate.
    rewrite (bind_ok _ _ _ _ _ (getitem_some "y" st dy Hy)).
    destruct (nearest_pow2_ok _ Hn) as [Hp2 _].
    rewrite bind_liftR, Hp2, bind_liftR. unfold binarate_bounds.
    destruct (decide (mode = "middle")); [contradiction|].
    destruct (decide (mode = "start")); [contradiction|].
    destruct (decide (mode = "end")); [contradiction|]. reflexivity.
Qed.

Lemma time_mask_binarate_refusals_witness :
  time_mask_binarate "centre" demo4 = (Raise UnboundLocalError, demo4)
  /\ time_mask_binarate "middle" Signal_init = (Raise KeyError, Signal_init).
Proof.
  destruct (time_mask_binarate_refusals demo4 "centre") as (_ & _ & H).
  destruct (time_mask_binarate_refusals Signal_init "middle") as (H0 & _).
  split.
  - eapply H; [reflexivity|simpl; lia|discriminate..].
  - apply H0. reflexivity.
Defined.

Lemma np_item_some {A} (l : list A) i v : l !! i = Some v -> np_item l i = Ok v.
Proof. intros H. unfold np_item. rewrite H. reflexivity. Qed.

Lemma np_getitem_range_mask {A} (xs : list A) (n a b : Z) :
  Z.of_nat (length xs) = n ->
  (0 <= a)%Z -> (a <= b)%Z -> (b <= n)%Z ->
  np_getitem_mask xs (range_mask n a b)
  = Ok (take (Z.to_nat (b - a)) (drop (Z.to_nat a) xs)).
Proof.
  intros <- Ha Hab Hb. unfold np_getitem_mask.
  rewrite range_mask_length.
  destruct (decide _) as [_|Hne]; [|lia]. f_equal.
  rewrite range_mask_blocks by assumption.
  set (l1 := take (Z.to_nat a) xs).
  set (l2 := take (Z.to_nat (b - a)) (drop (Z.to_nat a) xs)).
  set (l3 := drop (Z.to_nat (b - a)) (drop (Z.to_nat a) xs)).
  assert (Hsplit : xs = l1 ++ l2 ++ l3).
  { unfold l1, l2, l3. rewrite !take_drop. reflexivity. }
  assert (H1 : length l1 = Z.to_nat a)
    by (unfold l1; rewrite length_take; lia).
  assert (H2 : length l2 = Z.to_nat (b - a))
    by (unfold l2; rewrite length_take, length_drop; lia).
  assert (H3 : length l3 = Z.to_nat (Z.of_nat (length xs) - b))
    by (unfold l3; rewrite !length_drop; lia).
  rewrite <- H1, <- H2, <- H3.
  transitivity (np_compress
                  (replicate (length l1) false ++ replicate (length l2) true
                   ++ replicate (length l3) false) (l1 ++ l2 ++ l3)).
  { f_equal. exact Hsplit. }
  rewrite np_compress_app by apply length_replicate.
  rewrite np_compress_app by apply length_replicate.
  rewrite !np_compress_none, np_compress_all, app_nil_r. reflexivity.
Qed.

(** The state the length normalizer leaves up to the creation of the
    masked time axis. *)
Lemma time_mask_binarate_prefix (st : Signal) (dy dx : Dataset) (xs : list R)
    (mode : string) (start : Z) :
  let n := array_size (data dy) in
  let n2 := (2 ^ Z.log2 n)%Z in
  f st !! "y" = Some dy ->
  f st !! "x" = Some dx ->
  data dx = AReal xs ->
  Z.of_nat (length xs) = n ->
  (1 <= n)%Z ->
  f st !! binarate_name = None ->
  f st !! x_binarated_name = None ->
  (mode = "start" /\ start = 0%Z)
  \/ (mode = "middle" /\ start = ((n - n2) / 2)%Z)
  \/ (mode = "end" /\ start = (n - n2)%Z) ->
  exists st2 xb,
    time_mask_binarate mode st
    = (x0 ← liftR (np_item xb 0);
       x1 ← liftR (np_item xb 1);
       update_attrs "workup/time/x_binarated"
         [("name", AStr "t_masked"); ("unit", AStr "s");
          ("label", AStr "t [s]");
          ("label_latex", AStr "$t \: [\mathrm{s}]$");
          ("help", AStr "time");
          ("initial", ANum x0); ("step", ANum (x1 - x0))]) st2
    /\ xb = take (Z.to_nat n2) (drop (Z.to_nat start) xs)
    /\ length xb = Z.to_nat n2
    /\ (exists d, f st2 !! binarate_name = Some d
                  /\ data d = ABool (range_mask n start (start + n2)))
    /\ f st2 !! x_binarated_name = Some (mkDataset (AReal xb) ∅)
    /\ stdout st2 = stdout st.
Proof.
  intros n n2 Hy Hx Hdx Hlen Hn Hf1 Hf2 Hmode.
  destruct (nearest_pow2_ok n Hn) as [Hp2 Hn2]. fold n2 in Hp2, Hn2.
  destruct (binarate_bounds_ok n n2 mode start Hmode) as (stop & Hb & ->).
  assert (Hstart : (0 <= start /\ start + n2 <= n)%Z).
  { destruct Hmode as [[_ ->]|[[_ ->]|[_ ->]]]; [lia| |lia].
    split; [apply Z.div_pos; lia|].
    pose proof (Z.mul_div_le (n - n2) 2 ltac:(lia)). lia. }
  unfold time_mask_binarate.
  rewrite (bind_ok _ _ _ _ _ (getitem_some "y" st dy Hy)).
  fold n. rewrite bind_liftR, Hp2. rewrite bind_liftR, Hb. cbn [fst snd].
  rewrite (bind_ok _ _ _ _ _ (create_dataset_fresh _ _ _ Hf1)).
  rewrite bind_update_attrs.
  match goal with
  | |- context [ (getitem "x" ≫= ?k) ?s ] =>
      rewrite (bind_ok _ _ _ _ _ (getitem_some "x" s dx
                 ltac:(rewrite lookup_update_attrs_ne by discriminate;
                       cbn [f]; rewrite lookup_insert_ne by discriminate;
                       exact Hx)))
  end.
  rewrite bind_liftR, Hdx. cbn [mbind result_bind as_real].
  rewrite (np_getitem_range_mask xs n) by lia.
  replace (start + n2 - start)%Z with n2 by lia.
  match goal with
  | |- context [ (create_dataset ?nm ?a ≫= ?k) ?s ] =>
      assert (Hfree : f s !! nm = None)
        by (rewrite lookup_update_attrs_ne by discriminate; cbn [f];
            rewrite lookup_insert_ne by discriminate; exact Hf2);
      rewrite (bind_ok _ _ _ _ _ (create_dataset_fresh nm a s Hfree));
      clear Hfree
  end.
  eexists _, _. split; [reflexivity|]. split; [reflexivity|].
  split; [rewrite length_take, length_drop; lia|].
  split.
  { cbn [f]. rewrite lookup_insert_ne by discriminate.
    apply (lookup_update_attrs_eq _ _ _
             (mkDataset (ABool (range_mask n start (start + n2))) ∅)).
    apply lookup_insert_eq. }
  split; [apply lookup_insert_eq|reflexivity].
Qed.

(** X6. On a signal of [n >= 2] samples with its time axis of the same
    length, the length normalizer succeeds; the masked time axis it
    stores holds the [n2] times from position [start] on, and its
    [initial] and [step] attributes are the first of these times and
    the difference of the first two. *)
Theorem time_mask_binarate_axis (st : Signal) (dy dx : Dataset) (xs : list R)
    (mode : string) (start : Z) :
  let n := array_size (data dy) in
  let n2 := (2 ^ Z.log2 n)%Z in
  f st !! "y" = Some dy ->
  f st !! "x" = Some dx ->
  data dx = AReal xs ->
  Z.of_nat (length xs) = n ->
  (2 <= n)%Z ->
  f st !! binarate_name = None ->
  f st !! x_binarated_name = None ->
  (mode = "start" /\ start = 0%Z)
  \/ (mode = "middle" /\ start = ((n - n2) / 2)%Z)
  \/ (mode = "end" /\ start = (n - n2)%Z) ->
  exists d x0 x1,
    (time_mask_binarate mode st).1 = Ok tt
    /\ f (time_mask_binarate mode st).2 !! x_binarated_name = Some d
    /\ data d = AReal (take (Z.to_nat n2) (drop (Z.to_nat start) xs))
    /\ xs !! Z.to_nat start = Some x0
    /\ xs !! S (Z.to_nat start) = Some x1
    /\ attrs d !! "initial" = Some (ANum x0)
    /\ attrs d !! "step" = Some (ANum (x1 - x0)).
Proof.
  intros n n2 Hy Hx Hdx Hlen Hn Hf1 Hf2 Hmode.
  destruct (time_mask_binarate_prefix st dy dx xs mode start)
    as (st2 & xb & Hrun & Hxb & Hlxb & _ & Hst2 & _); try assumption; [lia|].
  fold n n2 in Hxb, Hlxb, Hrun.
  assert (Hn2 : (2 <= n2)%Z).
  { unfold n2. pose proof (Z.log2_le_mono 2 n ltac:(lia)) as Hl.
    change (Z.log2 2) with 1%Z in Hl.
    pose proof (Z.pow_le_mono_r 2 1 (Z.log2 n) ltac:(lia) Hl). lia. }
  destruct (lookup_lt_is_Some_2 xb 0 ltac:(lia)) as [x0 Hx0].
  destruct (lookup_lt_is_Some_2 xb 1 ltac:(lia)) as [x1 Hx1].
  rewrite Hrun.
  rewrite bind_liftR, (np_item_some _ _ _ Hx0).
  rewrite bind_liftR, (np_item_some _ _ _ Hx1).
  exists (mkDataset (AReal xb)
            (foldl (fun m kv => <[kv.1 := kv.2]> m) ∅
               [("name", AStr "t_masked"); ("unit", AStr "s");
                ("label", AStr "t [s]");
                ("label_latex", AStr "$t \: [\mathrm{s}]$");
                ("help", AStr "time");
                ("initial", ANum x0); ("step", ANum (x1 - x0))])), x0, x1.
  split; [reflexivity|]. split.
  { apply (lookup_update_attrs_some _ _ _ (mkDataset (AReal xb) ∅)), Hst2. }
  split; [rewrite Hxb; reflexivity|].
  rewrite Hxb in Hx0, Hx1.
  rewrite lookup_take_lt, lookup_drop in Hx0 by lia.
  rewrite lookup_take_lt, lookup_drop in Hx1 by lia.
  rewrite Nat.add_0_r in Hx0. rewrite Nat.add_1_r in Hx1.
  repeat split; assumption.
Qed.

Lemma time_mask_binarate_axis_witness :
  exists d x0 x1,
    (time_mask_binarate "end" demo4).1 = Ok tt
    /\ f (time_mask_binarate "end" demo4).2 !! x_binarated_name = Some d
    /\ data d = AReal (take 4 (drop 0 [1 * 0; 1 * 1; 1 * 2; 1 * 3]))
    /\ [1 * 0; 1 * 1; 1 * 2; 1 * 3] !! 0%nat = Some x0
    /\ [1 * 0; 1 * 1; 1 * 2; 1 * 3] !! 1%nat = Some x1
    /\ attrs d !! "initial" = Some (ANum x0)
    /\ attrs d !! "step" = Some (ANum (x1 - x0)).
Proof.
  pose proof (time_mask_binarate_axis demo4
           (default (mkDataset (AReal []) ∅) (f demo4 !! "y"))
           (default (mkDataset (AReal []) ∅) (f demo4 !! "x"))
           [1 * 0; 1 * 1; 1 * 2; 1 * 3] "end" 0) as H.
  change (array_size
            (data (default (mkDataset (AReal []) ∅) (f demo4 !! "y"))))
    with 4%Z in H.
  change (2 ^ Z.log2 4)%Z with 4%Z in H.
  change (Z.to_nat 4) with 4%nat in H.
  change (Z.to_nat 0) with 0%nat in H.
  apply H.
  - reflexivity.
  - reflexivity.
  - reflexivity.
  - reflexivity.
  - lia.
  - reflexivity.
  - reflexivity.
  - right. right. split; reflexivity.
Defined.

(** X7. A signal of a single sample cannot be normalized: the stage
    stores the one-entry mask and the one-entry masked time axis and
    then fails with an index error on the second entry that the [step]
    attribute needs. *)
Theorem time_mask_binarate_single_sample (st : Signal) (dy dx : Dataset)
    (x0 : R) (mode : string) :
  f st !! "y" = Some dy ->
  array_size (data dy) = 1%Z ->
  f st !! "x" = Some dx ->
  data dx = AReal [x0] ->
  f st !! binarate_name = None ->
  f st !! x_binarated_name = None ->
  mode = "start" \/ mode = "middle" \/ mode = "end" ->
  (time_mask_binarate mode st).1 = Raise IndexError
  /\ (exists d, f (time_mask_binarate mode st).2 !! binarate_name = Some d
                /\ data d = ABool [true])
  /\ (exists d, f (time_mask_binarate mode st).2 !! x_binarated_name = Some d
                /\ data d = AReal [x0]).
Proof.
  intros Hy Hn Hx Hdx Hf1 Hf2 Hmode.
  destruct (time_mask_binarate_prefix st dy dx [x0] mode 0)
    as (st2 & xb & Hrun & Hxb & _ & (d & Hd & Hdata) & Hst2 & _);
    try assumption; try (rewrite Hn; reflexivity || lia).
  { rewrite Hn. simpl. destruct Hmode as [->|[->| ->]]; auto. }
  rewrite Hn in Hxb, Hdata. simpl in Hxb. subst xb.
  rewrite Hrun. rewrite bind_liftR. cbn [np_item lookup list_lookup].
  rewrite bind_liftR. cbn [np_item lookup list_lookup fst snd].
  split; [reflexivity|]. split; eauto.
Qed.

Lemma time_mask_binarate_single_sample_witness :
  let st := (load_nparray [5] "x" "nm" 1 "cantilever displacement"
               Signal_init).2 in
  (time_mask_binarate "middle" st).1 = Raise IndexError
  /\ (exists d, f (time_mask_binarate "middle" st).2 !! binarate_name = Some d
                /\ data d = ABool [true])
  /\ (exists d, f (time_mask_binarate "middle" st).2 !! x_binarated_name
                = Some d
                /\ data d = AReal [1 * 0]).
Proof.
  eapply (time_mask_binarate_single_sample _ _ _ (1 * 0) "middle").
  - reflexivity.
  - reflexivity.
  - reflexivity.
  - reflexivity.
  - reflexivity.
  - reflexivity.
  - auto.
Defined.

(** ** The taper builder: the width it records *)

(** X8. For a positive time step, whenever the taper fits the record
    ([2 ww <= m] with [ww = ceil(tw/dt)]) the taper builder succeeds
    and records, beside the requested width [tw] and the axis the
    window belongs to, the width it realised, [ww dt]: the requested
    width rounded up to a whole number of samples, so at least [tw]
    and less than [tw + dt]. *)
Theorem time_window_cyclicize_actual_width (st : Signal) (tw : R) (m : Z)
    (a : string) (dt : R) :
  window_length st = (Ok (m, a), st) ->
  get_step st = (Ok dt, st) ->
  0 < dt ->
  f st !! window_name = None ->
  (2 * py_ceil (tw / dt) <= m)%Z ->
  exists d twa,
    (time_window_cyclicize tw st).1 = Ok tt
    /\ f (time_window_cyclicize tw st).2 !! window_name = Some d
    /\ attrs d !! "abscissa" = Some (AStr a)
    /\ attrs d !! "t_window" = Some (ANum tw)
    /\ attrs d !! "t_window_actual" = Some (ANum twa)
    /\ twa = IZR (py_ceil (tw / dt)) * dt
    /\ tw <= twa < tw + dt.
Proof.
  intros Hlen Hstep Hdt Hfresh Hww.
  destruct (cyclicize_window_ok m (py_ceil (tw / dt)) Hww) as [w Hw].
  unfold time_window_cyclicize.
  rewrite (bind_ok _ _ _ _ _ Hlen). cbn [fst snd].
  rewrite (bind_ok _ _ _ _ _ Hstep).
  rewrite bind_liftR, py_ceil_div_ok by lra.
  rewrite bind_liftR, Hw.
  rewrite (bind_ok _ _ _ _ _ (create_dataset_fresh _ _ _ Hfresh)).
  eexists _, (IZR (py_ceil (tw / dt)) * dt).
  split; [reflexivity|]. split.
  { cbn [snd]. apply lookup_update_attrs_some. apply lookup_insert_eq. }
  split; [reflexivity|]. split; [reflexivity|]. split; [reflexivity|].
  split; [reflexivity|].
  pose proof (py_ceil_bound (tw / dt)) as [Hlo Hhi].
  assert (Htw : tw = tw / dt * dt) by (field; lra).
  split.
  - rewrite Htw at 1. apply Rmult_le_compat_r; lra.
  - rewrite Htw at 2. nra.
Qed.

Lemma time_window_cyclicize_actual_width_witness :
  exists d twa,
    (time_window_cyclicize (3 / 2) demo4).1 = Ok tt
    /\ f (time_window_cyclicize (3 / 2) demo4).2 !! window_name = Some d
    /\ attrs d !! "abscissa" = Some (AStr "x")
    /\ attrs d !! "t_window" = Some (ANum (3 / 2))
    /\ attrs d !! "t_window_actual" = Some (ANum twa)
    /\ twa = IZR (py_ceil (3 / 2 / 1)) * 1
    /\ 3 / 2 <= twa < 3 / 2 + 1.
Proof.
  apply (time_window_cyclicize_actual_width demo4 (3 / 2) 4 "x" 1).
  - exact demo4_window_length.
  - exact demo4_step.
  - lra.
  - reflexivity.
  - replace (py_ceil (3 / 2 / 1)) with 2%Z; [lia|].
    symmetry. apply Zceil_eq. simpl. lra.
Defined.

(** ** The spectral transform: refusals and records that are too short *)

(** X9. The spectral transform changes nothing when it has nothing to
    transform: without a signal it raises a key error, and on an empty
    working array the transform itself is refused with a value error,
    in either mode. *)
Theorem fft_refusals (psd : bool) (st : Signal) :
  (f st !! "y" = None -> fft psd st = (Raise KeyError, st))
  /\ (forall dt dy name_orig unit_orig,
        working_array st = (Ok [], st) ->
        get_step st = (Ok dt, st) ->
        f st !! "y" = Some dy ->
        get_attr dy "name" = Ok (AStr name_orig) ->
        get_attr dy "unit" = Ok (AStr unit_orig) ->
        fft psd st = (Raise ValueError, st)).
Proof.
  split.
  - intros Hy. unfold fft, working_array.
    rewrite (bind_raise _ _ _ KeyError st); [reflexivity|].
    rewrite (bind_raise _ _ _ _ _ (getitem_none "y" st Hy)). reflexivity.
  - intros dt dy name_orig unit_orig Hs Hdt Hy Hname Hunit. unfold fft.
    rewrite (bind_ok _ _ _ _ _ Hs), (bind_ok _ _ _ _ _ Hdt).
    rewrite (bind_ok _ _ _ _ _ (getitem_some "y" st dy Hy)).
    rewrite bind_liftR, Hname. cbn [mbind result_bind as_str].
    rewrite bind_liftR, Hunit. cbn [mbind result_bind as_str].
    rewrite bind_liftR. destruct psd; reflexivity.
Qed.

Lemma fft_refusals_witness :
  fft true Signal_init = (Raise KeyError, Signal_init).
Proof. apply (fft_refusals true Signal_init). reflexivity. Defined.

(** X10. A record too short to give the frequency axis two points is
    transformed only in part: with one sample in linear mode, or with
    one or two samples in power mode (where only the non-negative
    frequencies are kept), the stage stores the frequency axis, fails
    with an index error on the second frequency that the [step]
    attribute needs, and never stores the transform. *)
Theorem fft_short_record (psd : bool) (st : Signal) (s : list R) (dt : R)
    (dy : Dataset) (name_orig unit_orig : string) :
  working_array st = (Ok s, st) ->
  get_step st = (Ok dt, st) ->
  0 < dt ->
  (psd = false /\ length s = 1%nat)
  \/ (psd = true /\ (1 <= length s <= 2)%nat) ->
  f st !! "y" = Some dy ->
  get_attr dy "name" = Ok (AStr name_orig) ->
  get_attr dy "unit" = Ok (AStr unit_orig) ->
  f st !! freq_name = None ->
  f st !! FT_name = None ->
  (fft psd st).1 = Raise IndexError
  /\ (exists d fr, f (fft psd st).2 !! freq_name = Some d
                   /\ data d = AReal fr /\ length fr = 1%nat)
  /\ f (fft psd st).2 !! FT_name = None.
Proof.
  intros Hs Hdt Hpos Hshort Hy Hname Hunit Hf1 Hf2.
  assert (Hne : s <> []).
  { destruct s; [|discriminate]. simpl in Hshort. lia. }
  unfold fft.
  rewrite (bind_ok _ _ _ _ _ Hs), (bind_ok _ _ _ _ _ Hdt).
  rewrite (bind_ok _ _ _ _ _ (getitem_some "y" st dy Hy)).
  rewrite bind_liftR, Hname. cbn [mbind result_bind as_str].
  rewrite bind_liftR, Hunit. cbn [mbind result_bind as_str].
  destruct Hshort as [[-> Hlen]|[-> Hlen]].
  - rewrite bind_liftR. unfold fft_linear. rewrite np_fft_ok by assumption.
    cbn [mbind result_bind mret result_ret].
    step_create.
    rewrite bind_liftR. cbn [np_item].
    set (fr := np_fftshift _).
    assert (Hfr : length fr = 1%nat).
    { unfold fr. rewrite np_fftshift_length, np_fftfreq_length; lia. }
    destruct (np_item_ok fr 0 ltac:(lia)) as [f0 Hf0].
    fold (np_item fr 0). rewrite Hf0.
    rewrite bind_liftR, np_item_short by lia.
    split; [reflexivity|]. cbn [snd f]. split.
    + eexists _, _. split; [apply lookup_insert_eq|].
      split; [reflexivity|]. rewrite length_map. exact Hfr.
    + rewrite lookup_insert_ne by discriminate. exact Hf2.
  - rewrite bind_liftR, fft_power_closed_form by assumption.
    cbn [mbind result_bind].
    rewrite (single_sided _ (length s))
      by (try apply np_fftfreq_length; auto; lia).
    cbn [mbind result_bind mret result_ret].
    step_create.
    set (fr := take (length s - length s / 2) _).
    assert (Hfr : length fr = 1%nat).
    { unfold fr. rewrite length_take, np_fftfreq_length by lia.
      destruct Hlen as [H1 H2].
      destruct (length s) as [|[|[|k]]]; simpl in *; try lia; reflexivity. }
    destruct (np_item_ok fr 0 ltac:(lia)) as [f0 Hf0].
    rewrite bind_liftR, Hf0.
    rewrite bind_liftR, np_item_short by lia.
    split; [reflexivity|]. cbn [snd f]. split.
    + eexists _, _. split; [apply lookup_insert_eq|].
      split; [reflexivity|]. rewrite length_map. exact Hfr.
    + rewrite lookup_insert_ne by discriminate. exact Hf2.
Qed.

Lemma fft_short_record_witness :
  let st := (load_nparray [3; 1] "x" "nm" 1 "cantilever displacement"
               Signal_init).2 in
  (fft true st).1 = Raise IndexError
  /\ (exists d fr, f (fft true st).2 !! freq_name = Some d
                   /\ data d = AReal fr /\ length fr = 1%nat)
  /\ f (fft true st).2 !! FT_name = None.
Proof.
  apply (fft_short_record true _ [3; 1] 1
           (default (mkDataset (AReal []) ∅)
              (f (load_nparray [3; 1] "x" "nm" 1 "cantilever displacement"
                    Signal_init).2 !! "y"))
           "x" "nm").
  - reflexivity.
  - reflexivity.
  - lra.
  - right. split; [reflexivity|]. simpl. lia.
  - reflexivity.
  - reflexivity.
  - reflexivity.
  - reflexivity.
  - reflexivity.
Defined.

(** ** The spectral transform in linear mode: axis and bins aligned *)

(** X11. In linear mode, on a working array of [m >= 2] samples, the
    spectral transform succeeds and stores a frequency axis and a
    transform of [m] entries each that belong together: entry [i] of
    the axis is the frequency [(i - m//2)/(m dt)], given in kHz, so
    the axis ascends evenly with zero frequency at position [m//2],
    and entry [i] of the transform is [dt] times the bin of the
    discrete Fourier transform at that frequency, bin
    [(i + m - m//2) mod m]. *)
Theorem fft_linear_aligned (st : Signal) (s : list R) (dt : R)
    (dy : Dataset) (name_orig unit_orig : string) :
  working_array st = (Ok s, st) ->
  get_step st = (Ok dt, st) ->
  dt <> 0 ->
  (2 <= length s)%nat ->
  f st !! "y" = Some dy ->
  get_attr dy "name" = Ok (AStr name_orig) ->
  get_attr dy "unit" = Ok (AStr unit_orig) ->
  f st !! freq_name = None ->
  f st !! FT_name = None ->
  let m := length s in
  exists (dfreq dFT : Dataset) (kHz : list R) (L : list C),
    (fft false st).1 = Ok tt
    /\ f (fft false st).2 !! freq_name = Some dfreq
    /\ data dfreq = AReal kHz
    /\ f (fft false st).2 !! FT_name = Some dFT
    /\ data dFT = ACplx L
    /\ length kHz = m
    /\ length L = m
    /\ forall i : nat, (i < m)%nat ->
         kHz !! i = Some ((INR i - INR (m / 2)) / (INR m * dt) / 1000)
         /\ L !! i
            = Some (Cscale dt (dft_bin s ((i + (m - m / 2)) mod m)%nat)).
Proof.
  intros Hs Hdt Hnz Hm Hy Hname Hunit Hf1 Hf2 m.
  assert (Hne : s <> []) by (destruct s; [simpl in Hm; lia|discriminate]).
  unfold fft.
  rewrite (bind_ok _ _ _ _ _ Hs), (bind_ok _ _ _ _ _ Hdt).
  rewrite (bind_ok _ _ _ _ _ (getitem_some "y" st dy Hy)).
  rewrite bind_liftR, Hname. cbn [mbind result_bind as_str].
  rewrite bind_liftR, Hunit. cbn [mbind result_bind as_str].
  rewrite bind_liftR. unfold fft_linear. rewrite np_fft_ok by assumption.
  cbn [mbind result_bind mret result_ret]. fold m.
  step_create.
  set (fr := np_fftshift (np_fftfreq (Z.of_nat m) dt)).
  assert (Hfr : length fr = m).
  { unfold fr. rewrite np_fftshift_length, np_fftfreq_length; lia. }
  destruct (np_item_ok fr 0 ltac:(lia)) as [f0 Hf0].
  destruct (np_item_ok fr 1 ltac:(lia)) as [f1 Hf1'].
  rewrite bind_liftR, Hf0, bind_liftR, Hf1'.
  rewrite bind_update_attrs. step_create.
  eexists _, _, (map (fun v => v / 1000) fr),
    (map (Cscale dt) (np_fftshift (map (dft_bin s) (seq 0 m)))).
  split; [reflexivity|]. split.
  { cbn [snd]. rewrite lookup_update_attrs_ne by discriminate. cbn [f].
    rewrite lookup_insert_ne by discriminate.
    apply lookup_update_attrs_some. apply lookup_insert_eq. }
  split; [reflexivity|]. split.
  { cbn [snd]. apply lookup_update_attrs_some. apply lookup_insert_eq. }
  split; [reflexivity|].
  split; [rewrite length_map; exact Hfr|].
  split; [rewrite length_map, np_fftshift_length, length_map, length_seq;
          reflexivity|].
  intros i Hi. split.
  - change (map ?g ?l) with (g <$> l). rewrite list_lookup_fmap.
    unfold fr. rewrite fftshift_fftfreq_lookup by lia.
    cbn [fmap option_fmap option_map]. f_equal. unfold Rdiv. ring.
  - change (map (Cscale dt) ?l) with (Cscale dt <$> l).
    rewrite list_lookup_fmap, fftshift_lookup
      by (rewrite length_map, length_seq; exact Hi).
    rewrite length_map, length_seq.
    change (map ?g ?l) with (g <$> l).
    rewrite list_lookup_fmap, lookup_seq_lt
      by (apply Nat.mod_upper_bound; lia).
    reflexivity.
Qed.

Lemma fft_linear_aligned_witness :
  exists (dfreq dFT : Dataset) (kHz : list R) (L : list C),
    (fft false demo4).1 = Ok tt
    /\ f (fft false demo4).2 !! freq_name = Some dfreq
    /\ data dfreq = AReal kHz
    /\ f (fft false demo4).2 !! FT_name = Some dFT
    /\ data dFT = ACplx L
    /\ length kHz = 4%nat
    /\ length L = 4%nat
    /\ forall i : nat, (i < 4)%nat ->
         kHz !! i = Some ((INR i - INR (4 / 2)) / (INR 4 * 1) / 1000)
         /\ L !! i
            = Some (Cscale 1 (dft_bin [3; 1; 4; 1]
                                ((i + (4 - 4 / 2)) mod 4)%nat)).
Proof.
  apply (fft_linear_aligned demo4 [3; 1; 4; 1] 1
           (default (mkDataset (AReal []) ∅) (f demo4 !! "y")) "x" "nm").
  - exact demo4_working_array.
  - exact demo4_step.
  - lra.
  - simpl. lia.
  - reflexivity.
  - reflexivity.
  - reflexivity.
  - reflexivity.
  - reflexivity.
Defined.

(** ** The bandpass filter: a completed run and the range of its weights *)

Lemma np_put_Forall (P : R -> Prop) (a : list R) idx vals :
  Forall P a -> Forall P vals -> Forall P (np_put a idx vals).
Proof.
  unfold np_put. revert a vals.
  induction idx as [|j idx IH]; intros a vals Ha Hv.
  - exact Ha.
  - destruct vals as [|v vals]; [exact Ha|]. simpl.
    inversion Hv; subst. apply IH; [|assumption].
    apply Forall_insert; assumption.
Qed.

Lemma np_linspace_0_PI (k : nat) :
  Forall (fun x => 0 <= x <= PI) (np_linspace 0 PI k).
Proof.
  pose proof PI_RGT_0 as Hpi.
  destruct k as [|[|k]]; unfold np_linspace.
  - constructor.
  - repeat constructor; lra.
  - apply Forall_forall. intros x Hx.
    apply list_elem_of_fmap in Hx as (i & -> & Hi).
    apply list_elem_of_In, in_seq in Hi.
    assert (Hk : 0 < INR (S (S k) - 1)) by (apply lt_0_INR; lia).
    assert (Hik : INR i <= INR (S (S k) - 1)) by (apply le_INR; lia).
    assert (H0 : 0 <= INR i) by apply pos_INR.
    set (n := INR (S (S k) - 1)) in *.
    replace (0 + INR i * ((PI - 0) / n)) with (PI * (INR i / n))
      by (field; lra).
    assert (Hq : 0 <= INR i / n <= 1).
    { split.
      - apply Rmult_le_pos; [assumption|].
        apply Rlt_le, Rinv_0_lt_compat, Hk.
      - apply (Rmult_le_reg_r n); [assumption|].
        replace (INR i / n * n) with (INR i) by (field; lra). lra. }
    nra.
Qed.

Lemma bp_weights_range (style : string) (order : nat) (freq : list R)
    (fc bw : R) (bp : list R) :
  bp_weights style order freq fc bw = Some bp ->
  length bp = length freq /\ Forall (fun w => 0 <= w <= 1) bp.
Proof.
  unfold bp_weights.
  destruct (decide (style = "brick wall")) as [_|_];
    [|destruct (decide (style = "cosine")) as [_|_];
      [|destruct (decide (style = "gaussian")) as [_|_]]];
    intros [= <-].
  - unfold bp_brick_wall. rewrite !length_map. split; [reflexivity|].
    apply Forall_forall. intros w Hw.
    apply list_elem_of_fmap in Hw as (u & -> & _).
    assert (Hp : 0 <= Rabs u ^ order) by (apply pow_le, Rabs_pos).
    split.
    + apply Rlt_le, Rdiv_lt_0_compat; lra.
    + apply (Rmult_le_reg_r (1 + Rabs u ^ order)); [lra|].
      replace (1 / (1 + Rabs u ^ order) * (1 + Rabs u ^ order)) with 1
        by (field; lra).
      lra.
  - split; [apply bp_cosine_length|].
    unfold bp_cosine. apply np_put_Forall.
    + apply Forall_replicate. lra.
    + apply Forall_forall. intros w Hw.
      apply list_elem_of_fmap in Hw as (x & -> & Hx).
      pose proof (np_linspace_0_PI
                    (length (np_compress
                       (map (fun v => Rleb (-1 * bw + fc) v
                                      && Rleb v (bw + fc)) freq)
                       (seq 0 (length freq))))) as HF.
      rewrite Forall_forall in HF.
      apply HF in Hx.
      split; [apply sin_ge_0; lra|apply SIN_bound].
  - unfold bp_gaussian. rewrite !length_map. split; [reflexivity|].
    apply Forall_forall. intros w Hw.
    apply list_elem_of_fmap in Hw as (u & -> & _).
    split; [apply Rlt_le, exp_pos|].
    rewrite <- exp_0.
    destruct (Req_dec (-1 * u ^ 2) 0) as [->|Hne]; [lra|].
    apply Rlt_le, exp_increasing. simpl in *. nra.
Qed.

(** The whole run of the bandpass stage, once its inputs are in place
    and the weights have the length of the axis. *)
Lemma freq_filter_bp_run (st : Signal) (bw : R) (order : nat)
    (style : string) (dfreq dHc dFT : Dataset) (freq Hc absFT bp : list R)
    (fc : R) :
  f st !! "workup/freq/freq" = Some dfreq ->
  as_real (data dfreq) = Ok freq ->
  f st !! "workup/freq/filter/Hc" = Some dHc ->
  as_real (data dHc) = Ok Hc ->
  f st !! "workup/freq/FT" = Some dFT ->
  array_abs (data dFT) = Ok absFT ->
  length Hc = length freq ->
  length absFT = length freq ->
  center_frequency freq Hc absFT = Ok fc ->
  bp_weights style order freq fc bw = Some bp ->
  length bp = length freq ->
  f st !! bp_name = None ->
  freq_filter_bp bw order style st
  = (Ok tt,
     (update_attrs bp_name
        [("name", AStr "bp"); ("unit", AStr "unitless");
         ("label", AStr "bp(f)"); ("label_latex", AStr "$\mathrm{bp}(f)$");
         ("help", AStr "bandpass filter");
         ("abscissa", AStr "workup/freq/freq")]
        (mkSignal (<[bp_name := mkDataset (AReal bp) ∅]> (f st))
           (stdout st))).2).
Proof.
  intros H1 R1 H2 R2 H3 R3 L1 L2 Hfc Hbp Lbp Hfresh. unfold freq_filter_bp.
  rewrite (bind_ok _ _ _ _ _ (getitem_some "workup/freq/freq" st _ H1)).
  rewrite bind_liftR, R1.
  rewrite (bind_ok _ _ _ _ _ (getitem_some "workup/freq/filter/Hc" st _ H2)).
  rewrite bind_liftR, R2.
  rewrite (bind_ok _ _ _ _ _ (getitem_some "workup/freq/FT" st _ H3)).
  rewrite bind_liftR, R3.
  rewrite bind_liftR, Hfc, Hbp.
  rewrite bind_unfold. cbn [mret M_ret]. rewrite bind_unfold. cbn [mret M_ret].
  rewrite (bind_ok _ _ _ _ _ (create_dataset_fresh _ _ _ Hfresh)).
  rewrite bind_update_attrs.
  rewrite bind_liftR, (np_mul_same_length Hc bp) by congruence.
  cbn [mbind result_bind].
  rewrite np_mul_same_length
    by (rewrite length_zip_with; rewrite L1, Lbp, L2; lia).
  rewrite bind_liftR, np_mul_same_length
    by (rewrite !length_zip_with; rewrite L1, Lbp, L2; lia).
  reflexivity.
Qed.

(** X12. With the frequency axis, the Hilbert filter and the spectrum
    in place, all of one length that is not zero, a bandpass request in
    one of the three styles succeeds: it stores, against the frequency
    axis, one weight for every frequency, and every weight lies between
    0 and 1. *)
Theorem freq_filter_bp_weights_in_unit_interval (st : Signal) (bw : R)
    (order : nat) (style : string) (dfreq dHc dFT : Dataset)
    (freq Hc absFT : list R) :
  0 < bw ->
  f st !! "workup/freq/freq" = Some dfreq ->
  as_real (data dfreq) = Ok freq ->
  f st !! "workup/freq/filter/Hc" = Some dHc ->
  as_real (data dHc) = Ok Hc ->
  f st !! "workup/freq/FT" = Some dFT ->
  array_abs (data dFT) = Ok absFT ->
  length Hc = length freq ->
  length absFT = length freq ->
  freq <> [] ->
  f st !! bp_name = None ->
  style = "brick wall" \/ style = "cosine" \/ style = "gaussian" ->
  exists d bp,
    (freq_filter_bp bw order style st).1 = Ok tt
    /\ f (freq_filter_bp bw order style st).2 !! bp_name = Some d
    /\ data d = AReal bp
    /\ attrs d !! "abscissa" = Some (AStr "workup/freq/freq")
    /\ length bp = length freq
    /\ forall (i : nat) w, bp !! i = Some w -> 0 <= w <= 1.
Proof.
  intros Hbw H1 R1 H2 R2 H3 R3 L1 L2 Hne Hfresh Hstyle.
  destruct (center_frequency_ok freq Hc absFT L1 L2 Hne) as (fc & i0 & Hfc & _).
  assert (Hsome : exists bp, bp_weights style order freq fc bw = Some bp).
  { unfold bp_weights. destruct Hstyle as [-> | [-> | ->]]; simpl; eauto. }
  destruct Hsome as [bp Hbp].
  destruct (bp_weights_range style order freq fc bw bp Hbp) as [Lbp Hrange].
  rewrite (freq_filter_bp_run st bw order style dfreq dHc dFT freq Hc absFT
             bp fc) by assumption.
  eexists _, bp. split; [reflexivity|]. split.
  { cbn [snd]. apply lookup_update_attrs_some. apply lookup_insert_eq. }
  split; [reflexivity|]. split; [reflexivity|]. split; [exact Lbp|].
  intros i w Hw. rewrite Forall_lookup in Hrange. exact (Hrange i w Hw).
Qed.

Lemma freq_filter_bp_weights_in_unit_interval_witness :
  exists d bp,
    (freq_filter_bp 1 2 "cosine" demo_spectrum).1 = Ok tt
    /\ f (freq_filter_bp 1 2 "cosine" demo_spectrum).2 !! bp_name = Some d
    /\ data d = AReal bp
    /\ attrs d !! "abscissa" = Some (AStr "workup/freq/freq")
    /\ length bp = length [-2; -1; 0; 1]
    /\ forall (i : nat) w, bp !! i = Some w -> 0 <= w <= 1.
Proof.
  apply (freq_filter_bp_weights_in_unit_interval demo_spectrum 1 2 "cosine"
           (mkDataset (AReal [-2; -1; 0; 1]) ∅)
           (mkDataset (AReal [0; 0; 1; 2]) ∅)
           (mkDataset (ACplx [(0, 0); (0.0005, 0); (0, 0); (0.0005, 0)]) ∅)
           [-2; -1; 0; 1] [0; 0; 1; 2]
           (map Cabs [(0, 0); (0.0005, 0); (0, 0); (0.0005, 0)])).
  - lra.
  - reflexivity.
  - reflexivity.
  - reflexivity.
  - reflexivity.
  - reflexivity.
  - reflexivity.
  - reflexivity.
  - reflexivity.
  - discriminate.
  - reflexivity.
  - auto.
Defined.

(** ** The bandpass filter: the band it passes *)

Lemma scaled_inside (v fc bw : R) :
  0 < bw -> Rabs (v - fc) <= bw -> Rabs ((v - fc) / bw) <= 1.
Proof.
  intros Hbw H. unfold Rdiv. rewrite Rabs_mult, Rabs_inv.
  rewrite (Rabs_pos_eq bw) by lra.
  apply (Rmult_le_reg_r bw); [assumption|].
  replace (Rabs (v - fc) * / bw * bw) with (Rabs (v - fc)) by (field; lra).
  lra.
Qed.

Lemma scaled_outside (v fc bw : R) :
  0 < bw -> bw <= Rabs (v - fc) -> 1 <= Rabs ((v - fc) / bw).
Proof.
  intros Hbw H. unfold Rdiv. rewrite Rabs_mult, Rabs_inv.
  rewrite (Rabs_pos_eq bw) by lra.
  apply (Rmult_le_reg_r bw); [assumption|].
  replace (Rabs (v - fc) * / bw * bw) with (Rabs (v - fc)) by (field; lra).
  lra.
Qed.

Lemma brick_wall_inside (u : R) (order : nat) :
  Rabs u <= 1 -> 1 / 2 <= 1 / (1 + Rabs u ^ order) <= 1.
Proof.
  intros Hu.
  assert (H0 : 0 <= Rabs u ^ order) by (apply pow_le, Rabs_pos).
  assert (H1 : Rabs u ^ order <= 1).
  { rewrite <- (pow1 order). apply pow_incr. split; [apply Rabs_pos|exact Hu]. }
  split.
  - apply (Rmult_le_reg_r (1 + Rabs u ^ order)); [lra|].
    replace (1 / (1 + Rabs u ^ order) * (1 + Rabs u ^ order)) with 1
      by (field; lra).
    lra.
  - apply (Rmult_le_reg_r (1 + Rabs u ^ order)); [lra|].
    replace (1 / (1 + Rabs u ^ order) * (1 + Rabs u ^ order)) with 1
      by (field; lra).
    lra.
Qed.

Lemma brick_wall_outside (u : R) (order : nat) :
  1 <= Rabs u -> 0 <= 1 / (1 + Rabs u ^ order) <= 1 / 2.
Proof.
  intros Hu.
  assert (H1 : 1 <= Rabs u ^ order) by (apply pow_R1_Rle, Hu).
  split.
  - apply Rlt_le, Rdiv_lt_0_compat; lra.
  - apply (Rmult_le_reg_r (1 + Rabs u ^ order)); [lra|].
    replace (1 / (1 + Rabs u ^ order) * (1 + Rabs u ^ order)) with 1
      by (field; lra).
    lra.
Qed.

Lemma exp_le_mono (x y : R) : x <= y -> exp x <= exp y.
Proof.
  intros [H| ->]; [apply Rlt_le, exp_increasing, H|apply Rle_refl].
Qed.

Lemma gaussian_inside (u : R) :
  Rabs u <= 1 -> exp (-1) <= exp (-1 * u ^ 2) <= 1.
Proof.
  intros Hu.
  assert (0 <= u ^ 2 <= 1).
  { rewrite <- (pow2_abs u). simpl. pose proof (Rabs_pos u). nra. }
  split.
  - apply exp_le_mono. lra.
  - rewrite <- exp_0. apply exp_le_mono. lra.
Qed.

Lemma gaussian_outside (u : R) :
  1 <= Rabs u -> 0 <= exp (-1 * u ^ 2) <= exp (-1).
Proof.
  intros Hu. split; [apply Rlt_le, exp_pos|].
  apply exp_le_mono.
  assert (1 <= u ^ 2).
  { rewrite <- (pow2_abs u). simpl. pose proof (Rabs_pos u). nra. }
  lra.
Qed.

(** X13. The brick-wall and the gaussian filter pass the band of
    half-width [bw] around the detected centre frequency [fc]: with
    the edge weight [1/2] for the brick wall (of any order) and
    [exp(-1)] for the gaussian, the stored weight of every frequency
    within [bw] of [fc] lies between the edge weight and 1, and the
    weight of every frequency at least [bw] away from [fc] lies
    between 0 and the edge weight; at distance exactly [bw] it is the
    edge weight.  (Far from the centre a weight may be as small as
    floating point allows, down to zero, so no more than "not
    negative" is stated there.) *)
Theorem freq_filter_bp_passband (st : Signal) (bw : R) (order : nat)
    (style : string) (edge : R) (dfreq dHc dFT : Dataset)
    (freq Hc absFT : list R) (fc : R) :
  0 < bw ->
  f st !! "workup/freq/freq" = Some dfreq ->
  as_real (data dfreq) = Ok freq ->
  f st !! "workup/freq/filter/Hc" = Some dHc ->
  as_real (data dHc) = Ok Hc ->
  f st !! "workup/freq/FT" = Some dFT ->
  array_abs (data dFT) = Ok absFT ->
  center_frequency freq Hc absFT = Ok fc ->
  f st !! bp_name = None ->
  (style = "brick wall" /\ edge = 1 / 2)
  \/ (style = "gaussian" /\ edge = exp (-1)) ->
  exists d bp,
    f (freq_filter_bp bw order style st).2 !! bp_name = Some d
    /\ data d = AReal bp
    /\ forall (i : nat) v, freq !! i = Some v ->
         exists w, bp !! i = Some w
           /\ (Rabs (v - fc) <= bw -> edge <= w <= 1)
           /\ (bw <= Rabs (v - fc) -> 0 <= w <= edge).
Proof.
  intros Hbw H1 R1 H2 R2 H3 R3 Hfc Hfresh Hstyle.
  destruct Hstyle as [[-> ->] | [-> ->]].
  - destruct (freq_filter_bp_stores st bw order "brick wall" dfreq dHc dFT
                freq Hc absFT
                (bp_brick_wall (map (fun v => (v - fc) / bw) freq) order) fc)
      as (d & Hd & Hdata); try assumption; [reflexivity|].
    exists d, (bp_brick_wall (map (fun v => (v - fc) / bw) freq) order).
    split; [exact Hd|]. split; [exact Hdata|].
    intros i v Hi. eexists. split.
    { unfold bp_brick_wall.
      change (map ?g ?l) with (g <$> l).
      rewrite !list_lookup_fmap, Hi. reflexivity. }
    split; intros Hv.
    + apply brick_wall_inside, scaled_inside; assumption.
    + apply brick_wall_outside, scaled_outside; assumption.
  - destruct (freq_filter_bp_stores st bw order "gaussian" dfreq dHc dFT
                freq Hc absFT
                (bp_gaussian (map (fun v => (v - fc) / bw) freq)) fc)
      as (d & Hd & Hdata); try assumption; [reflexivity|].
    exists d, (bp_gaussian (map (fun v => (v - fc) / bw) freq)).
    split; [exact Hd|]. split; [exact Hdata|].
    intros i v Hi. eexists. split.
    { unfold bp_gaussian.
      change (map ?g ?l) with (g <$> l).
      rewrite !list_lookup_fmap, Hi. reflexivity. }
    split; intros Hv.
    + apply gaussian_inside, scaled_inside; assumption.
    + apply gaussian_outside, scaled_outside; assumption.
Qed.

Lemma freq_filter_bp_passband_witness :
  exists d bp,
    f (freq_filter_bp 1 4 "brick wall" demo_spectrum).2 !! bp_name = Some d
    /\ data d = AReal bp
    /\ forall (i : nat) v, [-2; -1; 0; 1] !! i = Some v ->
         exists w, bp !! i = Some w
           /\ (Rabs (v - 1) <= 1 -> 1 / 2 <= w <= 1)
           /\ (1 <= Rabs (v - 1) -> 0 <= w <= 1 / 2).
Proof.
  apply (freq_filter_bp_passband demo_spectrum 1 4 "brick wall" (1 / 2)
           (mkDataset (AReal [-2; -1; 0; 1]) ∅)
           (mkDataset (AReal [0; 0; 1; 2]) ∅)
           (mkDataset (ACplx [(0, 0); (0.0005, 0); (0, 0); (0.0005, 0)]) ∅)
           [-2; -1; 0; 1] [0; 0; 1; 2]
           (map Cabs [(0, 0); (0.0005, 0); (0, 0); (0.0005, 0)]) 1).
  - lra.
  - reflexivity.
  - reflexivity.
  - reflexivity.
  - reflexivity.
  - reflexivity.
  - reflexivity.
  - exact demo_spectrum_center.
  - reflexivity.
  - left. split; reflexivity.
Defined.

(** ** The Hilbert filter on the store *)

(** X14. On a stored frequency axis the Hilbert filter stage succeeds
    and stores, against that axis, one weight for every frequency:
    0 for a negative frequency, 1 for zero frequency and 2 for a
    positive one. *)
Theorem freq_filter_Hilbert_complex_weights (st : Signal) (dfreq : Dataset)
    (freq : list R) :
  f st !! "workup/freq/freq" = Some dfreq ->
  as_real (data dfreq) = Ok freq ->
  f st !! "workup/freq/filter/Hc" = None ->
  exists d Hc,
    (freq_filter_Hilbert_complex st).1 = Ok tt
    /\ f (freq_filter_Hilbert_complex st).2 !! "workup/freq/filter/Hc"
       = Some d
    /\ data d = AReal Hc
    /\ attrs d !! "abscissa" = Some (AStr "workup/freq/freq")
    /\ length Hc = length freq
    /\ forall (i : nat) v, freq !! i = Some v ->
         exists w, Hc !! i = Some w
           /\ (v < 0 -> w = 0) /\ (v = 0 -> w = 1) /\ (0 < v -> w = 2).
Proof.
  intros H1 R1 Hfresh. unfold freq_filter_Hilbert_complex.
  rewrite (bind_ok _ _ _ _ _ (getitem_some "workup/freq/freq" st _ H1)).
  rewrite bind_liftR, R1.
  rewrite (bind_ok _ _ _ _ _ (create_dataset_fresh _ _ _ Hfresh)).
  eexists _, (map hilbert_weight freq).
  split; [reflexivity|]. split.
  { cbn [snd]. apply lookup_update_attrs_some. apply lookup_insert_eq. }
  split; [reflexivity|]. split; [reflexivity|].
  split; [apply length_map|].
  intros i v Hi. exists (hilbert_weight v). split.
  - change (map ?g ?l) with (g <$> l). rewrite list_lookup_fmap, Hi.
    reflexivity.
  - apply hilbert_weight_spec.
Qed.

Lemma freq_filter_Hilbert_complex_weights_witness :
  let st := (create_dataset "workup/freq/freq" (AReal [-1; 0; 1])
               Signal_init).2 in
  exists d Hc,
    (freq_filter_Hilbert_complex st).1 = Ok tt
    /\ f (freq_filter_Hilbert_complex st).2 !! "workup/freq/filter/Hc"
       = Some d
    /\ data d = AReal Hc
    /\ attrs d !! "abscissa" = Some (AStr "workup/freq/freq")
    /\ length Hc = length [-1; 0; 1]
    /\ forall (i : nat) v, [-1; 0; 1] !! i = Some v ->
         exists w, Hc !! i = Some w
           /\ (v < 0 -> w = 0) /\ (v = 0 -> w = 1) /\ (0 < v -> w = 2).
Proof.
  apply (freq_filter_Hilbert_complex_weights _
           (mkDataset (AReal [-1; 0; 1]) ∅) [-1; 0; 1]).
  - reflexivity.
  - reflexivity.
  - reflexivity.
Defined.

(** ** The edge trimmer when enough of the axis is left *)

(** X15. With a trim of [ww = ceil(td/dt) >= 0] samples at either end
    that leaves at least two of the [n] samples of the time axis, the
    edge trimmer succeeds: the mask it stores is true exactly on the
    positions [ww <= i < n - ww], the trimmed time axis holds the
    [n - 2 ww] times from position [ww] on, and its [initial] and
    [step] attributes are the first of these times and the difference
    of the first two. *)
Theorem time_mask_rippleless_trims (st : Signal) (td : R) (x : list R)
    (a : string) (dt : R) :
  let ww := py_ceil (td / dt) in
  let n := Z.of_nat (length x) in
  get_step st = (Ok dt, st) ->
  dt <> 0 ->
  active_time_axis st = (Ok (x, a), st) ->
  f st !! rippleless_name = None ->
  f st !! x_rippleless_name = None ->
  (0 <= ww)%Z ->
  (2 <= n - 2 * ww)%Z ->
  exists dm dx mask x0 x1,
    (time_mask_rippleless td st).1 = Ok tt
    /\ f (time_mask_rippleless td st).2 !! rippleless_name = Some dm
    /\ data dm = ABool mask
    /\ attrs dm !! "abscissa" = Some (AStr a)
    /\ length mask = length x
    /\ (forall i : nat, (i < length x)%nat ->
          mask !! i = Some (bool_decide (ww <= Z.of_nat i < n - ww)%Z))
    /\ f (time_mask_rippleless td st).2 !! x_rippleless_name = Some dx
    /\ data dx = AReal (take (Z.to_nat (n - 2 * ww)) (drop (Z.to_nat ww) x))
    /\ x !! Z.to_nat ww = Some x0
    /\ x !! S (Z.to_nat ww) = Some x1
    /\ attrs dx !! "initial" = Some (ANum x0)
    /\ attrs dx !! "step" = Some (ANum (x1 - x0)).
Proof.
  intros ww n Hstep Hdt Haxis Hf1 Hf2 Hww Hleft.
  set (xr := take (Z.to_nat (n - 2 * ww)) (drop (Z.to_nat ww) x)).
  assert (Hlen : length xr = Z.to_nat (n - 2 * ww)).
  { unfold xr. rewrite length_take, length_drop. lia. }
  destruct (lookup_lt_is_Some_2 xr 0 ltac:(lia)) as [x0 Hx0].
  destruct (lookup_lt_is_Some_2 xr 1 ltac:(lia)) as [x1 Hx1].
  unfold time_mask_rippleless.
  rewrite (bind_ok _ _ _ _ _ Hstep).
  rewrite bind_liftR, py_ceil_div_ok by assumption. fold ww.
  rewrite (bind_ok _ _ _ _ _ Haxis); cbn [fst snd]. fold n.
  rewrite bind_liftR, (np_getitem_range_mask x n) by (unfold n; lia).
  replace (n - ww - ww)%Z with (n - 2 * ww)%Z by lia. fold xr.
  rewrite (bind_ok _ _ _ _ _ (create_dataset_fresh _ _ _ Hf1)).
  rewrite bind_update_attrs. step_create.
  rewrite bind_liftR, (np_item_some _ _ _ Hx0).
  rewrite bind_liftR, (np_item_some _ _ _ Hx1).
  eexists _, _, (range_mask n ww (n - ww)), x0, x1.
  split; [reflexivity|]. split.
  { cbn [snd]. rewrite lookup_update_attrs_ne by discriminate. cbn [f].
    rewrite lookup_insert_ne by discriminate.
    apply lookup_update_attrs_some. apply lookup_insert_eq. }
  split; [reflexivity|]. split; [reflexivity|].
  split; [rewrite range_mask_length; unfold n; lia|].
  split; [intros i Hi; apply range_mask_lookup; unfold n; lia|].
  split.
  { cbn [snd]. apply lookup_update_attrs_some. apply lookup_insert_eq. }
  split; [reflexivity|].
  split.
  { unfold xr in Hx0. rewrite lookup_take_lt, lookup_drop in Hx0 by lia.
    rewrite Nat.add_0_r in Hx0. exact Hx0. }
  split.
  { unfold xr in Hx1. rewrite lookup_take_lt, lookup_drop in Hx1 by lia.
    rewrite Nat.add_1_r in Hx1. exact Hx1. }
  split; reflexivity.
Qed.

Lemma time_mask_rippleless_trims_witness :
  exists dm dx mask x0 x1,
    (time_mask_rippleless 1 demo4).1 = Ok tt
    /\ f (time_mask_rippleless 1 demo4).2 !! rippleless_name = Some dm
    /\ data dm = ABool mask
    /\ attrs dm !! "abscissa" = Some (AStr "x")
    /\ length mask = 4%nat
    /\ (forall i : nat, (i < 4)%nat ->
          mask !! i
          = Some (bool_decide (py_ceil (1 / 1) <= Z.of_nat i
                               < 4 - py_ceil (1 / 1))%Z))
    /\ f (time_mask_rippleless 1 demo4).2 !! x_rippleless_name = Some dx
    /\ data dx
       = AReal (take (Z.to_nat (4 - 2 * py_ceil (1 / 1)))
                  (drop (Z.to_nat (py_ceil (1 / 1)))
                     [1 * 0; 1 * 1; 1 * 2; 1 * 3]))
    /\ [1 * 0; 1 * 1; 1 * 2; 1 * 3] !! Z.to_nat (py_ceil (1 / 1)) = Some x0
    /\ [1 * 0; 1 * 1; 1 * 2; 1 * 3] !! S (Z.to_nat (py_ceil (1 / 1)))
       = Some x1
    /\ attrs dx !! "initial" = Some (ANum x0)
    /\ attrs dx !! "step" = Some (ANum (x1 - x0)).
Proof.
  apply (time_mask_rippleless_trims demo4 1 [1 * 0; 1 * 1; 1 * 2; 1 * 3]
           "x" 1 demo4_step ltac:(lra) demo4_axis eq_refl eq_refl).
  - rewrite (py_ceil_small 1) by lra. lia.
  - rewrite (py_ceil_small 1) by lra. simpl. lia.
Defined.

(** X16. When the trim leaves exactly one sample of the time axis
    ([n - 2 ww = 1]), the edge trimmer stores its mask and a trimmed
    time axis of that one sample and then fails with an index error
    on the second entry that the [step] attribute needs. *)
Theorem time_mask_rippleless_one_left (st : Signal) (td : R) (x : list R)
    (a : string) (dt : R) :
  let ww := py_ceil (td / dt) in
  let n := Z.of_nat (length x) in
  get_step st = (Ok dt, st) ->
  dt <> 0 ->
  active_time_axis st = (Ok (x, a), st) ->
  f st !! rippleless_name = None ->
  f st !! x_rippleless_name = None ->
  (0 <= ww)%Z ->
  (n - 2 * ww = 1)%Z ->
  (time_mask_rippleless td st).1 = Raise IndexError
  /\ (exists dm, f (time_mask_rippleless td st).2 !! rippleless_name
                 = Some dm
                 /\ data dm = ABool (range_mask n ww (n - ww)))
  /\ (exists dx xm, f (time_mask_rippleless td st).2 !! x_rippleless_name
                    = Some dx
                    /\ x !! Z.to_nat ww = Some xm
                    /\ data dx = AReal [xm]).
Proof.
  intros ww n Hstep Hdt Haxis Hf1 Hf2 Hww Hleft.
  set (xr := take (Z.to_nat (n - 2 * ww)) (drop (Z.to_nat ww) x)).
  assert (Hlen : length xr = 1%nat).
  { unfold xr. rewrite length_take, length_drop. lia. }
  destruct xr as [|xm [|? ?]] eqn:Exr; try discriminate.
  assert (Hxm : x !! Z.to_nat ww = Some xm).
  { assert (H0 : xr !! 0%nat = Some xm) by (rewrite Exr; reflexivity).
    unfold xr in H0. rewrite lookup_take_lt, lookup_drop in H0 by lia.
    rewrite Nat.add_0_r in H0. exact H0. }
  unfold time_mask_rippleless.
  rewrite (bind_ok _ _ _ _ _ Hstep).
  rewrite bind_liftR, py_ceil_div_ok by assumption. fold ww.
  rewrite (bind_ok _ _ _ _ _ Haxis); cbn [fst snd]. fold n.
  rewrite bind_liftR, (np_getitem_range_mask x n) by (unfold n; lia).
  replace (n - ww - ww)%Z with (n - 2 * ww)%Z by lia. fold xr. rewrite Exr.
  rewrite (bind_ok _ _ _ _ _ (create_dataset_fresh _ _ _ Hf1)).
  rewrite bind_update_attrs. step_create.
  rewrite bind_liftR. cbn [np_item lookup list_lookup].
  rewrite bind_liftR. cbn [np_item lookup list_lookup].
  split; [reflexivity|]. split.
  - eexists. split.
    + cbn [snd f]. rewrite lookup_insert_ne by discriminate.
      apply lookup_update_attrs_some. apply lookup_insert_eq.
    + reflexivity.
  - eexists _, xm. split; [cbn [snd f]; apply lookup_insert_eq|].
    split; [exact Hxm|reflexivity].
Qed.

Lemma time_mask_rippleless_one_left_witness :
  let st := (load_nparray [3; 1; 4] "x" "nm" 1 "cantilever displacement"
               Signal_init).2 in
  (time_mask_rippleless 1 st).1 = Raise IndexError
  /\ (exists dm, f (time_mask_rippleless 1 st).2 !! rippleless_name = Some dm
                 /\ data dm
                    = ABool (range_mask 3 (py_ceil (1 / 1))
                               (3 - py_ceil (1 / 1))))
  /\ (exists dx xm, f (time_mask_rippleless 1 st).2 !! x_rippleless_name
                    = Some dx
                    /\ [1 * 0; 1 * 1; 1 * 2] !! Z.to_nat (py_ceil (1 / 1))
                       = Some xm
                    /\ data dx = AReal [xm]).
Proof.
  apply (time_mask_rippleless_one_left _ 1 [1 * 0; 1 * 1; 1 * 2] "x" 1).
  - reflexivity.
  - lra.
  - reflexivity.
  - reflexivity.
  - reflexivity.
  - rewrite (py_ceil_small 1) by lra. lia.
  - rewrite (py_ceil_small 1) by lra. reflexivity.
Defined.

(** ** The chunked frequency estimator: what it stores *)

(** Both arrays of a completed run: the mean time and the slope of
    every chunk. *)
Lemma fit_phase_outputs (st : Signal) (dt_chunk_target dt : R)
    (dp dx : Dataset) (p xs : list R) (a : string) :
  get_step st = (Ok dt, st) ->
  dt <> 0 ->
  f st !! "workup/time/p" = Some dp ->
  as_real (data dp) = Ok p ->
  get_attr dp "abscissa" = Ok (AStr a) ->
  f st !! h5path a = Some dx ->
  as_real (data dx) = Ok xs ->
  (length p <= length xs)%nat ->
  (1 <= py_round (dt_chunk_target / dt))%Z ->
  f st !! "workup/fit/x" = None ->
  f st !! "workup/fit/y" = None ->
  let n_per_chunk := py_round (dt_chunk_target / dt) in
  let n_tot_chunk := (Z.of_nat (length p) / n_per_chunk)%Z in
  exists d_x d_y,
    (fit_phase dt_chunk_target st).1 = Ok tt
    /\ f (fit_phase dt_chunk_target st).2 !! "workup/fit/x" = Some d_x
    /\ data d_x
       = AReal (map (fun c => np_mean (chunk (Z.to_nat n_per_chunk) xs c))
                    (seq 0 (Z.to_nat n_tot_chunk)))
    /\ f (fit_phase dt_chunk_target st).2 !! "workup/fit/y" = Some d_y
    /\ data d_y
       = AReal (map (fun c => chunk_slope dt n_per_chunk
                                (chunk (Z.to_nat n_per_chunk) xs c)
                                (chunk (Z.to_nat n_per_chunk) p c))
                    (seq 0 (Z.to_nat n_tot_chunk))).
Proof.
  intros Hstep Hdt Hp Hreal Habs Hx Hxreal Hlen Hnpc Hf1 Hf2 npc ntot.
  assert (Hquot : Z.quot (Z.of_nat (length p)) npc = ntot)
    by (apply Z.quot_div_nonneg; lia).
  assert (Hntot : (0 <= ntot)%Z) by (apply Z.div_pos; lia).
  assert (Htotal : (npc * ntot <= Z.of_nat (length p))%Z)
    by (apply Z.mul_div_le; lia).
  unfold fit_phase.
  rewrite (bind_ok _ _ _ _ _ Hstep).
  rewrite (bind_ok _ _ _ _ _ (getitem_some "workup/time/p" st dp Hp)).
  rewrite bind_liftR, Hreal.
  rewrite bind_liftR, py_round_div_ok by assumption. fold npc.
  rewrite bind_liftR. unfold py_int_div.
  destruct (Z.eqb_spec npc 0); [lia|]. rewrite Hquot.
  rewrite !py_slice_take by lia.
  rewrite bind_liftR.
  rewrite (np_reshape_rows p ntot npc) by lia.
  rewrite bind_liftR, Habs. cbn [mbind result_bind as_str].
  rewrite (bind_ok _ _ _ _ _ (getitem_some a st dx Hx)).
  rewrite bind_liftR, Hxreal.
  rewrite py_slice_take by lia.
  rewrite bind_liftR.
  rewrite (np_reshape_rows xs ntot npc) by lia.
  step_create. rewrite bind_update_attrs. step_create.
  eexists _, _. split; [reflexivity|]. split.
  { cbn [snd]. rewrite lookup_update_attrs_ne by discriminate. cbn [f].
    rewrite lookup_insert_ne by discriminate.
    apply lookup_update_attrs_some. apply lookup_insert_eq. }
  split.
  { cbn [data]. f_equal. rewrite map_map. reflexivity. }
  split.
  { cbn [snd]. apply lookup_update_attrs_some. apply lookup_insert_eq. }
  cbn [data]. f_equal.
  rewrite zip_with_fmap_l, zip_with_fmap_r, zip_with_diag.
  reflexivity.
Qed.

(** The least-squares slope of points that lie on a line is the slope
    of that line. *)
Lemma np_sum_line (a b : R) (xs : list R) :
  np_sum (map (fun x => b + a * x) xs) = INR (length xs) * b + a * np_sum xs.
Proof.
  induction xs as [|x xs IH].
  - simpl. rewrite np_sum_nil. lra.
  - cbn [map length]. rewrite !np_sum_cons, IH, S_INR. lra.
Qed.

Lemma np_sum_line_prod (a b : R) (xs : list R) :
  np_sum (zip_with Rmult xs (map (fun x => b + a * x) xs))
  = b * np_sum xs + a * np_sum (zip_with Rmult xs xs).
Proof.
  induction xs as [|x xs IH].
  - simpl. rewrite np_sum_nil. lra.
  - cbn [map zip_with]. rewrite !np_sum_cons, IH. lra.
Qed.

Lemma ols_slope_line (a b : R) (xs : list R) :
  0 < INR (length xs) * np_sum (zip_with Rmult xs xs) - np_sum xs * np_sum xs ->
  ols_slope xs (map (fun x => b + a * x) xs) = a.
Proof.
  intros HD. unfold ols_slope.
  rewrite np_sum_line, np_sum_line_prod. field. lra.
Qed.

(** X17. On a phase trace that is an exact line in time,
    [p_i = p0 + f0 x_i], over an equally spaced time axis, every slope
    the chunked frequency estimator stores is the frequency [f0]. *)
Theorem fit_phase_pure_tone (st : Signal) (dt_chunk_target dt x0 p0 f0 : R)
    (n_per_chunk : Z) (dp dx : Dataset) (p xs : list R) (a : string) :
  get_step st = (Ok dt, st) ->
  dt <> 0 ->
  f st !! "workup/time/p" = Some dp ->
  as_real (data dp) = Ok p ->
  get_attr dp "abscissa" = Ok (AStr a) ->
  f st !! h5path a = Some dx ->
  as_real (data dx) = Ok xs ->
  (length p <= length xs)%nat ->
  (forall i : nat, (i < length xs)%nat -> xs !! i = Some (x0 + INR i * dt)) ->
  (forall i : nat, (i < length p)%nat ->
     p !! i = Some (p0 + f0 * (x0 + INR i * dt))) ->
  py_round (dt_chunk_target / dt) = n_per_chunk ->
  (2 <= n_per_chunk)%Z ->
  f st !! "workup/fit/x" = None ->
  f st !! "workup/fit/y" = None ->
  exists d slopes,
    (fit_phase dt_chunk_target st).1 = Ok tt
    /\ f (fit_phase dt_chunk_target st).2 !! "workup/fit/y" = Some d
    /\ data d = AReal slopes
    /\ Z.of_nat (length slopes) = (Z.of_nat (length p) / n_per_chunk)%Z
    /\ forall (c : nat) v, slopes !! c = Some v -> v = f0.
Proof.
  intros Hstep Hdt Hp Hreal Habs Hx Hxreal Hlen Hspaced Hline Hround Hnpc
    Hf1 Hf2.
  destruct (fit_phase_outputs st dt_chunk_target dt dp dx p xs a)
    as (d_x & d & Hok & _ & _ & Hd & Hdata); try assumption;
    [rewrite Hround; lia|].
  rewrite Hround in Hdata.
  set (ntot := (Z.of_nat (length p) / n_per_chunk)%Z) in *.
  assert (Hntot : (0 <= ntot)%Z) by (apply Z.div_pos; lia).
  assert (Htotal : (n_per_chunk * ntot <= Z.of_nat (length p))%Z)
    by (apply Z.mul_div_le; lia).
  eexists d, _. split; [exact Hok|]. split; [exact Hd|].
  split; [exact Hdata|].
  rewrite length_map, length_seq. split; [lia|].
  intros c v Hv.
  change (map ?g ?l) with (g <$> l) in Hv.
  rewrite list_lookup_fmap in Hv.
  destruct (seq 0 (Z.to_nat ntot) !! c) as [c'|] eqn:Ec; [|discriminate].
  apply lookup_lt_Some in Ec as Hc. rewrite length_seq in Hc.
  rewrite lookup_seq_lt in Ec by assumption. injection Ec as <-.
  simpl in Hv. injection Hv as <-.
  set (x_row := chunk (Z.to_nat n_per_chunk) xs c).
  set (y_row := chunk (Z.to_nat n_per_chunk) p c).
  assert (Hfit : (c * Z.to_nat n_per_chunk + Z.to_nat n_per_chunk
                  <= length p)%nat) by nia.
  assert (Hlx : length x_row = Z.to_nat n_per_chunk)
    by (apply chunk_length; lia).
  assert (Hly : length y_row = Z.to_nat n_per_chunk)
    by (apply chunk_length; lia).
  assert (Hrow : forall k : nat, (k < length x_row)%nat ->
            x_row !! k
            = Some (x0 + INR (c * Z.to_nat n_per_chunk) * dt + INR k * dt)).
  { intros k Hk. unfold x_row. rewrite chunk_lookup by lia.
    rewrite Hspaced by lia. f_equal. rewrite plus_INR. lra. }
  assert (Hy : y_row = map (fun x => p0 + f0 * x) x_row).
  { apply list_eq. intros k.
    change (map ?g ?l) with (g <$> l). rewrite list_lookup_fmap.
    destruct (decide (k < Z.to_nat n_per_chunk)%nat) as [Hk|Hk].
    - unfold y_row, x_row. rewrite !chunk_lookup by assumption.
      rewrite Hline, Hspaced by lia. reflexivity.
    - rewrite !lookup_ge_None_2 by lia. reflexivity. }
  rewrite (chunk_slope_ols dt (x0 + INR (c * Z.to_nat n_per_chunk) * dt)
             n_per_chunk x_row y_row) by (try exact Hrow; lia).
  rewrite Hy. apply ols_slope_line.
  apply (equally_spaced_denominator dt
           (x0 + INR (c * Z.to_nat n_per_chunk) * dt) x_row);
    [lia|assumption|exact Hrow].
Qed.

Lemma demo_tone_step : get_step demo_tone = (Ok 1, demo_tone).
Proof. reflexivity. Qed.

Lemma demo_tone_line (i : nat) :
  (i < 4)%nat ->
  [0; 2; 4; 6] !! i = Some (0 + 2 * (0 + INR i * 1)).
Proof.
  intros Hi.
  destruct i as [|[|[|[|i]]]]; [| | | |lia]; simpl; f_equal; lra.
Qed.

Lemma fit_phase_pure_tone_witness :
  exists d slopes,
    (fit_phase 2 demo_tone).1 = Ok tt
    /\ f (fit_phase 2 demo_tone).2 !! "workup/fit/y" = Some d
    /\ data d = AReal slopes
    /\ Z.of_nat (length slopes) = (4 / 2)%Z
    /\ forall (c : nat) v, slopes !! c = Some v -> v = 2.
Proof.
  apply (fit_phase_pure_tone demo_tone 2 1 0 0 2 2
           (default (mkDataset (AReal []) ∅) (f demo_tone !! "workup/time/p"))
           (default (mkDataset (AReal []) ∅) (f demo_tone !! "x"))
           [0; 2; 4; 6] [1 * 0; 1 * 1; 1 * 2; 1 * 3] "x").
  - exact demo_tone_step.
  - lra.
  - reflexivity.
  - reflexivity.
  - reflexivity.
  - reflexivity.
  - reflexivity.
  - simpl. lia.
  - exact demo_phase_spaced.
  - exact demo_tone_line.
  - replace (2 / 1) with (IZR 2) by lra. apply py_round_IZR.
  - lia.
  - reflexivity.
  - reflexivity.
Defined.

(** X18. Over an equally spaced time axis the time the chunked
    frequency estimator stores for a chunk is the mean of the chunk's
    times, which is its midpoint: for chunk [c] of [n_per_chunk]
    samples, the time of its first sample plus
    [(n_per_chunk - 1) dt / 2]. *)
Theorem fit_phase_chunk_midpoints (st : Signal) (dt_chunk_target dt x0 : R)
    (n_per_chunk : Z) (dp dx : Dataset) (p xs : list R) (a : string) :
  get_step st = (Ok dt, st) ->
  dt <> 0 ->
  f st !! "workup/time/p" = Some dp ->
  as_real (data dp) = Ok p ->
  get_attr dp "abscissa" = Ok (AStr a) ->
  f st !! h5path a = Some dx ->
  as_real (data dx) = Ok xs ->
  (length p <= length xs)%nat ->
  (forall i : nat, (i < length xs)%nat -> xs !! i = Some (x0 + INR i * dt)) ->
  py_round (dt_chunk_target / dt) = n_per_chunk ->
  (1 <= n_per_chunk)%Z ->
  f st !! "workup/fit/x" = None ->
  f st !! "workup/fit/y" = None ->
  exists d times,
    (fit_phase dt_chunk_target st).1 = Ok tt
    /\ f (fit_phase dt_chunk_target st).2 !! "workup/fit/x" = Some d
    /\ data d = AReal times
    /\ Z.of_nat (length times) = (Z.of_nat (length p) / n_per_chunk)%Z
    /\ forall c : nat, (c < length times)%nat ->
         times !! c
         = Some (x0 + INR (c * Z.to_nat n_per_chunk) * dt
                 + (IZR n_per_chunk - 1) * dt / 2).
Proof.
  intros Hstep Hdt Hp Hreal Habs Hx Hxreal Hlen Hspaced Hround Hnpc Hf1 Hf2.
  destruct (fit_phase_outputs st dt_chunk_target dt dp dx p xs a)
    as (d & d_y & Hok & Hd & Hdata & _); try assumption;
    [rewrite Hround; lia|].
  rewrite Hround in Hdata.
  set (ntot := (Z.of_nat (length p) / n_per_chunk)%Z) in *.
  assert (Hntot : (0 <= ntot)%Z) by (apply Z.div_pos; lia).
  assert (Htotal : (n_per_chunk * ntot <= Z.of_nat (length p))%Z)
    by (apply Z.mul_div_le; lia).
  eexists d, _. split; [exact Hok|]. split; [exact Hd|].
  split; [exact Hdata|].
  rewrite length_map, length_seq. split; [lia|].
  intros c Hc.
  change (map ?g ?l) with (g <$> l).
  rewrite list_lookup_fmap, lookup_seq_lt by assumption.
  cbn [fmap option_fmap option_map]. f_equal. rewrite Nat.add_0_l.
  set (x_row := chunk (Z.to_nat n_per_chunk) xs c).
  set (xc := x0 + INR (c * Z.to_nat n_per_chunk) * dt).
  assert (Hfit : (c * Z.to_nat n_per_chunk + Z.to_nat n_per_chunk
                  <= length p)%nat) by nia.
  assert (Hlx : length x_row = Z.to_nat n_per_chunk)
    by (apply chunk_length; lia).
  assert (Hrow : forall k : nat, (k < length x_row)%nat ->
            x_row !! k = Some (xc + INR k * dt)).
  { intros k Hk. unfold x_row, xc. rewrite chunk_lookup by lia.
    rewrite Hspaced by lia. f_equal. rewrite plus_INR. lra. }
  assert (Hhd : hd 0 x_row = xc).
  { specialize (Hrow 0%nat ltac:(lia)).
    destruct x_row as [|v l]; [discriminate|].
    simpl in Hrow. injection Hrow as ->. simpl. lra. }
  pose proof (np_sum_shift (hd 0 x_row) x_row) as Hs.
  rewrite <- row_reset_shift, (row_reset_ramp dt xc x_row Hrow) in Hs.
  rewrite np_sum_ramp, Hhd, Hlx in Hs.
  assert (Hn : INR (Z.to_nat n_per_chunk) = IZR n_per_chunk)
    by (rewrite INR_IZR_INZ, Z2Nat.id by lia; reflexivity).
  assert (Hpos : 1 <= IZR n_per_chunk) by (apply IZR_le; assumption).
  unfold np_mean. rewrite Hlx, Hn. rewrite Hn in Hs.
  replace 0.50 with (/ 2) in Hs by lra.
  replace (np_sum x_row)
    with (dt * / 2 * (IZR n_per_chunk - 1) * IZR n_per_chunk
          + IZR n_per_chunk * xc) by lra.
  field. lra.
Qed.

Lemma fit_phase_chunk_midpoints_witness :
  exists d times,
    (fit_phase 2 demo_tone).1 = Ok tt
    /\ f (fit_phase 2 demo_tone).2 !! "workup/fit/x" = Some d
    /\ data d = AReal times
    /\ Z.of_nat (length times) = (4 / 2)%Z
    /\ forall c : nat, (c < length times)%nat ->
         times !! c
         = Some (0 + INR (c * Z.to_nat 2) * 1 + (IZR 2 - 1) * 1 / 2).
Proof.
  apply (fit_phase_chunk_midpoints demo_tone 2 1 0 2
           (default (mkDataset (AReal []) ∅) (f demo_tone !! "workup/time/p"))
           (default (mkDataset (AReal []) ∅) (f demo_tone !! "x"))
           [0; 2; 4; 6] [1 * 0; 1 * 1; 1 * 2; 1 * 3] "x").
  - exact demo_tone_step.
  - lra.
  - reflexivity.
  - reflexivity.
  - reflexivity.
  - reflexivity.
  - reflexivity.
  - simpl. lia.
  - exact demo_phase_spaced.
  - replace (2 / 1) with (IZR 2) by lra. apply py_round_IZR.
  - lia.
  - reflexivity.
  - reflexivity.
Defined.

(** X19. A negative target chunk duration is refused before anything
    is stored: when the target rounds to a negative number of samples
    per chunk, the phase array cannot be reshaped into chunks, and the
    chunked frequency estimator raises a value error and leaves the
    file as it was. *)
Theorem fit_phase_negative_target (st : Signal) (dt_chunk_target dt : R)
    (dp : Dataset) (p : list R) :
  get_step st = (Ok dt, st) ->
  dt <> 0 ->
  f st !! "workup/time/p" = Some dp ->
  as_real (data dp) = Ok p ->
  (py_round (dt_chunk_target / dt) < 0)%Z ->
  fit_phase dt_chunk_target st = (Raise ValueError, st).
Proof.
  intros Hstep Hdt Hp Hreal Hneg. unfold fit_phase.
  rewrite (bind_ok _ _ _ _ _ Hstep).
  rewrite (bind_ok _ _ _ _ _ (getitem_some "workup/time/p" st dp Hp)).
  rewrite bind_liftR, Hreal.
  rewrite bind_liftR, py_round_div_ok by assumption.
  set (npc := py_round (dt_chunk_target / dt)) in *.
  rewrite bind_liftR. unfold py_int_div.
  destruct (Z.eqb_spec npc 0); [lia|].
  rewrite bind_liftR. unfold np_reshape.
  destruct (Z.ltb_spec npc 0) as [_|]; [|lia].
  rewrite orb_true_r. reflexivity.
Qed.

Lemma fit_phase_negative_target_witness :
  fit_phase (-2) demo_tone = (Raise ValueError, demo_tone).
Proof.
  apply (fit_phase_negative_target demo_tone (-2) 1
           (default (mkDataset (AReal []) ∅) (f demo_tone !! "workup/time/p"))
           [0; 2; 4; 6]).
  - exact demo_tone_step.
  - lra.
  - reflexivity.
  - reflexivity.
  - replace (-2 / 1) with (IZR (-2)) by lra. rewrite py_round_IZR. lia.
Defined.

(** X20. A phase trace shorter than one chunk is not an error: the
    chunked frequency estimator succeeds and stores an empty time
    array and an empty frequency array. *)
Theorem fit_phase_short_trace (st : Signal) (dt_chunk_target dt : R)
    (dp dx : Dataset) (p xs : list R) (a : string) :
  get_step st = (Ok dt, st) ->
  dt <> 0 ->
  f st !! "workup/time/p" = Some dp ->
  as_real (data dp) = Ok p ->
  get_attr dp "abscissa" = Ok (AStr a) ->
  f st !! h5path a = Some dx ->
  as_real (data dx) = Ok xs ->
  (Z.of_nat (length p) < py_round (dt_chunk_target / dt))%Z ->
  f st !! "workup/fit/x" = None ->
  f st !! "workup/fit/y" = None ->
  exists d_x d_y,
    (fit_phase dt_chunk_target st).1 = Ok tt
    /\ f (fit_phase dt_chunk_target st).2 !! "workup/fit/x" = Some d_x
    /\ data d_x = AReal []
    /\ f (fit_phase dt_chunk_target st).2 !! "workup/fit/y" = Some d_y
    /\ data d_y = AReal [].
Proof.
  intros Hstep Hdt Hp Hreal Habs Hx Hxreal Hshort Hf1 Hf2.
  set (npc := py_round (dt_chunk_target / dt)) in *.
  assert (Hquot : Z.quot (Z.of_nat (length p)) npc = 0%Z)
    by (apply Z.quot_small; lia).
  unfold fit_phase.
  rewrite (bind_ok _ _ _ _ _ Hstep).
  rewrite (bind_ok _ _ _ _ _ (getitem_some "workup/time/p" st dp Hp)).
  rewrite bind_liftR, Hreal.
  rewrite bind_liftR, py_round_div_ok by assumption. fold npc.
  rewrite bind_liftR. unfold py_int_div.
  destruct (Z.eqb_spec npc 0); [lia|]. rewrite Hquot.
  rewrite Z.mul_0_r.
  rewrite !py_slice_take by lia. cbn [Z.to_nat take].
  rewrite bind_liftR.
  assert (Hre : forall l : list R,
            np_reshape (take 0 l) 0 npc = Ok []).
  { intros l. unfold np_reshape.
    destruct (Z.ltb_spec npc 0); [lia|]. cbn [Z.ltb orb].
    rewrite take_0. cbn [length Z.of_nat].
    destruct (decide (0 = 0 * npc)%Z); [reflexivity|lia]. }
  rewrite Hre.
  rewrite bind_liftR, Habs. cbn [mbind result_bind as_str].
  rewrite (bind_ok _ _ _ _ _ (getitem_some a st dx Hx)).
  rewrite bind_liftR, Hxreal.
  rewrite py_slice_take by lia. cbn [Z.to_nat].
  rewrite bind_liftR, Hre.
  step_create. rewrite bind_update_attrs. step_create.
  eexists _, _. split; [reflexivity|]. split.
  { cbn [snd]. rewrite lookup_update_attrs_ne by discriminate. cbn [f].
    rewrite lookup_insert_ne by discriminate.
    apply lookup_update_attrs_some. apply lookup_insert_eq. }
  split; [reflexivity|]. split.
  { cbn [snd]. apply lookup_update_attrs_some. apply lookup_insert_eq. }
  reflexivity.
Qed.

Lemma fit_phase_short_trace_witness :
  exists d_x d_y,
    (fit_phase 5 demo_tone).1 = Ok tt
    /\ f (fit_phase 5 demo_tone).2 !! "workup/fit/x" = Some d_x
    /\ data d_x = AReal []
    /\ f (fit_phase 5 demo_tone).2 !! "workup/fit/y" = Some d_y
    /\ data d_y = AReal [].
Proof.
  apply (fit_phase_short_trace demo_tone 5 1
           (default (mkDataset (AReal []) ∅) (f demo_tone !! "workup/time/p"))
           (default (mkDataset (AReal []) ∅) (f demo_tone !! "x"))
           [0; 2; 4; 6] [1 * 0; 1 * 1; 1 * 2; 1 * 3] "x").
  - exact demo_tone_step.
  - lra.
  - reflexivity.
  - reflexivity.
  - reflexivity.
  - reflexivity.
  - reflexivity.
  - replace (5 / 1) with (IZR 5) by lra. rewrite py_round_IZR. simpl. lia.
  - reflexivity.
  - reflexivity.
Defined.

(** ** The decay fit: the curve rebuilt from the residual *)

Lemma np_binop_same_length (op : R -> R -> R) (a b : list R) :
  length a = length b -> np_binop op a b = Ok (zip_with op a b).
Proof.
  intros H. unfold np_binop.
  destruct (decide (length a = length b)); [reflexivity|contradiction].
Qed.

Lemma rebuild_from_residual (m y s : list R) :
  length m = length y -> length s = length y ->
  Forall (fun v => v <> 0) s ->
  zip_with Rplus y
    (zip_with Rmult s (zip_with Rdiv (zip_with Rminus m y) s)) = m.
Proof.
  revert y s. induction m as [|u m IH]; intros [|v y] [|w s] Hm Hs Hnz;
    try discriminate; [reflexivity|].
  inversion Hnz; subst. cbn [zip_with]. f_equal.
  - field. assumption.
  - apply IH; [simpl in Hm; lia|simpl in Hs; lia|assumption].
Qed.

(** X21. The fitted curve the decay fit stores is the model itself:
    for data [y] over times [x] and standard deviations [y_stdev] of
    the same length, none of them zero, the objective [fcn2min]
    returns a residual, and [y + y_stdev * residual], the curve
    computed from that residual, is [a0 exp(-x/tau) + a1] at every
    time, whatever the data are. *)
Theorem fit_amplitude_curve_is_model (a0 a1 tau : R) (x y y_stdev : list R) :
  length x = length y ->
  length y_stdev = length y ->
  Forall (fun v => v <> 0) y_stdev ->
  exists residual,
    fcn2min a0 a1 tau x y y_stdev = Ok residual
    /\ length residual = length y
    /\ y_calc y y_stdev residual = Ok (map (decay_model a0 a1 tau) x).
Proof.
  intros Hx Hs Hnz.
  exists (zip_with Rdiv (zip_with Rminus (map (decay_model a0 a1 tau) x) y)
            y_stdev).
  assert (L1 : length (zip_with Rminus (map (decay_model a0 a1 tau) x) y)
               = length y)
    by (rewrite length_zip_with, length_map; lia).
  assert (L2 : length (zip_with Rdiv
                         (zip_with Rminus (map (decay_model a0 a1 tau) x) y)
                         y_stdev) = length y)
    by (rewrite length_zip_with; lia).
  split.
  { unfold fcn2min.
    rewrite np_binop_same_length by (rewrite length_map; exact Hx).
    cbn [mbind result_bind]. apply np_binop_same_length. lia. }
  split; [exact L2|].
  unfold y_calc. rewrite np_binop_same_length by lia.
  cbn [mbind result_bind].
  rewrite np_binop_same_length by (rewrite length_zip_with; lia).
  f_equal. apply rebuild_from_residual; [rewrite length_map|..]; assumption.
Qed.

Lemma fit_amplitude_curve_is_model_witness :
  exists residual,
    fcn2min 1 (1 / 10) 1 [0; 1] [3; 2] [2; 2] = Ok residual
    /\ length residual = length [3; 2]
    /\ y_calc [3; 2] [2; 2] residual
       = Ok (map (decay_model 1 (1 / 10) 1) [0; 1]).
Proof.
  apply (fit_amplitude_curve_is_model 1 (1 / 10) 1 [0; 1] [3; 2] [2; 2]).
  - reflexivity.
  - reflexivity.
  - repeat constructor; lra.
Defined.

(** ** The inverse transform undoes the transform *)

(** *** Sums over an index range *)

Lemma np_sum_map_zero {A} (g : A -> R) (l : list A) :
  (forall a, a ∈ l -> g a = 0) -> np_sum (map g l) = 0.
Proof.
  induction l as [|a l IH]; intros H.
  - apply np_sum_nil.
  - cbn [map]. rewrite np_sum_cons, (H a) by apply list_elem_of_here.
    rewrite IH; [lra|].
    intros b Hb. apply H, list_elem_of_further, Hb.
Qed.

Lemma np_sum_map_ext {A} (g h : A -> R) (l : list A) :
  (forall a, a ∈ l -> g a = h a) -> np_sum (map g l) = np_sum (map h l).
Proof.
  induction l as [|a l IH]; intros H.
  - reflexivity.
  - cbn [map]. rewrite !np_sum_cons, (H a) by apply list_elem_of_here.
    rewrite IH; [reflexivity|].
    intros b Hb. apply H, list_elem_of_further, Hb.
Qed.

Lemma np_sum_map_plus {A} (g h : A -> R) (l : list A) :
  np_sum (map (fun a => g a + h a) l) = np_sum (map g l) + np_sum (map h l).
Proof.
  induction l as [|a l IH].
  - cbn [map]. rewrite !np_sum_nil. lra.
  - cbn [map]. rewrite !np_sum_cons, IH. lra.
Qed.

Lemma np_sum_map_scal {A} (c : R) (g : A -> R) (l : list A) :
  np_sum (map (fun a => c * g a) l) = c * np_sum (map g l).
Proof.
  induction l as [|a l IH].
  - cbn [map]. rewrite !np_sum_nil. lra.
  - cbn [map]. rewrite !np_sum_cons, IH. lra.
Qed.

Lemma np_sum_exchange {A B} (F : A -> B -> R) (la : list A) (lb : list B) :
  np_sum (map (fun a => np_sum (map (fun b => F a b) lb)) la)
  = np_sum (map (fun b => np_sum (map (fun a => F a b) la)) lb).
Proof.
  induction la as [|a la IH].
  - cbn [map]. rewrite np_sum_nil. symmetry.
    apply np_sum_map_zero. intros b _. apply np_sum_nil.
  - cbn [map]. rewrite np_sum_cons, IH.
    rewrite <- np_sum_map_plus. apply np_sum_map_ext.
    intros b _. rewrite np_sum_cons. reflexivity.
Qed.

Lemma np_sum_single (h : nat -> R) (m j : nat) :
  (j < m)%nat ->
  (forall l, (l < m)%nat -> l <> j -> h l = 0) ->
  np_sum (map h (seq 0 m)) = h j.
Proof.
  induction m as [|m IH]; intros Hj Hz; [lia|].
  rewrite seq_S, map_app, np_sum_app. cbn [map Nat.add].
  rewrite np_sum_cons, np_sum_nil.
  destruct (decide (j = m)) as [->|Hne].
  - rewrite np_sum_map_zero; [lra|].
    intros l Hl. apply list_elem_of_In, in_seq in Hl. apply Hz; lia.
  - rewrite IH by (try lia; intros l Hl Hlj; apply Hz; lia).
    rewrite (Hz m) by lia. lra.
Qed.

(** *** The sums of the roots of unity *)

Lemma telescope_cos_sin (theta : R) (m : nat) :
  2 * sin (theta / 2) * np_sum (map (fun k => cos (INR k * theta)) (seq 0 m))
  = sin ((INR m - 1 / 2) * theta) + sin (theta / 2)
  /\ 2 * sin (theta / 2)
       * np_sum (map (fun k => sin (INR k * theta)) (seq 0 m))
     = cos (theta / 2) - cos ((INR m - 1 / 2) * theta).
Proof.
  induction m as [|m [IHc IHs]].
  - cbn [seq map INR]. rewrite !np_sum_nil.
    replace ((0 - 1 / 2) * theta) with (- (theta / 2)) by lra.
    rewrite sin_neg, cos_neg. lra.
  - rewrite seq_S, !map_app, !np_sum_app. cbn [map Nat.add].
    rewrite !np_sum_cons, !np_sum_nil, S_INR.
    replace ((INR m + 1 - 1 / 2) * theta)
      with (INR m * theta + theta / 2) by lra.
    replace ((INR m - 1 / 2) * theta)
      with (INR m * theta - theta / 2) in IHc, IHs by lra.
    rewrite sin_plus, cos_plus.
    rewrite sin_minus in IHc. rewrite cos_minus in IHs.
    split; nra.
Qed.

Lemma sin_period_Z (x : R) (k : Z) : sin (x + 2 * IZR k * PI) = sin x.
Proof.
  destruct (Z_le_gt_dec 0 k) as [Hk|Hk].
  - rewrite <- (Z2Nat.id k) by assumption.
    rewrite <- INR_IZR_INZ. apply sin_period.
  - rewrite <- (sin_period (x + 2 * IZR k * PI) (Z.to_nat (- k))).
    rewrite INR_IZR_INZ, Z2Nat.id, opp_IZR by lia. f_equal. lra.
Qed.

Lemma cos_period_Z (x : R) (k : Z) : cos (x + 2 * IZR k * PI) = cos x.
Proof.
  destruct (Z_le_gt_dec 0 k) as [Hk|Hk].
  - rewrite <- (Z2Nat.id k) by assumption.
    rewrite <- INR_IZR_INZ. apply cos_period.
  - rewrite <- (cos_period (x + 2 * IZR k * PI) (Z.to_nat (- k))).
    rewrite INR_IZR_INZ, Z2Nat.id, opp_IZR by lia. f_equal. lra.
Qed.

Lemma roots_of_unity_sum (n d : nat) :
  (0 < d < n)%nat ->
  np_sum (map (fun k => cos (INR k * (2 * PI * INR d / INR n))) (seq 0 n)) = 0
  /\ np_sum (map (fun k => sin (INR k * (2 * PI * INR d / INR n))) (seq 0 n))
     = 0.
Proof.
  intros Hd. set (theta := 2 * PI * INR d / INR n).
  pose proof PI_RGT_0 as Hpi.
  assert (Hn : 0 < INR n) by (apply lt_0_INR; lia).
  assert (Hd0 : 0 < INR d) by (apply lt_0_INR; lia).
  assert (Hdn : INR d < INR n) by (apply lt_INR; lia).
  assert (Hhalf : 0 < theta / 2 < PI).
  { unfold theta.
    replace (2 * PI * INR d / INR n / 2) with (PI * (INR d / INR n))
      by (field; lra).
    assert (0 < INR d / INR n < 1).
    { split; [apply Rdiv_lt_0_compat; assumption|].
      apply (Rmult_lt_reg_r (INR n)); [assumption|].
      replace (INR d / INR n * INR n) with (INR d) by (field; lra). lra. }
    nra. }
  assert (Hsin : 0 < sin (theta / 2)) by (apply sin_gt_0; lra).
  destruct (telescope_cos_sin theta n) as [Hc Hs].
  assert (Hfull : (INR n - 1 / 2) * theta
                  = - (theta / 2) + 2 * IZR (Z.of_nat d) * PI).
  { rewrite <- INR_IZR_INZ. unfold theta. field. lra. }
  rewrite Hfull in Hc, Hs.
  rewrite sin_period_Z, sin_neg in Hc.
  rewrite cos_period_Z, cos_neg in Hs.
  split; nra.
Qed.

(** The difference of two of the angles of the transform. *)
Lemma orthogonality (n j l : nat) :
  (j < n)%nat -> (l < n)%nat ->
  np_sum (map (fun k => cos (2 * PI * INR j * INR k / INR n
                             - 2 * PI * INR l * INR k / INR n)) (seq 0 n))
  = (if decide (l = j) then INR n else 0)
  /\ np_sum (map (fun k => sin (2 * PI * INR j * INR k / INR n
                                - 2 * PI * INR l * INR k / INR n)) (seq 0 n))
     = 0.
Proof.
  intros Hj Hl.
  assert (Hn : 0 < INR n) by (apply lt_0_INR; lia).
  destruct (decide (l = j)) as [->|Hne].
  - split.
    + rewrite (np_sum_map_ext _ (fun _ => 1)).
      * clear. induction n as [|n IH]; [apply np_sum_nil|].
        rewrite seq_S, map_app, np_sum_app, IH, S_INR. cbn [map].
        rewrite np_sum_cons, np_sum_nil. lra.
      * intros k _. rewrite Rminus_diag. apply cos_0.
    + apply np_sum_map_zero. intros k _. rewrite Rminus_diag. apply sin_0.
  - destruct (decide (l < j)%nat) as [Hlt|Hge].
    + destruct (roots_of_unity_sum n (j - l) ltac:(lia)) as [Hc Hs].
      split.
      * rewrite <- Hc. apply np_sum_map_ext. intros k _. f_equal.
        rewrite minus_INR by lia. field. lra.
      * rewrite <- Hs. apply np_sum_map_ext. intros k _. f_equal.
        rewrite minus_INR by lia. field. lra.
    + destruct (roots_of_unity_sum n (l - j) ltac:(lia)) as [Hc Hs].
      split.
      * rewrite <- Hc. apply np_sum_map_ext. intros k _.
        rewrite <- cos_neg. f_equal.
        rewrite minus_INR by lia. field. lra.
      * rewrite (np_sum_map_ext _
                   (fun k => -1 * sin (INR k * (2 * PI * INR (l - j) / INR n)))).
        { rewrite np_sum_map_scal, Hs. lra. }
        intros k _.
        replace (2 * PI * INR j * INR k / INR n
                 - 2 * PI * INR l * INR k / INR n)
          with (- (INR k * (2 * PI * INR (l - j) / INR n))).
        { rewrite sin_neg. lra. }
        rewrite minus_INR by lia. field. lra.
Qed.

(** *** The transform pair *)

Lemma fst_foldr_Cadd (l : list C) :
  fst (foldr Cadd (0, 0) l) = np_sum (map fst l).
Proof.
  induction l as [|z l IH]; [reflexivity|].
  cbn [foldr map]. rewrite np_sum_cons, <- IH. reflexivity.
Qed.

Lemma snd_foldr_Cadd (l : list C) :
  snd (foldr Cadd (0, 0) l) = np_sum (map snd l).
Proof.
  induction l as [|z l IH]; [reflexivity|].
  cbn [foldr map]. rewrite np_sum_cons, <- IH. reflexivity.
Qed.

Lemma imap_as_map {A B} (g : nat -> A -> B) (s : list A) (d : A) :
  imap g s = map (fun l => g l (nth l s d)) (seq 0 (length s)).
Proof.
  apply list_eq. intros i.
  change (map ?h ?l) with (h <$> l).
  rewrite list_lookup_imap, list_lookup_fmap.
  destruct (decide (i < length s)%nat) as [Hi|Hi].
  - rewrite lookup_seq_lt by assumption.
    destruct (lookup_lt_is_Some_2 s i Hi) as [v Hv].
    rewrite Hv. cbn [fmap option_fmap option_map Nat.add].
    rewrite nth_lookup, Hv. reflexivity.
  - rewrite lookup_seq_ge, lookup_ge_None_2 by lia. reflexivity.
Qed.

Lemma imap_map_seq {A B} (g : nat -> A -> B) (h : nat -> A) (n : nat) :
  imap g (map h (seq 0 n)) = map (fun k => g k (h k)) (seq 0 n).
Proof.
  apply list_eq. intros i.
  change (map ?h ?l) with (h <$> l).
  rewrite list_lookup_imap, !list_lookup_fmap.
  destruct (decide (i < n)%nat) as [Hi|Hi].
  - rewrite lookup_seq_lt by assumption. reflexivity.
  - rewrite lookup_seq_ge by lia. reflexivity.
Qed.

Lemma dft_bin_parts (s : list R) (k : nat) :
  fst (dft_bin s k)
  = np_sum (map (fun l => nth l s 0
                          * cos (2 * PI * INR l * INR k / INR (length s)))
              (seq 0 (length s)))
  /\ snd (dft_bin s k)
     = -1 * np_sum (map (fun l => nth l s 0
                                 * sin (2 * PI * INR l * INR k
                                        / INR (length s)))
                     (seq 0 (length s))).
Proof.
  unfold dft_bin.
  rewrite fst_foldr_Cadd, snd_foldr_Cadd, (imap_as_map _ s 0), !map_map.
  split.
  - reflexivity.
  - rewrite <- np_sum_map_scal. apply np_sum_map_ext. intros l _.
    unfold dft_term. cbn [snd]. lra.
Qed.

(** The inverse transform of the transform of a signal is the signal,
    sample by sample. *)
Lemma idft_dft (s : list R) (j : nat) :
  (j < length s)%nat ->
  idft_bin (map (dft_bin s) (seq 0 (length s))) j = (nth j s 0, 0).
Proof.
  intros Hj.
  assert (Hn : 0 < INR (length s)) by (apply lt_0_INR; lia).
  unfold idft_bin. rewrite length_map, length_seq.
  rewrite imap_map_seq.
  set (n := length s) in *.
  assert (Hre :
    np_sum (map fst (map (fun k => idft_term n j k (dft_bin s k)) (seq 0 n)))
    = INR n * nth j s 0).
  { rewrite map_map.
    rewrite (np_sum_map_ext _
      (fun k => np_sum (map (fun l => nth l s 0
                               * cos (2 * PI * INR j * INR k / INR n
                                      - 2 * PI * INR l * INR k / INR n))
                          (seq 0 n)))).
    2:{ intros k _. destruct (dft_bin_parts s k) as [H1 H2]. fold n in H1, H2.
        unfold idft_term, Cmul. cbn [fst snd]. rewrite H1, H2.
        transitivity
          (np_sum (map (fun l =>
                     cos (2 * PI * INR j * INR k / INR n)
                     * (nth l s 0 * cos (2 * PI * INR l * INR k / INR n))
                     + sin (2 * PI * INR j * INR k / INR n)
                       * (nth l s 0 * sin (2 * PI * INR l * INR k / INR n)))
                    (seq 0 n))).
        - rewrite np_sum_map_plus, !np_sum_map_scal. ring.
        - apply np_sum_map_ext. intros l _. rewrite cos_minus. ring. }
    rewrite np_sum_exchange.
    rewrite (np_sum_map_ext _
      (fun l => nth l s 0 * (if decide (l = j) then INR n else 0))).
    2:{ intros l Hl. apply list_elem_of_In, in_seq in Hl.
        rewrite np_sum_map_scal.
        destruct (orthogonality n j l ltac:(lia) ltac:(lia)) as [Hc _].
        rewrite Hc. reflexivity. }
    rewrite (np_sum_single _ n j).
    - destruct (decide (j = j)); [lra|contradiction].
    - lia.
    - intros l _ Hne. destruct (decide (l = j)); [contradiction|lra]. }
  assert (Him :
    np_sum (map snd (map (fun k => idft_term n j k (dft_bin s k)) (seq 0 n)))
    = 0).
  { rewrite map_map.
    rewrite (np_sum_map_ext _
      (fun k => np_sum (map (fun l => nth l s 0
                               * sin (2 * PI * INR j * INR k / INR n
                                      - 2 * PI * INR l * INR k / INR n))
                          (seq 0 n)))).
    2:{ intros k _. destruct (dft_bin_parts s k) as [H1 H2]. fold n in H1, H2.
        unfold idft_term, Cmul. cbn [fst snd]. rewrite H1, H2.
        transitivity
          (np_sum (map (fun l =>
                     sin (2 * PI * INR j * INR k / INR n)
                     * (nth l s 0 * cos (2 * PI * INR l * INR k / INR n))
                     + - cos (2 * PI * INR j * INR k / INR n)
                       * (nth l s 0 * sin (2 * PI * INR l * INR k / INR n)))
                    (seq 0 n))).
        - rewrite np_sum_map_plus, !np_sum_map_scal. ring.
        - apply np_sum_map_ext. intros l _. rewrite sin_minus. ring. }
    rewrite np_sum_exchange.
    apply np_sum_map_zero. intros l Hl.
    apply list_elem_of_In, in_seq in Hl.
    rewrite np_sum_map_scal.
    destruct (orthogonality n j l ltac:(lia) ltac:(lia)) as [_ Hs].
    rewrite Hs. lra. }
  unfold Cscale. rewrite fst_foldr_Cadd, snd_foldr_Cadd, Hre, Him.
  f_equal; field; lra.
Qed.

Lemma np_ifft_fft (s : list R) :
  s <> [] ->
  np_ifft (map (dft_bin s) (seq 0 (length s)))
  = Ok (map (fun v => (v, 0)) s).
Proof.
  intros Hne.
  assert (Hlen : (1 <= length s)%nat)
    by (destruct s; [contradiction|simpl; lia]).
  unfold np_ifft.
  destruct (map (dft_bin s) (seq 0 (length s))) as [|z X] eqn:EX.
  { apply (f_equal length) in EX.
    rewrite length_map, length_seq in EX. simpl in EX. lia. }
  rewrite <- EX. f_equal. rewrite length_map, length_seq.
  apply list_eq. intros i.
  change (map ?h ?l) with (h <$> l).
  rewrite !list_lookup_fmap.
  destruct (decide (i < length s)%nat) as [Hi|Hi].
  - rewrite lookup_seq_lt by assumption. cbn [fmap option_fmap option_map].
    rewrite Nat.add_0_l.
    change (dft_bin s <$> seq 0 (length s))
      with (map (dft_bin s) (seq 0 (length s))).
    rewrite idft_dft by assumption.
    destruct (lookup_lt_is_Some_2 s i Hi) as [v Hv].
    rewrite nth_lookup, Hv. reflexivity.
  - rewrite lookup_seq_ge, lookup_ge_None_2 by lia. reflexivity.
Qed.

Lemma np_ifftshift_fftshift {A} (a : list A) :
  np_ifftshift (np_fftshift a) = a.
Proof.
  pose proof (Nat.div_mod_eq (length a) 2) as Hd.
  pose proof (Nat.mod_upper_bound (length a) 2 ltac:(lia)) as Hr.
  unfold np_ifftshift, np_roll. rewrite np_fftshift_length.
  unfold np_fftshift, np_roll.
  set (h := (length a / 2)%nat) in *.
  replace (length a - (length a - h))%nat with h by lia.
  rewrite drop_app_length', take_app_length' by (rewrite length_drop; lia).
  apply take_drop.
Qed.

(** ** The demodulator: modulus, angle and unwrapped phase *)

Lemma Cabs_nonneg (z : C) : 0 <= Cabs z.
Proof. apply sqrt_pos. Qed.

(** The modulus and the angle of a complex number give it back. *)
Lemma polar_form (z : C) :
  Cabs z * cos (np_angle z) = fst z /\ Cabs z * sin (np_angle z) = snd z.
Proof.
  destruct z as [x y]. unfold np_angle, np_arctan2, Cabs. cbn [fst snd].
  pose proof PI_RGT_0 as Hpi.
  set (r := sqrt (x * x + y * y)).
  assert (Hr0 : 0 <= r) by apply sqrt_pos.
  assert (Hr2 : r * r = x * x + y * y) by (apply sqrt_sqrt; nra).
  assert (Hdiv : forall t, 0 < sqrt (1 + t²)).
  { intros t. apply sqrt_lt_R0. unfold Rsqr. nra. }
  assert (Hw2 : forall t, sqrt (1 + t²) * sqrt (1 + t²) = 1 + t * t).
  { intros t. apply sqrt_sqrt. unfold Rsqr. nra. }
  destruct (Rlt_dec 0 x) as [Hx|Hx].
  - rewrite cos_atan, sin_atan.
    specialize (Hdiv (y / x)). specialize (Hw2 (y / x)).
    set (w := sqrt (1 + (y / x)²)) in *.
    assert (Hxw : r = x * w).
    { assert (Hsq : (x * w) * (x * w) = r * r).
      { rewrite Hr2.
        replace (x * w * (x * w)) with (x * x * (w * w)) by ring.
        rewrite Hw2. field. lra. }
      assert (0 < x * w) by (apply Rmult_lt_0_compat; assumption). nra. }
    rewrite Hxw. split; field; lra.
  - destruct (Rlt_dec x 0) as [Hx'|Hx'].
    + specialize (Hdiv (y / x)). specialize (Hw2 (y / x)).
      assert (Hxw : r = - x * sqrt (1 + (y / x)²)).
      { set (w := sqrt (1 + (y / x)²)) in *.
        assert (Hsq : (- x * w) * (- x * w) = r * r).
        { rewrite Hr2.
          replace (- x * w * (- x * w)) with (x * x * (w * w)) by ring.
          rewrite Hw2. field. lra. }
        assert (0 < - x * w) by (apply Rmult_lt_0_compat; lra). nra. }
      destruct (Rle_dec 0 y) as [Hy|Hy].
      * rewrite neg_cos, neg_sin, cos_atan, sin_atan, Hxw.
        split; field; lra.
      * rewrite cos_minus, sin_minus, cos_PI, sin_PI, cos_atan, sin_atan, Hxw.
        split; field; lra.
    + assert (x = 0) by lra. subst x.
      assert (Hry : r * r = y * y) by lra.
      destruct (Rlt_dec 0 y) as [Hy|Hy].
      * rewrite cos_PI2, sin_PI2. split; [lra|nra].
      * destruct (Rlt_dec y 0) as [Hy'|Hy'].
        -- rewrite cos_neg, sin_neg, cos_PI2, sin_PI2. split; [lra|nra].
        -- assert (y = 0) by lra. subst y. rewrite cos_0, sin_0.
           assert (r = 0) by nra. split; lra.
Qed.

Lemma np_mod_range (x y : R) : 0 < y -> 0 <= np_mod x y < y.
Proof.
  intros Hy. unfold np_mod, py_floor.
  pose proof (Zfloor_bound (x / y)) as [Hlo Hhi].
  assert (Hx : x = x / y * y) by (field; lra).
  set (q := IZR (Zfloor (x / y))) in *.
  split.
  - assert (q * y <= x / y * y) by (apply Rmult_le_compat_r; lra). lra.
  - assert (x / y * y < (q + 1) * y) by (apply Rmult_lt_compat_r; lra). lra.
Qed.

(** A jump plus its correction is at most half a turn. *)
Lemma unwrap_correction_bound (dd : R) :
  Rabs (dd + unwrap_correction dd) <= PI.
Proof.
  pose proof PI_RGT_0 as Hpi.
  unfold unwrap_correction, Rltb, Reqb.
  pose proof (np_mod_range (dd - - PI) (2 * PI) ltac:(lra)) as [Hlo Hhi].
  set (m := np_mod (dd - - PI) (2 * PI)) in *.
  destruct (Rlt_dec (Rabs dd) PI) as [Hsmall|Hbig].
  - rewrite Rplus_0_r. lra.
  - destruct (Req_dec_T (m + - PI) (- PI)) as [He|He];
      destruct (Rlt_dec 0 dd) as [Hp|Hp]; cbn [andb].
    + replace (dd + (PI - dd)) with PI by ring.
      rewrite Rabs_pos_eq; lra.
    + replace (dd + (m + - PI - dd)) with (m + - PI) by ring.
      apply Rabs_le. lra.
    + replace (dd + (m + - PI - dd)) with (m + - PI) by ring.
      apply Rabs_le. lra.
    + replace (dd + (m + - PI - dd)) with (m + - PI) by ring.
      apply Rabs_le. lra.
Qed.

(** Every correction is a whole number of turns. *)
Lemma unwrap_correction_turns (dd : R) :
  exists K : Z, unwrap_correction dd = 2 * IZR K * PI.
Proof.
  unfold unwrap_correction, Rltb, Reqb, np_mod.
  set (F := py_floor ((dd - - PI) / (2 * PI))).
  destruct (Rlt_dec (Rabs dd) PI) as [Hsmall|Hbig].
  - exists 0%Z. lra.
  - destruct (Req_dec_T (dd - - PI - IZR F * (2 * PI) + - PI) (- PI))
      as [He|He]; destruct (Rlt_dec 0 dd) as [Hp|Hp]; cbn [andb].
    + exists (1 - F)%Z. rewrite minus_IZR. lra.
    + exists (- F)%Z. rewrite opp_IZR. lra.
    + exists (- F)%Z. rewrite opp_IZR. lra.
    + exists (- F)%Z. rewrite opp_IZR. lra.
Qed.

(** The unwrapped phase from the second entry on, for a running sum
    of corrections [acc] and the previous raw phase [prev]. *)
Lemma unwrap_tail_jumps (rest : list R) :
  forall (prev acc : R) (i : nat) (a b : R),
    ((prev + acc)
     :: zip_with Rplus rest
          (cumsum_from acc
             (map unwrap_correction
                (zip_with (fun a b => b - a) (prev :: rest) rest)))) !! i
    = Some a ->
    ((prev + acc)
     :: zip_with Rplus rest
          (cumsum_from acc
             (map unwrap_correction
                (zip_with (fun a b => b - a) (prev :: rest) rest)))) !! S i
    = Some b ->
    Rabs (b - a) <= PI.
Proof.
  induction rest as [|r rest IH]; intros prev acc i a b Ha Hb.
  - destruct i; discriminate.
  - cbn [zip_with map cumsum_from] in Ha, Hb.
    destruct i as [|i].
    + cbn in Ha, Hb. injection Ha as <-. injection Hb as <-.
      replace (r + (acc + unwrap_correction (r - prev)) - (prev + acc))
        with ((r - prev) + unwrap_correction (r - prev)) by ring.
      apply unwrap_correction_bound.
    + apply (IH r (acc + unwrap_correction (r - prev)) i a b).
      * exact Ha.
      * exact Hb.
Qed.

Lemma unwrap_tail_turns (rest : list R) :
  forall (prev acc : R) (K0 : Z) (i : nat) (q : R),
    acc = 2 * IZR K0 * PI ->
    zip_with Rplus rest
      (cumsum_from acc
         (map unwrap_correction
            (zip_with (fun a b => b - a) (prev :: rest) rest))) !! i
    = Some q ->
    exists (r : R) (K : Z), rest !! i = Some r /\ q = r + 2 * IZR K * PI.
Proof.
  induction rest as [|r rest IH]; intros prev acc K0 i q Hacc Hq.
  - discriminate.
  - cbn [zip_with map cumsum_from] in Hq.
    destruct (unwrap_correction_turns (r - prev)) as [K HK].
    destruct i as [|i].
    + cbn in Hq. injection Hq as <-. exists r, (K0 + K)%Z.
      split; [reflexivity|]. rewrite HK, Hacc, plus_IZR. ring.
    + cbn [lookup list_lookup] in Hq |- *.
      apply (IH r (acc + unwrap_correction (r - prev)) (K0 + K)%Z i q).
      * rewrite HK, Hacc, plus_IZR. ring.
      * exact Hq.
Qed.

(** Adjacent entries of an unwrapped phase differ by at most half a
    turn, and every entry is the raw phase plus a whole number of
    turns. *)
Lemma np_unwrap_jumps (p : list R) (i : nat) (a b : R) :
  np_unwrap p !! i = Some a -> np_unwrap p !! S i = Some b ->
  Rabs (b - a) <= PI.
Proof.
  destruct p as [|p0 rest]; [discriminate|].
  unfold np_unwrap, np_cumsum, np_diff. cbn [tail].
  intros Ha Hb.
  apply (unwrap_tail_jumps rest p0 0 i a b).
  - rewrite Rplus_0_r. exact Ha.
  - rewrite Rplus_0_r. exact Hb.
Qed.

Lemma np_unwrap_turns (p : list R) (i : nat) (q : R) :
  np_unwrap p !! i = Some q ->
  exists (r : R) (K : Z), p !! i = Some r /\ q = r + 2 * IZR K * PI.
Proof.
  destruct p as [|p0 rest]; [discriminate|].
  unfold np_unwrap, np_cumsum, np_diff. cbn [tail].
  destruct i as [|i].
  - intros [= <-]. exists p0, 0%Z. split; [reflexivity|]. lra.
  - cbn [lookup list_lookup]. intros Hq.
    apply (unwrap_tail_turns rest p0 0 0%Z i q); [lra|exact Hq].
Qed.

Lemma np_unwrap_length (p : list R) : length (np_unwrap p) = length p.
Proof.
  assert (Hc : forall c acc, length (cumsum_from acc c) = length c).
  { induction c as [|v c IH]; intros acc; [reflexivity|].
    cbn [cumsum_from length]. rewrite IH. reflexivity. }
  destruct p as [|p0 rest]; [reflexivity|].
  unfold np_unwrap, np_cumsum, np_diff. cbn [tail length].
  rewrite length_zip_with, Hc, length_map, length_zip_with. cbn [length].
  lia.
Qed.

(** ** The inverse transform on the store *)

Lemma reads_ifft_spectrum : reads ifft_spectrum.
Proof. unfold ifft_spectrum, get_step. reads_tac. Qed.

Lemma reads_ifft_trim (sIFT : list C) : reads (ifft_trim sIFT).
Proof. unfold ifft_trim. reads_tac. Qed.

(** What a completed inverse transform has read and written. *)
Lemma ifft_inv (st st' : Signal) :
  ifft st = (Ok tt, st') ->
  exists (sp z0 z : list C) (ab : string) (dz dp da : Dataset),
    ifft_spectrum st = (Ok sp, st)
    /\ np_ifft (np_ifftshift sp) = Ok z0
    /\ ifft_trim z0 st = (Ok (z, ab), st)
    /\ f st' !! "workup/time/z" = Some dz
    /\ data dz = ACplx z
    /\ attrs dz !! "abscissa" = Some (AStr ab)
    /\ f st' !! "workup/time/p" = Some dp
    /\ data dp
       = AReal (map (fun v => v / (2 * PI)) (np_unwrap (map np_angle z)))
    /\ attrs dp !! "abscissa" = Some (AStr ab)
    /\ f st' !! "workup/time/a" = Some da
    /\ data da = AReal (map Cabs z)
    /\ attrs da !! "abscissa" = Some (AStr ab).
Proof.
  intros H. unfold ifft in H.
  apply bind_inv in H as (sp & st1 & Hsp & H).
  pose proof (reads_inv _ _ _ _ reads_ifft_spectrum Hsp) as ->.
  apply bind_inv in H as (z0 & st1 & Hz0 & H).
  apply liftR_inv in Hz0 as [Hz0 ->].
  apply bind_inv in H as ([z ab] & st1 & Htrim & H).
  pose proof (reads_inv _ _ _ _ (reads_ifft_trim z0) Htrim) as ->.
  cbn [fst snd] in H.
  apply bind_inv in H as ([] & st1 & Hc1 & H).
  apply create_dataset_inv in Hc1 as [Hfresh1 ->].
  apply bind_inv in H as (y & st1 & Hy & H).
  pose proof (reads_inv _ _ _ _ (reads_getitem "y") Hy) as ->.
  apply bind_inv in H as (unit_y & st1 & Hu & H).
  apply liftR_inv in Hu as [_ ->].
  apply bind_inv in H as ([] & st1 & Hu1 & H).
  apply update_attrs_inv in Hu1 as ->.
  apply bind_inv in H as ([] & st1 & Hc2 & H).
  apply create_dataset_inv in Hc2 as [Hfresh2 ->].
  apply bind_inv in H as ([] & st1 & Hu2 & H).
  apply update_attrs_inv in Hu2 as ->.
  apply bind_inv in H as ([] & st1 & Hc3 & H).
  apply create_dataset_inv in Hc3 as [Hfresh3 ->].
  apply update_attrs_inv in H as ->.
  eexists sp, z0, z, ab, _, _, _.
  split; [exact Hsp|]. split; [exact Hz0|]. split; [exact Htrim|].
  split.
  { rewrite lookup_update_attrs_ne by discriminate. cbn [f].
    rewrite lookup_insert_ne by discriminate.
    rewrite lookup_update_attrs_ne by discriminate. cbn [f].
    rewrite lookup_insert_ne by discriminate.
    apply lookup_update_attrs_some. apply lookup_insert_eq. }
  split; [reflexivity|]. split; [reflexivity|].
  split.
  { rewrite lookup_update_attrs_ne by discriminate. cbn [f].
    rewrite lookup_insert_ne by discriminate.
    apply lookup_update_attrs_some. apply lookup_insert_eq. }
  split; [reflexivity|]. split; [reflexivity|].
  split.
  { apply lookup_update_attrs_some. apply lookup_insert_eq. }
  split; reflexivity.
Qed.

(** X22. After a completed inverse transform the three arrays it
    stores, the complex signal [z], the phase [p] and the amplitude
    [a], have one length and one abscissa; the amplitude is the
    modulus of [z], so it is never negative; and the phase is
    continuous: two adjacent phases differ by at most half a cycle. *)
Theorem ifft_amplitude_and_phase (st st' : Signal) :
  ifft st = (Ok tt, st') ->
  exists (dz dp da : Dataset) (z : list C) (p a : list R) (ab : string),
    f st' !! "workup/time/z" = Some dz /\ data dz = ACplx z
    /\ f st' !! "workup/time/p" = Some dp /\ data dp = AReal p
    /\ f st' !! "workup/time/a" = Some da /\ data da = AReal a
    /\ attrs dz !! "abscissa" = Some (AStr ab)
    /\ attrs dp !! "abscissa" = Some (AStr ab)
    /\ attrs da !! "abscissa" = Some (AStr ab)
    /\ length p = length z
    /\ length a = length z
    /\ (forall (i : nat) zi, z !! i = Some zi ->
          a !! i = Some (Cabs zi) /\ 0 <= Cabs zi)
    /\ (forall (i : nat) p0 p1, p !! i = Some p0 -> p !! S i = Some p1 ->
          Rabs (p1 - p0) <= 1 / 2).
Proof.
  intros Hrun.
  destruct (ifft_inv st st' Hrun)
    as (sp & z0 & z & ab & dz & dp & da & _ & _ & _
        & Hz & Hdz & Haz & Hp & Hdp & Hap & Ha & Hda & Haa).
  exists dz, dp, da, z,
    (map (fun v => v / (2 * PI)) (np_unwrap (map np_angle z))),
    (map Cabs z), ab.
  repeat (split; [assumption|]).
  split; [rewrite length_map, np_unwrap_length, length_map; reflexivity|].
  split; [apply length_map|].
  split.
  - intros i zi Hi. split; [|apply Cabs_nonneg].
    change (map ?g ?l) with (g <$> l). rewrite list_lookup_fmap, Hi.
    reflexivity.
  - intros i p0 p1 H0 H1.
    change (map ?g ?l) with (g <$> l) in H0, H1.
    rewrite list_lookup_fmap in H0, H1.
    destruct (np_unwrap (map np_angle z) !! i) as [q0|] eqn:E0;
      [|discriminate].
    destruct (np_unwrap (map np_angle z) !! S i) as [q1|] eqn:E1;
      [|discriminate].
    cbn in H0, H1. injection H0 as <-. injection H1 as <-.
    pose proof (np_unwrap_jumps _ i q0 q1 E0 E1) as Hj.
    pose proof PI_RGT_0 as Hpi.
    replace (q1 / (2 * PI) - q0 / (2 * PI)) with ((q1 - q0) / (2 * PI))
      by (field; lra).
    unfold Rdiv at 1. rewrite Rabs_mult, Rabs_inv.
    rewrite (Rabs_pos_eq (2 * PI)) by lra.
    apply (Rmult_le_reg_r (2 * PI)); [lra|].
    replace (Rabs (q1 - q0) * / (2 * PI) * (2 * PI)) with (Rabs (q1 - q0))
      by (field; lra).
    lra.
Qed.

(** X23. The demodulator stores a polar form: after a completed
    inverse transform every sample of the complex signal is its
    amplitude turned by its phase,
    [z_i = a_i (cos(2 pi p_i) + i sin(2 pi p_i))], the phase being
    counted in cycles. *)
Theorem ifft_polar_form (st st' : Signal) :
  ifft st = (Ok tt, st') ->
  exists (dz dp da : Dataset) (z : list C) (p a : list R),
    f st' !! "workup/time/z" = Some dz /\ data dz = ACplx z
    /\ f st' !! "workup/time/p" = Some dp /\ data dp = AReal p
    /\ f st' !! "workup/time/a" = Some da /\ data da = AReal a
    /\ forall (i : nat) zi, z !! i = Some zi ->
         exists pi ai,
           p !! i = Some pi /\ a !! i = Some ai
           /\ zi = (ai * cos (2 * PI * pi), ai * sin (2 * PI * pi)).
Proof.
  intros Hrun.
  destruct (ifft_inv st st' Hrun)
    as (sp & z0 & z & ab & dz & dp & da & _ & _ & _
        & Hz & Hdz & _ & Hp & Hdp & _ & Ha & Hda & _).
  exists dz, dp, da, z,
    (map (fun v => v / (2 * PI)) (np_unwrap (map np_angle z))),
    (map Cabs z).
  repeat (split; [assumption|]).
  intros i zi Hi.
  assert (Hlt : (i < length (np_unwrap (map np_angle z)))%nat).
  { rewrite np_unwrap_length, length_map. apply lookup_lt_Some in Hi.
    exact Hi. }
  destruct (lookup_lt_is_Some_2 _ _ Hlt) as [q Hq].
  destruct (np_unwrap_turns _ i q Hq) as (r & K & Hr & ->).
  change (map ?g ?l) with (g <$> l) in Hr.
  rewrite list_lookup_fmap in Hr.
  assert (Hr2 : Some r = Some (np_angle zi))
    by (rewrite <- Hr; exact (f_equal (fmap np_angle) Hi)).
  injection Hr2 as ->.
  exists ((np_angle zi + 2 * IZR K * PI) / (2 * PI)), (Cabs zi).
  split.
  { change (map ?g ?l) with (g <$> l). rewrite list_lookup_fmap, Hq.
    reflexivity. }
  split.
  { change (map ?g ?l) with (g <$> l). rewrite list_lookup_fmap.
    exact (f_equal (fmap Cabs) Hi). }
  pose proof PI_RGT_0 as Hpi.
  replace (2 * PI * ((np_angle zi + 2 * IZR K * PI) / (2 * PI)))
    with (np_angle zi + 2 * IZR K * PI) by (field; lra).
  rewrite cos_period_Z, sin_period_Z.
  destruct (polar_form zi) as [Hc Hs]. rewrite Hc, Hs.
  destruct zi; reflexivity.
Qed.

(** ** The transform followed by the inverse transform *)

Ltac not_in_names :=
  repeat (apply not_elem_of_cons; split; [discriminate|]);
  apply not_elem_of_nil.

(** Step over a [create_dataset] whose name is free, however many
    datasets have been created before it. *)
Ltac step_create_deep :=
  match goal with
  | |- context [ (create_dataset ?n ?a ≫= ?k) ?s ] =>
      let H := fresh "Hfree" in
      assert (H : f s !! n = None)
        by (repeat first
              [ rewrite lookup_update_attrs_ne by discriminate
              | rewrite lookup_insert_ne by discriminate
              | progress cbn [f] ];
            assumption);
      rewrite (bind_ok _ _ _ _ _ (create_dataset_fresh n a s H)); clear H
  end.

Lemma touches_fft (psd : bool) : touches [freq_name; FT_name] (fft psd).
Proof. unfold fft, working_array. touches_tac. Qed.

Lemma get_step_frame (st st1 : Signal) (dt : R) :
  f st1 !! "x" = f st !! "x" ->
  get_step st = (Ok dt, st) -> get_step st1 = (Ok dt, st1).
Proof.
  intros Hx H. unfold get_step in *. rewrite bind_unfold in *.
  unfold getitem in *. cbn [h5path] in *. rewrite Hx.
  destruct (f st !! "x") as [d|]; [|discriminate].
  unfold liftR in *. injection H as ->. reflexivity.
Qed.

Lemma Cscale_cancel (dt : R) (L : list C) :
  dt <> 0 -> map (Cscale (/ dt)) (map (Cscale dt) L) = L.
Proof.
  intros Hdt. rewrite map_map. rewrite <- (map_id L) at 2.
  apply map_ext. intros [a b]. unfold Cscale. cbn [fst snd].
  f_equal; field; assumption.
Qed.

Lemma Cabs_of_real (v : R) : Cabs (v, 0) = Rabs v.
Proof.
  unfold Cabs. cbn [fst snd].
  replace (v * v + 0 * 0) with (Rsqr v) by (unfold Rsqr; ring).
  apply sqrt_Rsqr_abs.
Qed.

(** The inverse transform as a completed run, from the spectrum it
    reads and the axis it picks. *)
Lemma ifft_run (st : Signal) (sp z0 z : list C) (ab : string)
    (dy : Dataset) (unit_y : string) :
  ifft_spectrum st = (Ok sp, st) ->
  np_ifft (np_ifftshift sp) = Ok z0 ->
  ifft_trim z0 st = (Ok (z, ab), st) ->
  f st !! "y" = Some dy ->
  get_attr dy "unit" = Ok (AStr unit_y) ->
  f st !! "workup/time/z" = None ->
  f st !! "workup/time/p" = None ->
  f st !! "workup/time/a" = None ->
  (ifft st).1 = Ok tt
  /\ (exists dz, f (ifft st).2 !! "workup/time/z" = Some dz
                 /\ data dz = ACplx z)
  /\ (exists da, f (ifft st).2 !! "workup/time/a" = Some da
                 /\ data da = AReal (map Cabs z)).
Proof.
  intros Hsp Hz0 Htrim Hy Hunit Hf1 Hf2 Hf3. unfold ifft.
  rewrite (bind_ok _ _ _ _ _ Hsp).
  rewrite bind_liftR, Hz0.
  rewrite (bind_ok _ _ _ _ _ Htrim). cbn [fst snd].
  step_create.
  match goal with
  | |- context [ (getitem "y" ≫= ?k) ?s ] =>
      rewrite (bind_ok _ _ _ _ _ (getitem_some "y" s dy
                 ltac:(cbn [f h5path];
                       rewrite lookup_insert_ne by discriminate; exact Hy)))
  end.
  rewrite bind_liftR, Hunit. cbn [mbind result_bind as_str].
  rewrite bind_update_attrs. step_create.
  rewrite bind_update_attrs. step_create_deep.
  split; [reflexivity|]. split.
  - eexists. split.
    + cbn [snd].
      rewrite lookup_update_attrs_ne by discriminate. cbn [f].
      rewrite lookup_insert_ne by discriminate.
      rewrite lookup_update_attrs_ne by discriminate. cbn [f].
      rewrite lookup_insert_ne by discriminate.
      apply lookup_update_attrs_some. apply lookup_insert_eq.
    + reflexivity.
  - eexists. split.
    + cbn [snd]. apply lookup_update_attrs_some. apply lookup_insert_eq.
    + reflexivity.
Qed.

(** The inverse transform right after the linear transform of a
    record of at least two samples, with no filter and no trim mask
    in the file. *)
Lemma fft_then_ifft (st : Signal) (s : list R) (dt : R) (dy : Dataset)
    (name_orig unit_orig : string) :
  working_array st = (Ok s, st) ->
  get_step st = (Ok dt, st) ->
  dt <> 0 ->
  (2 <= length s)%nat ->
  f st !! "y" = Some dy ->
  get_attr dy "name" = Ok (AStr name_orig) ->
  get_attr dy "unit" = Ok (AStr unit_orig) ->
  f st !! freq_name = None ->
  f st !! FT_name = None ->
  f st !! "workup/freq/filter/Hc" = None ->
  f st !! bp_name = None ->
  f st !! rippleless_name = None ->
  f st !! "workup/time/z" = None ->
  f st !! "workup/time/p" = None ->
  f st !! "workup/time/a" = None ->
  fft false st = (Ok tt, (fft false st).2)
  /\ (ifft (fft false st).2).1 = Ok tt
  /\ (exists dz, f (ifft (fft false st).2).2 !! "workup/time/z" = Some dz
                 /\ data dz = ACplx (map (fun v => (v, 0)) s))
  /\ (exists da, f (ifft (fft false st).2).2 !! "workup/time/a" = Some da
                 /\ data da = AReal (map Rabs s)).
Proof.
  intros Hs Hdt Hnz Hm Hy Hname Hunit Hf1 Hf2 HHc Hbp Hrip Hz Hp Ha.
  assert (Hne : s <> []) by (destruct s; [simpl in Hm; lia|discriminate]).
  destruct (fft_linear_stores st s dt dy name_orig unit_orig)
    as (Hok & dFT & HFT & Hdata); try assumption.
  set (st1 := (fft false st).2) in *.
  assert (Hframe : forall n, n ∉ [freq_name; FT_name] ->
            f st1 !! n = f st !! n)
    by (intros n Hn; apply (touches_fft false st n Hn)).
  assert (Hstep1 : get_step st1 = (Ok dt, st1)).
  { apply (get_step_frame st); [|exact Hdt]. apply Hframe. not_in_names. }
  assert (Hsp : ifft_spectrum st1
                = (Ok (np_fftshift (map (dft_bin s) (seq 0 (length s)))),
                   st1)).
  { unfold ifft_spectrum.
    rewrite (bind_ok _ _ _ _ _ (getitem_some "workup/freq/FT" st1 dFT HFT)).
    rewrite bind_liftR, Hdata. cbn [as_complex].
    rewrite (bind_ok _ _ _ _ _ Hstep1).
    rewrite (bind_ok _ _ _ _ _
               (contains_none "workup/freq/filter/Hc" st1
                  ltac:(cbn [h5path]; rewrite Hframe by not_in_names;
                        exact HHc))).
    rewrite bind_unfold. cbn [mret M_ret].
    rewrite (bind_ok _ _ _ _ _
               (contains_none "workup/freq/filter/bp" st1
                  ltac:(cbn [h5path]; rewrite Hframe by not_in_names;
                        exact Hbp))).
    rewrite Cscale_cancel by assumption. reflexivity. }
  assert (Htrim : exists ab,
            ifft_trim (map (fun v => (v, 0)) s) st1
            = (Ok (map (fun v => (v, 0)) s, ab), st1)).
  { unfold ifft_trim.
    rewrite (bind_ok _ _ _ _ _
               (contains_none "workup/time/mask/rippleless" st1
                  ltac:(cbn [h5path]; rewrite Hframe by not_in_names;
                        exact Hrip))).
    rewrite bind_unfold. unfold contains.
    destruct (bool_decide _); cbn [mret M_ret]; eauto. }
  destruct Htrim as [ab Htrim].
  destruct (ifft_run st1 _ _ _ ab dy unit_orig Hsp
              ltac:(rewrite np_ifftshift_fftshift; apply np_ifft_fft, Hne)
              Htrim)
    as (Hok2 & Hz2 & Ha2).
  { rewrite Hframe by not_in_names. exact Hy. }
  { exact Hunit. }
  { rewrite Hframe by not_in_names. exact Hz. }
  { rewrite Hframe by not_in_names. exact Hp. }
  { rewrite Hframe by not_in_names. exact Ha. }
  split; [apply run_ok, Hok|]. split; [exact Hok2|].
  split; [exact Hz2|].
  destruct Ha2 as (da & Hda & Hdd). exists da. split; [exact Hda|].
  rewrite Hdd, map_map. f_equal. apply map_ext. intros v.
  apply Cabs_of_real.
Qed.

(** X24. The inverse transform undoes the transform: on a record of at
    least two samples with a non-zero time step, with no filter and no
    trim mask in the file, the linear transform followed by the
    inverse transform completes, and the complex signal it stores is
    the transformed record itself, sample by sample, with zero
    imaginary part; the stored amplitude is its absolute value. *)
Theorem fft_ifft_round_trip (st : Signal) (s : list R) (dt : R)
    (dy : Dataset) (name_orig unit_orig : string) :
  working_array st = (Ok s, st) ->
  get_step st = (Ok dt, st) ->
  dt <> 0 ->
  (2 <= length s)%nat ->
  f st !! "y" = Some dy ->
  get_attr dy "name" = Ok (AStr name_orig) ->
  get_attr dy "unit" = Ok (AStr unit_orig) ->
  f st !! freq_name = None ->
  f st !! FT_name = None ->
  f st !! "workup/freq/filter/Hc" = None ->
  f st !! bp_name = None ->
  f st !! rippleless_name = None ->
  f st !! "workup/time/z" = None ->
  f st !! "workup/time/p" = None ->
  f st !! "workup/time/a" = None ->
  exists dz da,
    ((fft false;; ifft) st).1 = Ok tt
    /\ f ((fft false;; ifft) st).2 !! "workup/time/z" = Some dz
    /\ data dz = ACplx (map (fun v => (v, 0)) s)
    /\ f ((fft false;; ifft) st).2 !! "workup/time/a" = Some da
    /\ data da = AReal (map Rabs s).
Proof.
  intros Hs Hdt Hnz Hm Hy Hname Hunit Hf1 Hf2 HHc Hbp Hrip Hz Hp Ha.
  destruct (fft_then_ifft st s dt dy name_orig unit_orig)
    as (Hrun1 & Hok2 & (dz & Hdz & Hzd) & (da & Hda & Had)); try assumption.
  assert (Hseq : (fft false;; ifft) st = ifft (fft false st).2)
    by exact (bind_ok (fft false) (fun _ => ifft) st tt _ Hrun1).
  rewrite Hseq. exists dz, da. auto.
Qed.

Lemma fft_ifft_round_trip_witness :
  exists dz da,
    ((fft false;; ifft) demo4).1 = Ok tt
    /\ f ((fft false;; ifft) demo4).2 !! "workup/time/z" = Some dz
    /\ data dz = ACplx (map (fun v => (v, 0)) [3; 1; 4; 1])
    /\ f ((fft false;; ifft) demo4).2 !! "workup/time/a" = Some da
    /\ data da = AReal (map Rabs [3; 1; 4; 1]).
Proof.
  apply (fft_ifft_round_trip demo4 [3; 1; 4; 1] 1
           (default (mkDataset (AReal []) ∅) (f demo4 !! "y")) "x" "nm").
  - exact demo4_working_array.
  - exact demo4_step.
  - lra.
  - simpl. lia.
  - reflexivity.
  - reflexivity.
  - reflexivity.
  - reflexivity.
  - reflexivity.
  - reflexivity.
  - reflexivity.
  - reflexivity.
  - reflexivity.
  - reflexivity.
  - reflexivity.
Defined.

(** The run the demodulator properties are witnessed on: the linear
    transform of the small signal, then the inverse transform. *)
Lemma demo4_ifft_run :
  ifft (fft false demo4).2 = (Ok tt, (ifft (fft false demo4).2).2).
Proof.
  apply run_ok.
  assert (H2 : (2 <= length [3; 1; 4; 1])%nat) by (simpl; lia).
  assert (H1 : (1 : R) <> 0) by lra.
  destruct (fft_then_ifft demo4 [3; 1; 4; 1] 1
              (default (mkDataset (AReal []) ∅) (f demo4 !! "y")) "x" "nm"
              demo4_working_array demo4_step H1 H2)
    as (_ & Hok & _); [reflexivity..|exact Hok].
Qed.

Lemma ifft_amplitude_and_phase_witness :
  exists (dz dp da : Dataset) (z : list C) (p a : list R) (ab : string),
    f (ifft (fft false demo4).2).2 !! "workup/time/z" = Some dz
    /\ data dz = ACplx z
    /\ f (ifft (fft false demo4).2).2 !! "workup/time/p" = Some dp
    /\ data dp = AReal p
    /\ f (ifft (fft false demo4).2).2 !! "workup/time/a" = Some da
    /\ data da = AReal a
    /\ attrs dz !! "abscissa" = Some (AStr ab)
    /\ attrs dp !! "abscissa" = Some (AStr ab)
    /\ attrs da !! "abscissa" = Some (AStr ab)
    /\ length p = length z
    /\ length a = length z
    /\ (forall (i : nat) zi, z !! i = Some zi ->
          a !! i = Some (Cabs zi) /\ 0 <= Cabs zi)
    /\ (forall (i : nat) p0 p1, p !! i = Some p0 -> p !! S i = Some p1 ->
          Rabs (p1 - p0) <= 1 / 2).
Proof.
  exact (ifft_amplitude_and_phase (fft false demo4).2
           (ifft (fft false demo4).2).2 demo4_ifft_run).
Defined.

Lemma ifft_polar_form_witness :
  exists (dz dp da : Dataset) (z : list C) (p a : list R),
    f (ifft (fft false demo4).2).2 !! "workup/time/z" = Some dz
    /\ data dz = ACplx z
    /\ f (ifft (fft false demo4).2).2 !! "workup/time/p" = Some dp
    /\ data dp = AReal p
    /\ f (ifft (fft false demo4).2).2 !! "workup/time/a" = Some da
    /\ data da = AReal a
    /\ forall (i : nat) zi, z !! i = Some zi ->
         exists pi ai,
           p !! i = Some pi /\ a !! i = Some ai
           /\ zi = (ai * cos (2 * PI * pi), ai * sin (2 * PI * pi)).
Proof.
  exact (ifft_polar_form (fft false demo4).2
           (ifft (fft false demo4).2).2 demo4_ifft_run).
Defined.

(** ** The length normalizer feeds the later stages *)

Lemma touches_time_mask_binarate (mode : string) :
  touches ["workup/time/mask/binarate"; "workup/time/x_binarated"]
    (time_mask_binarate mode).
Proof. unfold time_mask_binarate. touches_tac. Qed.

(** X25. After the length normalizer has run on a signal of [n >= 2]
    samples, the later stages work on a record whose length is a power
    of two: the array the spectral transform takes up is the [n2]
    samples of the signal from position [start] on, and the taper
    builder sizes its window to [n2] entries over the masked time
    axis, where [n2 = 2^floor(log2 n)]. *)
Theorem time_mask_binarate_feeds_transform (st : Signal) (dy dx : Dataset)
    (s xs : list R) (mode : string) (start : Z) :
  let n := Z.of_nat (length s) in
  let n2 := (2 ^ Z.log2 n)%Z in
  f st !! "y" = Some dy ->
  data dy = AReal s ->
  f st !! "x" = Some dx ->
  data dx = AReal xs ->
  length xs = length s ->
  (2 <= n)%Z ->
  f st !! binarate_name = None ->
  f st !! x_binarated_name = None ->
  f st !! window_name = None ->
  (mode = "start" /\ start = 0%Z)
  \/ (mode = "middle" /\ start = ((n - n2) / 2)%Z)
  \/ (mode = "end" /\ start = (n - n2)%Z) ->
  let st' := (time_mask_binarate mode st).2 in
  (time_mask_binarate mode st).1 = Ok tt
  /\ working_array st'
     = (Ok (take (Z.to_nat n2) (drop (Z.to_nat start) s)), st')
  /\ Z.of_nat (length (take (Z.to_nat n2) (drop (Z.to_nat start) s))) = n2
  /\ window_length st' = (Ok (n2, "workup/time/x_binarated"), st').
Proof.
  intros n n2 Hy Hdy Hx Hdx Hlen Hn Hf1 Hf2 Hwin Hmode st'.
  assert (Hsize : array_size (data dy) = n) by (rewrite Hdy; reflexivity).
  destruct (time_mask_binarate_prefix st dy dx xs mode start)
    as (st2 & xb & Hrun & Hxb & Hlxb & (dm & Hdm & Hmask) & _ & _);
    try assumption; rewrite ?Hsize; try assumption; try lia.
  rewrite ?Hsize in Hxb, Hlxb, Hmask. fold n2 in Hxb, Hlxb, Hmask.
  assert (Hn2 : (2 <= n2 <= n)%Z).
  { destruct (nearest_pow2_ok n ltac:(lia)) as [_ Hle]. fold n2 in Hle.
    unfold n2. pose proof (Z.log2_le_mono 2 n ltac:(lia)) as Hl.
    change (Z.log2 2) with 1%Z in Hl.
    pose proof (Z.pow_le_mono_r 2 1 (Z.log2 n) ltac:(lia) Hl).
    fold n2. fold n2 in H. lia. }
  assert (Hstart : (0 <= start /\ start + n2 <= n)%Z).
  { destruct Hmode as [[_ ->]|[[_ ->]|[_ ->]]]; [lia| |lia].
    split; [apply Z.div_pos; lia|].
    pose proof (Z.mul_div_le (n - n2) 2 ltac:(lia)). lia. }
  destruct (lookup_lt_is_Some_2 xb 0 ltac:(lia)) as [x0 Hx0].
  destruct (lookup_lt_is_Some_2 xb 1 ltac:(lia)) as [x1 Hx1].
  rewrite bind_liftR, (np_item_some _ _ _ Hx0) in Hrun.
  rewrite bind_liftR, (np_item_some _ _ _ Hx1) in Hrun.
  assert (Hok : (time_mask_binarate mode st).1 = Ok tt)
    by (rewrite Hrun; reflexivity).
  (* what the later stages find in the file *)
  destruct (keeps_time_mask_binarate mode st "y" dy Hy)
    as (dy' & Hy' & Hdy').
  fold st' in Hy'. rewrite Hdy in Hdy'.
  assert (Hm' : f st' !! binarate_name = Some dm).
  { unfold st'. rewrite Hrun. cbn [snd].
    rewrite lookup_update_attrs_ne by discriminate. exact Hdm. }
  assert (Hw' : f st' !! window_name = None).
  { unfold st'.
    rewrite (touches_time_mask_binarate mode st window_name)
      by not_in_names.
    exact Hwin. }
  assert (Hsel : np_getitem_mask s (range_mask n start (start + n2))
                 = Ok (take (Z.to_nat n2) (drop (Z.to_nat start) s))).
  { rewrite (np_getitem_range_mask s n) by (unfold n; lia).
    replace (start + n2 - start)%Z with n2 by lia. reflexivity. }
  split; [exact Hok|]. split; [|split].
  - unfold working_array.
    rewrite (bind_ok _ _ _ _ _ (getitem_some "y" st' dy' Hy')).
    rewrite bind_liftR, Hdy'. cbn [as_real].
    rewrite (bind_ok _ _ _ _ _
               (contains_some "workup/time/mask/binarate" st' dm Hm')).
    rewrite bind_unfold.
    rewrite (bind_ok _ _ _ _ _
               (getitem_some "workup/time/mask/binarate" st' dm Hm')).
    rewrite bind_liftR, Hmask. cbn [as_bool].
    unfold liftR at 1. rewrite Hsel.
    rewrite (bind_ok _ _ _ _ _
               (contains_none "workup/time/window/cyclicize" st' Hw')).
    reflexivity.
  - rewrite length_take, length_drop. unfold n in *. lia.
  - unfold window_length.
    rewrite (bind_ok _ _ _ _ _
               (contains_some "workup/time/mask/binarate" st' dm Hm')).
    rewrite (bind_ok _ _ _ _ _
               (getitem_some "workup/time/mask/binarate" st' dm Hm')).
    rewrite bind_liftR, Hmask. cbn [as_bool].
    rewrite range_mask_count by lia.
    replace (start + n2 - start)%Z with n2 by lia. reflexivity.
Qed.

Lemma time_mask_binarate_feeds_transform_witness :
  let st := (load_nparray [3; 1; 4; 1; 5] "x" "nm" 1
               "cantilever displacement" Signal_init).2 in
  let st' := (time_mask_binarate "end" st).2 in
  (time_mask_binarate "end" st).1 = Ok tt
  /\ working_array st' = (Ok (take 4 (drop 1 [3; 1; 4; 1; 5])), st')
  /\ Z.of_nat (length (take 4 (drop 1 [3; 1; 4; 1; 5]))) = 4%Z
  /\ window_length st' = (Ok (4%Z, "workup/time/x_binarated"), st').
Proof.
  pose proof (time_mask_binarate_feeds_transform
                (load_nparray [3; 1; 4; 1; 5] "x" "nm" 1
                   "cantilever displacement" Signal_init).2
                (default (mkDataset (AReal []) ∅)
                   (f (load_nparray [3; 1; 4; 1; 5] "x" "nm" 1
                         "cantilever displacement" Signal_init).2 !! "y"))
                (default (mkDataset (AReal []) ∅)
                   (f (load_nparray [3; 1; 4; 1; 5] "x" "nm" 1
                         "cantilever displacement" Signal_init).2 !! "x"))
                [3; 1; 4; 1; 5] [1 * 0; 1 * 1; 1 * 2; 1 * 3; 1 * 4]
                "end" 1) as H.
  change (Z.of_nat (length [3; 1; 4; 1; 5])) with 5%Z in H.
  change (2 ^ Z.log2 5)%Z with 4%Z in H.
  change (Z.to_nat 4) with 4%nat in H.
  change (Z.to_nat 1) with 1%nat in H.
  apply H.
  - reflexivity.
  - reflexivity.
  - reflexivity.
  - reflexivity.
  - reflexivity.
  - lia.
  - reflexivity.
  - reflexivity.
  - reflexivity.
  - right. right. split; reflexivity.
Defined.

(** ** The inverse transform: refusals *)

(** X26. The inverse transform changes nothing when it has no
    spectrum to work on: without a stored transform it raises a key
    error, and on an empty spectrum the inverse transform itself is
    refused with a value error. *)
Theorem ifft_refusals (st : Signal) :
  (f st !! FT_name = None -> ifft st = (Raise KeyError, st))
  /\ (ifft_spectrum st = (Ok [], st) -> ifft st = (Raise ValueError, st)).
Proof.
  split.
  - intros HFT. unfold ifft, ifft_spectrum.
    rewrite (bind_raise _ _ _ KeyError st); [reflexivity|].
    rewrite (bind_raise _ _ _ _ _ (getitem_none "workup/freq/FT" st HFT)).
    reflexivity.
  - intros Hsp. unfold ifft.
    rewrite (bind_ok _ _ _ _ _ Hsp). rewrite bind_liftR. reflexivity.
Qed.

Lemma ifft_refusals_witness :
  ifft demo4 = (Raise KeyError, demo4).
Proof. apply (ifft_refusals demo4). reflexivity. Defined.
